(** * InterviewCoder: transcript segmentation, dispatch and history

    A shallow embedding of the speech pipeline of the Electron main
    process:

    - [SpeechToTextHelper] (speaker normalisation, question buffer,
      emission gate, session stop),
    - the dispatch coordinator of [main.ts] ([handleSpeechTranscription],
      [isValidInterviewQuestion], [processNextInQueue]),
    - the conversation history of [ProcessingHelper] (append with
      trimming, JSON persistence).

    Conventions of the embedding.
    - A JavaScript string is a [string]: a sequence of 8-bit code units
      read as Latin-1 (U+0000 .. U+00FF).  [trim], [toLowerCase] and the
      regular-expression classes are the ECMAScript ones restricted to
      that range.
    - [Date.now()] is an explicit argument [now : Z] of every handler
      (milliseconds); a handler reads the clock once.
    - [number | null] is [option Z]; an absent (undefined) [speaker]
      field of a Deepgram word is [None].
    - Mutable fields of a class or module are the fields of a record that
      every handler takes and returns; what a handler sends out
      (EventEmitter events, IPC messages, backend calls, timers) is logged
      in fields of the same record.
    - An [async] function is split at its [await]: the part that runs
      before it and the continuation that runs when the promise settles. *)

From Stdlib Require Import ZArith Lia List String Ascii Bool.
From stdpp Require Import base option strings gmap.
Import ListNotations.

Set Warnings "-register-all".

Local Open Scope Z_scope.
Local Open Scope string_scope.

(** ** JavaScript strings *)

Module Js.

Definition code (c : ascii) : N := N_of_ascii c.

(** WhiteSpace and LineTerminator code points below U+0100: TAB, LF,
    VT, FF, CR, SPACE and NO-BREAK SPACE.  This is the set removed by
    [String.prototype.trim] and matched by [\s]. *)
Definition isWhiteSpace (c : ascii) : bool :=
  let n := code c in
  ((9 <=? n) && (n <=? 13) || (n =? 32) || (n =? 160))%N.

Fixpoint trimStart (s : string) : string :=
  match s with
  | String c r => if isWhiteSpace c then trimStart r else s
  | EmptyString => EmptyString
  end.

Fixpoint trimEnd (s : string) : string :=
  match s with
  | String c r =>
      match trimEnd r with
      | EmptyString => if isWhiteSpace c then EmptyString else String c EmptyString
      | r' => String c r'
      end
  | EmptyString => EmptyString
  end.

Definition trim (s : string) : string := trimEnd (trimStart s).

(** [String.prototype.toLowerCase] on Latin-1: A-Z and the accented
    capitals U+00C0 .. U+00DE (U+00D7, the multiplication sign, apart)
    move up by 32.  On this range the function maps each code unit to
    one code unit; what it does to a code unit above U+00FF, where it
    can lengthen the string, is outside the embedding. *)
Definition lowerChar (c : ascii) : ascii :=
  let n := code c in
  if ((65 <=? n) && (n <=? 90)
      || (192 <=? n) && (n <=? 222) && negb (n =? 215))%N
  then ascii_of_N (n + 32) else c.

Fixpoint toLowerCase (s : string) : string :=
  match s with
  | String c r => String (lowerChar c) (toLowerCase r)
  | EmptyString => EmptyString
  end.

Fixpoint startsWith (s p : string) : bool :=
  match p, s with
  | EmptyString, _ => true
  | String a p', String b s' => Ascii.eqb a b && startsWith s' p'
  | String _ _, EmptyString => false
  end.

Fixpoint includes (s sub : string) : bool :=
  startsWith s sub
  || match s with
     | String _ r => includes r sub
     | EmptyString => false
     end.

Fixpoint endsWith (s suf : string) : bool :=
  String.eqb s suf
  || match s with
     | String _ r => endsWith r suf
     | EmptyString => false
     end.

(** The last code unit, if any. *)
Fixpoint lastChar (s : string) : option ascii :=
  match s with
  | EmptyString => None
  | String c EmptyString => Some c
  | String _ r => lastChar r
  end.

(** [s.split(/\s+/).length]: one more than the number of maximal runs
    of white space. *)
Fixpoint splitWsCount (inRun : bool) (s : string) : nat :=
  match s with
  | EmptyString => 1%nat
  | String c r =>
      if isWhiteSpace c
      then (if inRun then splitWsCount true r else S (splitWsCount true r))
      else splitWsCount false r
  end.

(** [Array.prototype.join(' ')] on strings. *)
Fixpoint join (sep : string) (l : list string) : string :=
  match l with
  | [] => EmptyString
  | [x] => x
  | x :: r => x ++ sep ++ join sep r
  end.

End Js.

(** ** SpeechToTextHelper: classifiers, buffer, emission gate *)

Module Speech.
Import Js.

Definition EMIT_DEBOUNCE_TIME : Z := 8000.
Definition QUESTION_COMPLETION_PAUSE : Z := 2000.
Definition MIN_QUESTION_LENGTH : nat := 10.
Definition MAX_QUESTION_BUFFER_TIME : Z := 30000.
Definition SPEAKER_SWITCH_THRESHOLD : Z := 1500.
Definition DEBOUNCE_TIME : Z := 5000.

(** *** isLikelyQuestion *)

Definition questionStarters : list string :=
  [ "what"; "how"; "why"; "when"; "where"; "which"; "who"; "whose"; "whom";
    "can you"; "could you"; "will you"; "would you"; "please";
    "tell me"; "explain"; "describe"; "elaborate"; "discuss"; "compare";
    "can we"; "should we"; "shall we";
    "do you"; "did you"; "have you"; "are you"; "is there"; "are there";
    "solve"; "implement"; "write"; "code"; "design"; "create" ].

Definition imperativePhrases : list string :=
  [ "let me know"; "think about"; "consider"; "look at"; "show me";
    "walk me through"; "talk about"; "go through" ].

Definition interviewPatterns : list string :=
  [ "algorithm"; "complexity"; "optimize"; "efficient"; "solution";
    "approach"; "strategy"; "method"; "technique"; "implement";
    "time complexity"; "space complexity"; "big o"; "runtime" ].

Definition hasQuestionStarter (lowerText : string) : bool :=
  existsb (fun starter =>
             startsWith lowerText (starter ++ " ")
             || startsWith lowerText (starter ++ ",")
             || includes lowerText (" " ++ starter ++ " ")
             || includes lowerText (", " ++ starter ++ " "))
          questionStarters.

Definition isLikelyQuestion (text : string) : bool :=
  if (String.length (trim text) <? 3)%nat then false
  else
    let trimmedText := trim text in
    if includes trimmedText "?" then true
    else
      let lowerText := toLowerCase trimmedText in
      hasQuestionStarter lowerText
      || existsb (includes lowerText) imperativePhrases
      || existsb (includes lowerText) interviewPatterns.

(** *** The subject + modal/verb pattern

    [/\b(you|i|we|they|he|she|it|this|that|there)\s+(are|is|can|could|should|would|will|do|did|have|has|want|need|think)/i]

    A match starts at a word boundary.  The character after the
    boundary is the first letter of a subject, a word character, so the
    boundary holds exactly when the character before it is not a word
    character (or there is none).  [\s+] is followed by a letter, so it
    takes the whole run of white space. *)

Definition subjects : list string :=
  [ "you"; "i"; "we"; "they"; "he"; "she"; "it"; "this"; "that"; "there" ].

Definition verbs : list string :=
  [ "are"; "is"; "can"; "could"; "should"; "would"; "will"; "do"; "did";
    "have"; "has"; "want"; "need"; "think" ].

(** [\w] *)
Definition isWordChar (c : ascii) : bool :=
  let n := code c in
  ((48 <=? n) && (n <=? 57) || (65 <=? n) && (n <=? 90)
   || (97 <=? n) && (n <=? 122) || (n =? 95))%N.

(** A literal of lower-case letters matched under the [i] flag; the
    rest of the input on success. *)
Fixpoint matchLiteral (p s : string) : option string :=
  match p, s with
  | EmptyString, _ => Some s
  | String a p', String b s' =>
      if Ascii.eqb a (lowerChar b) then matchLiteral p' s' else None
  | String _ _, EmptyString => None
  end.

Definition matchVerbAfterSpace (s : string) : bool :=
  match s with
  | String c r =>
      isWhiteSpace c
      && existsb (fun v => match matchLiteral v (trimStart r) with
                           | Some _ => true
                           | None => false
                           end) verbs
  | EmptyString => false
  end.

Definition matchSubjectVerbAt (s : string) : bool :=
  existsb (fun subj => match matchLiteral subj s with
                       | Some r => matchVerbAfterSpace r
                       | None => false
                       end) subjects.

(** Scan of every start position; [prevWord] tells whether the
    previous character is a word character. *)
Fixpoint searchSubjectVerb (prevWord : bool) (s : string) : bool :=
  negb prevWord && matchSubjectVerbAt s
  || match s with
     | String c r => searchSubjectVerb (isWordChar c) r
     | EmptyString => false
     end.

Definition hasSubjectVerb (s : string) : bool := searchSubjectVerb false s.

(** *** isQuestionComplete *)

(** [/[.!?]$/] *)
Definition endsWithTerminalPunctuation (s : string) : bool :=
  match lastChar s with
  | Some c => Ascii.eqb c "." || Ascii.eqb c "!" || Ascii.eqb c "?"
  | None => false
  end.

Definition isQuestionComplete (text : string) : bool :=
  if (String.length (trim text) <? MIN_QUESTION_LENGTH)%nat then false
  else
    let trimmedText := trim text in
    if endsWithTerminalPunctuation trimmedText then true
    else if (50 <? String.length trimmedText)%nat && isLikelyQuestion trimmedText
    then (if hasSubjectVerb trimmedText then true else false)
    else false.

(** *** State of the helper

    The fields of the class, then the effects it produces:
    [emitted] logs [this.emit('transcription', _)], [sent] logs
    [webContents.send(channel, payload)], [timers] holds the pending
    [setTimeout] callbacks (handle, due time, callback) and
    [nextTimerId] is the next handle.  [deepgramClient], [liveTcp] and
    [mainWindow] only record whether the object is there. *)

Record QuestionBuffer := mkQuestionBuffer {
  text : string;
  speaker : option Z;
  lastUpdateTime : Z;
  wordCount : nat;
  hasQuestionMarkers : bool
}.

Inductive Callback := CbProcessQuestionBuffer | CbClearProcessingDiarized.

Record Helper := mkHelper {
  deepgramClient : bool;
  isListening : bool;
  liveTcp : bool;
  mainWindow : bool;
  lastProcessedText : string;
  lastProcessedTime : Z;
  processingDiarizedTranscript : bool;
  processedTranscriptIds : gset string;
  lastEmittedTranscript : string;
  lastEmittedTime : Z;
  firstSpeakerId : option Z;
  questionBuffer : option QuestionBuffer;
  questionCompletionTimer : option nat;
  lastSpeakerActivity : gmap Z Z;
  currentActiveSpeaker : option Z;
  silenceStartTime : option Z;
  emitted : list string;
  sent : list (string * string);
  timers : list (nat * (Z * Callback));
  nextTimerId : nat
}.

Definition set_isListening (v : bool) (h : Helper) : Helper :=
  {| deepgramClient := deepgramClient h; isListening := v;
     liveTcp := liveTcp h; mainWindow := mainWindow h;
     lastProcessedText := lastProcessedText h;
     lastProcessedTime := lastProcessedTime h;
     processingDiarizedTranscript := processingDiarizedTranscript h;
     processedTranscriptIds := processedTranscriptIds h;
     lastEmittedTranscript := lastEmittedTranscript h;
     lastEmittedTime := lastEmittedTime h;
     firstSpeakerId := firstSpeakerId h;
     questionBuffer := questionBuffer h;
     questionCompletionTimer := questionCompletionTimer h;
     lastSpeakerActivity := lastSpeakerActivity h;
     currentActiveSpeaker := currentActiveSpeaker h;
     silenceStartTime := silenceStartTime h; emitted := emitted h;
     sent := sent h; timers := timers h; nextTimerId := nextTimerId h |}.

Definition set_liveTcp (v : bool) (h : Helper) : Helper :=
  {| deepgramClient := deepgramClient h; isListening := isListening h;
     liveTcp := v; mainWindow := mainWindow h;
     lastProcessedText := lastProcessedText h;
     lastProcessedTime := lastProcessedTime h;
     processingDiarizedTranscript := processingDiarizedTranscript h;
     processedTranscriptIds := processedTranscriptIds h;
     lastEmittedTranscript := lastEmittedTranscript h;
     lastEmittedTime := lastEmittedTime h;
     firstSpeakerId := firstSpeakerId h;
     questionBuffer := questionBuffer h;
     questionCompletionTimer := questionCompletionTimer h;
     lastSpeakerActivity := lastSpeakerActivity h;
     currentActiveSpeaker := currentActiveSpeaker h;
     silenceStartTime := silenceStartTime h; emitted := emitted h;
     sent := sent h; timers := timers h; nextTimerId := nextTimerId h |}.

Definition set_lastProcessedText (v : string) (h : Helper) : Helper :=
  {| deepgramClient := deepgramClient h; isListening := isListening h;
     liveTcp := liveTcp h; mainWindow := mainWindow h;
     lastProcessedText := v; lastProcessedTime := lastProcessedTime h;
     processingDiarizedTranscript := processingDiarizedTranscript h;
     processedTranscriptIds := processedTranscriptIds h;
     lastEmittedTranscript := lastEmittedTranscript h;
     lastEmittedTime := lastEmittedTime h;
     firstSpeakerId := firstSpeakerId h;
     questionBuffer := questionBuffer h;
     questionCompletionTimer := questionCompletionTimer h;
     lastSpeakerActivity := lastSpeakerActivity h;
     currentActiveSpeaker := currentActiveSpeaker h;
     silenceStartTime := silenceStartTime h; emitted := emitted h;
     sent := sent h; timers := timers h; nextTimerId := nextTimerId h |}.

Definition set_lastProcessedTime (v : Z) (h : Helper) : Helper :=
  {| deepgramClient := deepgramClient h; isListening := isListening h;
     liveTcp := liveTcp h; mainWindow := mainWindow h;
     lastProcessedText := lastProcessedText h; lastProcessedTime := v;
     processingDiarizedTranscript := processingDiarizedTranscript h;
     processedTranscriptIds := processedTranscriptIds h;
     lastEmittedTranscript := lastEmittedTranscript h;
     lastEmittedTime := lastEmittedTime h;
     firstSpeakerId := firstSpeakerId h;
     questionBuffer := questionBuffer h;
     questionCompletionTimer := questionCompletionTimer h;
     lastSpeakerActivity := lastSpeakerActivity h;
     currentActiveSpeaker := currentActiveSpeaker h;
     silenceStartTime := silenceStartTime h; emitted := emitted h;
     sent := sent h; timers := timers h; nextTimerId := nextTimerId h |}.

Definition set_processingDiarizedTranscript (v : bool) (h : Helper) : Helper :=
  {| deepgramClient := deepgramClient h; isListening := isListening h;
     liveTcp := liveTcp h; mainWindow := mainWindow h;
     lastProcessedText := lastProcessedText h;
     lastProcessedTime := lastProcessedTime h;
     processingDiarizedTranscript := v;
     processedTranscriptIds := processedTranscriptIds h;
     lastEmittedTranscript := lastEmittedTranscript h;
     lastEmittedTime := lastEmittedTime h;
     firstSpeakerId := firstSpeakerId h;
     questionBuffer := questionBuffer h;
     questionCompletionTimer := questionCompletionTimer h;
     lastSpeakerActivity := lastSpeakerActivity h;
     currentActiveSpeaker := currentActiveSpeaker h;
     silenceStartTime := silenceStartTime h; emitted := emitted h;
     sent := sent h; timers := timers h; nextTimerId := nextTimerId h |}.

Definition set_processedTranscriptIds (v : gset string) (h : Helper) : Helper :=
  {| deepgramClient := deepgramClient h; isListening := isListening h;
     liveTcp := liveTcp h; mainWindow := mainWindow h;
     lastProcessedText := lastProcessedText h;
     lastProcessedTime := lastProcessedTime h;
     processingDiarizedTranscript := processingDiarizedTranscript h;
     processedTranscriptIds := v;
     lastEmittedTranscript := lastEmittedTranscript h;
     lastEmittedTime := lastEmittedTime h;
     firstSpeakerId := firstSpeakerId h;
     questionBuffer := questionBuffer h;
     questionCompletionTimer := questionCompletionTimer h;
     lastSpeakerActivity := lastSpeakerActivity h;
     currentActiveSpeaker := currentActiveSpeaker h;
     silenceStartTime := silenceStartTime h; emitted := emitted h;
     sent := sent h; timers := timers h; nextTimerId := nextTimerId h |}.

Definition set_lastEmittedTranscript (v : string) (h : Helper) : Helper :=
  {| deepgramClient := deepgramClient h; isListening := isListening h;
     liveTcp := liveTcp h; mainWindow := mainWindow h;
     lastProcessedText := lastProcessedText h;
     lastProcessedTime := lastProcessedTime h;
     processingDiarizedTranscript := processingDiarizedTranscript h;
     processedTranscriptIds := processedTranscriptIds h;
     lastEmittedTranscript := v; lastEmittedTime := lastEmittedTime h;
     firstSpeakerId := firstSpeakerId h;
     questionBuffer := questionBuffer h;
     questionCompletionTimer := questionCompletionTimer h;
     lastSpeakerActivity := lastSpeakerActivity h;
     currentActiveSpeaker := currentActiveSpeaker h;
     silenceStartTime := silenceStartTime h; emitted := emitted h;
     sent := sent h; timers := timers h; nextTimerId := nextTimerId h |}.

Definition set_lastEmittedTime (v : Z) (h : Helper) : Helper :=
  {| deepgramClient := deepgramClient h; isListening := isListening h;
     liveTcp := liveTcp h; mainWindow := mainWindow h;
     lastProcessedText := lastProcessedText h;
     lastProcessedTime := lastProcessedTime h;
     processingDiarizedTranscript := processingDiarizedTranscript h;
     processedTranscriptIds := processedTranscriptIds h;
     lastEmittedTranscript := lastEmittedTranscript h;
     lastEmittedTime := v; firstSpeakerId := firstSpeakerId h;
     questionBuffer := questionBuffer h;
     questionCompletionTimer := questionCompletionTimer h;
     lastSpeakerActivity := lastSpeakerActivity h;
     currentActiveSpeaker := currentActiveSpeaker h;
     silenceStartTime := silenceStartTime h; emitted := emitted h;
     sent := sent h; timers := timers h; nextTimerId := nextTimerId h |}.

Definition set_firstSpeakerId (v : option Z) (h : Helper) : Helper :=
  {| deepgramClient := deepgramClient h; isListening := isListening h;
     liveTcp := liveTcp h; mainWindow := mainWindow h;
     lastProcessedText := lastProcessedText h;
     lastProcessedTime := lastProcessedTime h;
     processingDiarizedTranscript := processingDiarizedTranscript h;
     processedTranscriptIds := processedTranscriptIds h;
     lastEmittedTranscript := lastEmittedTranscript h;
     lastEmittedTime := lastEmittedTime h; firstSpeakerId := v;
     questionBuffer := questionBuffer h;
     questionCompletionTimer := questionCompletionTimer h;
     lastSpeakerActivity := lastSpeakerActivity h;
     currentActiveSpeaker := currentActiveSpeaker h;
     silenceStartTime := silenceStartTime h; emitted := emitted h;
     sent := sent h; timers := timers h; nextTimerId := nextTimerId h |}.

Definition set_questionBuffer (v : option QuestionBuffer) (h : Helper) : Helper :=
  {| deepgramClient := deepgramClient h; isListening := isListening h;
     liveTcp := liveTcp h; mainWindow := mainWindow h;
     lastProcessedText := lastProcessedText h;
     lastProcessedTime := lastProcessedTime h;
     processingDiarizedTranscript := processingDiarizedTranscript h;
     processedTranscriptIds := processedTranscriptIds h;
     lastEmittedTranscript := lastEmittedTranscript h;
     lastEmittedTime := lastEmittedTime h;
     firstSpeakerId := firstSpeakerId h; questionBuffer := v;
     questionCompletionTimer := questionCompletionTimer h;
     lastSpeakerActivity := lastSpeakerActivity h;
     currentActiveSpeaker := currentActiveSpeaker h;
     silenceStartTime := silenceStartTime h; emitted := emitted h;
     sent := sent h; timers := timers h; nextTimerId := nextTimerId h |}.

Definition set_questionCompletionTimer (v : option nat) (h : Helper) : Helper :=
  {| deepgramClient := deepgramClient h; isListening := isListening h;
     liveTcp := liveTcp h; mainWindow := mainWindow h;
     lastProcessedText := lastProcessedText h;
     lastProcessedTime := lastProcessedTime h;
     processingDiarizedTranscript := processingDiarizedTranscript h;
     processedTranscriptIds := processedTranscriptIds h;
     lastEmittedTranscript := lastEmittedTranscript h;
     lastEmittedTime := lastEmittedTime h;
     firstSpeakerId := firstSpeakerId h;
     questionBuffer := questionBuffer h; questionCompletionTimer := v;
     lastSpeakerActivity := lastSpeakerActivity h;
     currentActiveSpeaker := currentActiveSpeaker h;
     silenceStartTime := silenceStartTime h; emitted := emitted h;
     sent := sent h; timers := timers h; nextTimerId := nextTimerId h |}.

Definition set_lastSpeakerActivity (v : gmap Z Z) (h : Helper) : Helper :=
  {| deepgramClient := deepgramClient h; isListening := isListening h;
     liveTcp := liveTcp h; mainWindow := mainWindow h;
     lastProcessedText := lastProcessedText h;
     lastProcessedTime := lastProcessedTime h;
     processingDiarizedTranscript := processingDiarizedTranscript h;
     processedTranscriptIds := processedTranscriptIds h;
     lastEmittedTranscript := lastEmittedTranscript h;
     lastEmittedTime := lastEmittedTime h;
     firstSpeakerId := firstSpeakerId h;
     questionBuffer := questionBuffer h;
     questionCompletionTimer := questionCompletionTimer h;
     lastSpeakerActivity := v;
     currentActiveSpeaker := currentActiveSpeaker h;
     silenceStartTime := silenceStartTime h; emitted := emitted h;
     sent := sent h; timers := timers h; nextTimerId := nextTimerId h |}.

Definition set_currentActiveSpeaker (v : option Z) (h : Helper) : Helper :=
  {| deepgramClient := deepgramClient h; isListening := isListening h;
     liveTcp := liveTcp h; mainWindow := mainWindow h;
     lastProcessedText := lastProcessedText h;
     lastProcessedTime := lastProcessedTime h;
     processingDiarizedTranscript := processingDiarizedTranscript h;
     processedTranscriptIds := processedTranscriptIds h;
     lastEmittedTranscript := lastEmittedTranscript h;
     lastEmittedTime := lastEmittedTime h;
     firstSpeakerId := firstSpeakerId h;
     questionBuffer := questionBuffer h;
     questionCompletionTimer := questionCompletionTimer h;
     lastSpeakerActivity := lastSpeakerActivity h;
     currentActiveSpeaker := v; silenceStartTime := silenceStartTime h;
     emitted := emitted h; sent := sent h; timers := timers h;
     nextTimerId := nextTimerId h |}.

Definition set_silenceStartTime (v : option Z) (h : Helper) : Helper :=
  {| deepgramClient := deepgramClient h; isListening := isListening h;
     liveTcp := liveTcp h; mainWindow := mainWindow h;
     lastProcessedText := lastProcessedText h;
     lastProcessedTime := lastProcessedTime h;
     processingDiarizedTranscript := processingDiarizedTranscript h;
     processedTranscriptIds := processedTranscriptIds h;
     lastEmittedTranscript := lastEmittedTranscript h;
     lastEmittedTime := lastEmittedTime h;
     firstSpeakerId := firstSpeakerId h;
     questionBuffer := questionBuffer h;
     questionCompletionTimer := questionCompletionTimer h;
     lastSpeakerActivity := lastSpeakerActivity h;
     currentActiveSpeaker := currentActiveSpeaker h; silenceStartTime := v;
     emitted := emitted h; sent := sent h; timers := timers h;
     nextTimerId := nextTimerId h |}.

Definition set_emitted (v : list string) (h : Helper) : Helper :=
  {| deepgramClient := deepgramClient h; isListening := isListening h;
     liveTcp := liveTcp h; mainWindow := mainWindow h;
     lastProcessedText := lastProcessedText h;
     lastProcessedTime := lastProcessedTime h;
     processingDiarizedTranscript := processingDiarizedTranscript h;
     processedTranscriptIds := processedTranscriptIds h;
     lastEmittedTranscript := lastEmittedTranscript h;
     lastEmittedTime := lastEmittedTime h;
     firstSpeakerId := firstSpeakerId h;
     questionBuffer := questionBuffer h;
     questionCompletionTimer := questionCompletionTimer h;
     lastSpeakerActivity := lastSpeakerActivity h;
     currentActiveSpeaker := currentActiveSpeaker h;
     silenceStartTime := silenceStartTime h; emitted := v; sent := sent h;
     timers := timers h; nextTimerId := nextTimerId h |}.

Definition set_sent (v : list (string * string)) (h : Helper) : Helper :=
  {| deepgramClient := deepgramClient h; isListening := isListening h;
     liveTcp := liveTcp h; mainWindow := mainWindow h;
     lastProcessedText := lastProcessedText h;
     lastProcessedTime := lastProcessedTime h;
     processingDiarizedTranscript := processingDiarizedTranscript h;
     processedTranscriptIds := processedTranscriptIds h;
     lastEmittedTranscript := lastEmittedTranscript h;
     lastEmittedTime := lastEmittedTime h;
     firstSpeakerId := firstSpeakerId h;
     questionBuffer := questionBuffer h;
     questionCompletionTimer := questionCompletionTimer h;
     lastSpeakerActivity := lastSpeakerActivity h;
     currentActiveSpeaker := currentActiveSpeaker h;
     silenceStartTime := silenceStartTime h; emitted := emitted h;
     sent := v; timers := timers h; nextTimerId := nextTimerId h |}.

Definition set_timers (v : list (nat * (Z * Callback))) (h : Helper) : Helper :=
  {| deepgramClient := deepgramClient h; isListening := isListening h;
     liveTcp := liveTcp h; mainWindow := mainWindow h;
     lastProcessedText := lastProcessedText h;
     lastProcessedTime := lastProcessedTime h;
     processingDiarizedTranscript := processingDiarizedTranscript h;
     processedTranscriptIds := processedTranscriptIds h;
     lastEmittedTranscript := lastEmittedTranscript h;
     lastEmittedTime := lastEmittedTime h;
     firstSpeakerId := firstSpeakerId h;
     questionBuffer := questionBuffer h;
     questionCompletionTimer := questionCompletionTimer h;
     lastSpeakerActivity := lastSpeakerActivity h;
     currentActiveSpeaker := currentActiveSpeaker h;
     silenceStartTime := silenceStartTime h; emitted := emitted h;
     sent := sent h; timers := v; nextTimerId := nextTimerId h |}.

Definition set_nextTimerId (v : nat) (h : Helper) : Helper :=
  {| deepgramClient := deepgramClient h; isListening := isListening h;
     liveTcp := liveTcp h; mainWindow := mainWindow h;
     lastProcessedText := lastProcessedText h;
     lastProcessedTime := lastProcessedTime h;
     processingDiarizedTranscript := processingDiarizedTranscript h;
     processedTranscriptIds := processedTranscriptIds h;
     lastEmittedTranscript := lastEmittedTranscript h;
     lastEmittedTime := lastEmittedTime h;
     firstSpeakerId := firstSpeakerId h;
     questionBuffer := questionBuffer h;
     questionCompletionTimer := questionCompletionTimer h;
     lastSpeakerActivity := lastSpeakerActivity h;
     currentActiveSpeaker := currentActiveSpeaker h;
     silenceStartTime := silenceStartTime h; emitted := emitted h;
     sent := sent h; timers := timers h; nextTimerId := v |}.

Definition initialHelper (client window : bool) : Helper :=
  {| deepgramClient := client; isListening := false; liveTcp := false;
     mainWindow := window; lastProcessedText := EmptyString; lastProcessedTime := 0;
     processingDiarizedTranscript := false; processedTranscriptIds := ∅;
     lastEmittedTranscript := EmptyString; lastEmittedTime := 0;
     firstSpeakerId := None; questionBuffer := None;
     questionCompletionTimer := None; lastSpeakerActivity := ∅;
     currentActiveSpeaker := None; silenceStartTime := None;
     emitted := []; sent := []; timers := []; nextTimerId := 0%nat |}.

(** [a === b] on [number | null]. *)
Definition sameSpeaker (a b : option Z) : bool :=
  match a, b with
  | Some x, Some y => (x =? y)%Z
  | None, None => true
  | _, _ => false
  end.

Definition isNull {A} (o : option A) : bool :=
  match o with Some _ => false | None => true end.

(** [setTimeout(cb, delay)]: a fresh handle, the callback due at
    [now + delay]. *)
Definition setTimeout (cb : Callback) (delay now : Z) (h : Helper) : nat * Helper :=
  let id := nextTimerId h in
  (id, set_nextTimerId (S id) (set_timers (timers h ++ [(id, (now + delay, cb))])%list h)).

(** [clearTimeout(handle)] *)
Definition clearTimeout (id : nat) (h : Helper) : Helper :=
  set_timers (filter (fun t => negb (Nat.eqb (fst t) id)) (timers h)) h.

(** [webContents.send] when there is a window. *)
Definition send (channel payload : string) (h : Helper) : Helper :=
  if mainWindow h then set_sent (sent h ++ [(channel, payload)])%list h else h.

(** *** resetVADState *)

Definition resetVADState (h : Helper) : Helper :=
  let h := set_firstSpeakerId None h in
  let h := set_questionBuffer None h in
  let h := set_currentActiveSpeaker None h in
  let h := set_silenceStartTime None h in
  let h := set_lastSpeakerActivity ∅ h in
  match questionCompletionTimer h with
  | Some id => set_questionCompletionTimer None (clearTimeout id h)
  | None => h
  end.

(** *** emitCompleteQuestion *)

Definition emitCompleteQuestion (questionText : string) (now : Z) (h : Helper) : Helper :=
  if (String.length (trim questionText) =? 0)%nat then h
  else
    let trimmedQuestion := trim questionText in
    if negb (isLikelyQuestion trimmedQuestion) then h
    else if String.eqb trimmedQuestion (lastEmittedTranscript h)
            && (now - lastEmittedTime h <? EMIT_DEBOUNCE_TIME)%Z
    then h
    else
      let h := set_lastEmittedTranscript trimmedQuestion h in
      let h := set_lastEmittedTime now h in
      set_emitted (emitted h ++ [trimmedQuestion])%list h.

(** *** processQuestionBuffer *)

Definition shouldEmit (b : QuestionBuffer) (now : Z) (h : Helper) : bool :=
  let timeSinceLastUpdate := now - lastUpdateTime b in
  let totalBufferTime := now - (lastUpdateTime b - timeSinceLastUpdate) in
  (QUESTION_COMPLETION_PAUSE <=? timeSinceLastUpdate)%Z && isLikelyQuestion (text b)
  || isQuestionComplete (text b)
  || (MAX_QUESTION_BUFFER_TIME <=? totalBufferTime)%Z
  || negb (isNull (currentActiveSpeaker h))
     && negb (sameSpeaker (currentActiveSpeaker h) (speaker b)).

Definition processQuestionBuffer (now : Z) (h : Helper) : Helper :=
  match questionBuffer h with
  | None => h
  | Some b =>
      if shouldEmit b now h then
        let h := emitCompleteQuestion (text b) now h in
        let h := set_questionBuffer None h in
        match questionCompletionTimer h with
        | Some id => set_questionCompletionTimer None (clearTimeout id h)
        | None => h
        end
      else h
  end.

(** *** handleSpeakerActivity *)

Definition isInterviewerBuffer (h : Helper) : bool :=
  match questionBuffer h with
  | Some b => sameSpeaker (speaker b) (Some 0)
  | None => false
  end.

Definition handleSpeakerActivity (spk : option Z) (now : Z) (h : Helper) : Helper :=
  match spk with
  | None => h
  | Some sp =>
      let lastActivity := default 0 (lastSpeakerActivity h !! sp) in
      let h1 := set_lastSpeakerActivity (<[sp := now]> (lastSpeakerActivity h)) h in
      let h2 :=
        if negb (isNull (currentActiveSpeaker h1))
           && negb (sameSpeaker (currentActiveSpeaker h1) (Some sp))
           && (SPEAKER_SWITCH_THRESHOLD <? now - lastActivity)%Z
        then
          if isInterviewerBuffer h1 && (sp =? 1)%Z
          then processQuestionBuffer now h1
          else h1
        else h1 in
      set_currentActiveSpeaker (Some sp) h2
  end.

(** *** updateQuestionBuffer *)

Definition newBuffer (txt : string) (spk : option Z) (now : Z) : QuestionBuffer :=
  {| text := txt; speaker := spk; lastUpdateTime := now;
     wordCount := splitWsCount false txt;
     hasQuestionMarkers := includes txt "?" |}.

Definition armCompletionTimer (now : Z) (h : Helper) : Helper :=
  let (id, h) := setTimeout CbProcessQuestionBuffer QUESTION_COMPLETION_PAUSE now h in
  set_questionCompletionTimer (Some id) h.

Definition updateQuestionBuffer (txt : string) (spk : option Z) (isFinal : bool)
    (now : Z) (h : Helper) : Helper :=
  let h1 :=
    match questionBuffer h with
    | None =>
        if isLikelyQuestion txt
        then armCompletionTimer now (set_questionBuffer (Some (newBuffer txt spk now)) h)
        else h
    | Some b =>
        if isNull spk || sameSpeaker spk (speaker b) then
          let h := set_questionBuffer (Some (newBuffer txt (speaker b) now)) h in
          let h := match questionCompletionTimer h with
                   | Some id => clearTimeout id h
                   | None => h
                   end in
          armCompletionTimer now h
        else h
    end in
  if isFinal && negb (isNull (questionBuffer h1))
  then snd (setTimeout CbProcessQuestionBuffer 300 now h1)
  else h1.

(** *** handleDiarizedTranscript *)

(** A word of a Deepgram alternative; [wspeaker] is [None] when the
    field is absent. *)
Record Word := mkWord { word : string; wspeaker : option Z }.

Record Segment := mkSegment { segSpeaker : option Z; segText : string }.

(** The first loop: the speaker of the first word that has one. *)
Fixpoint firstDefinedSpeaker (words : list Word) : option Z :=
  match words with
  | [] => None
  | w :: r => match wspeaker w with
              | Some id => Some id
              | None => firstDefinedSpeaker r
              end
  end.

Definition identifyFirstSpeaker (words : list Word) (h : Helper) : Helper :=
  match firstSpeakerId h with
  | None => match firstDefinedSpeaker words with
            | Some id => set_firstSpeakerId (Some id) h
            | None => h
            end
  | Some _ => h
  end.

(** The role of a word: [0] for the first speaker of the session, [1]
    for any other speaker, the original (null) value otherwise. *)
Definition mapSpeaker (first originalSpeaker : option Z) : option Z :=
  match first, originalSpeaker with
  | Some f, Some o => if (o =? f)%Z then Some 0%Z else Some 1%Z
  | _, _ => originalSpeaker
  end.

(** The variables of the second loop. *)
Record Loop := mkLoop {
  speakerSegments : list Segment;
  currentSpeaker : option Z;
  currentText : string;
  helper : Helper
}.

Definition wordStep (now : Z) (l : Loop) (w : Word) : Loop :=
  let h := helper l in
  let mappedSpeaker := mapSpeaker (firstSpeakerId h) (wspeaker w) in
  let flush := negb (sameSpeaker mappedSpeaker (currentSpeaker l))
               && negb (String.eqb (trim (currentText l)) EmptyString) in
  let segs := if flush
              then (speakerSegments l ++ [mkSegment (currentSpeaker l) (trim (currentText l))])%list
              else speakerSegments l in
  let txt := if flush then EmptyString else currentText l in
  {| speakerSegments := segs;
     currentSpeaker := mappedSpeaker;
     currentText := txt ++ " " ++ word w;
     helper := if isNull mappedSpeaker then h
               else handleSpeakerActivity mappedSpeaker now h |}.

Definition segmentWords (words : list Word) (now : Z) (h : Helper) : list Segment * Helper :=
  let l := fold_left (wordStep now) words (mkLoop [] None EmptyString h) in
  (if negb (String.eqb (trim (currentText l)) EmptyString)
   then (speakerSegments l ++ [mkSegment (currentSpeaker l) (trim (currentText l))])%list
   else speakerSegments l,
   helper l).

Definition lf : string := String (ascii_of_N 10) EmptyString.

Definition formatSegments (segs : list Segment) : string :=
  fold_left (fun acc seg =>
               acc ++ (if sameSpeaker (segSpeaker seg) (Some 0%Z)
                       then "Interviewer" else "You")
                   ++ ": " ++ segText seg ++ lf)
            segs EmptyString.

Definition handleDiarizedTranscript (words : list Word) (isFinal : bool)
    (now : Z) (h : Helper) : Helper :=
  let h := identifyFirstSpeaker words h in
  let (segs, h) := segmentWords words now h in
  let h := send "speech-transcription" (trim (formatSegments segs)) h in
  let interviewerSegments :=
    filter (fun seg => sameSpeaker (segSpeaker seg) (Some 0%Z)) segs in
  let h := if (0 <? length interviewerSegments)%nat
           then updateQuestionBuffer (join " " (map segText interviewerSegments))
                                     (Some 0%Z) isFinal now h
           else h in
  snd (setTimeout CbClearProcessingDiarized 500 now h).

Definition handleNonDiarizedTranscript (transcript : string) (isFinal : bool)
    (now : Z) (h : Helper) : Helper :=
  let h := send "speech-transcription" transcript h in
  if negb (processingDiarizedTranscript h)
  then updateQuestionBuffer transcript None isFinal now h
  else h.

(** The listener of [LiveTranscriptionEvents.Transcript] on the first
    alternative of the channel. *)
Definition onTranscript (transcript : string) (words : list Word) (isFinal : bool)
    (now : Z) (h : Helper) : Helper :=
  let hasDiarization :=
    (0 <? length words)%nat && existsb (fun w => negb (isNull (wspeaker w))) words in
  if negb (String.eqb (trim transcript) EmptyString) then
    if hasDiarization && (0 <? length words)%nat
    then handleDiarizedTranscript words isFinal now
           (set_processingDiarizedTranscript true h)
    else handleNonDiarizedTranscript transcript isFinal now h
  else h.

(** *** Timers *)

Definition runCallback (cb : Callback) (now : Z) (h : Helper) : Helper :=
  match cb with
  | CbProcessQuestionBuffer => processQuestionBuffer now h
  | CbClearProcessingDiarized => set_processingDiarizedTranscript false h
  end.

Definition findTimer (id : nat) (h : Helper) : option (Z * Callback) :=
  snd <$> find (fun t => Nat.eqb (fst t) id) (timers h).

(** The pending timer [id] expires: it leaves the timer table and its
    callback runs. A handle that is not pending does nothing. *)
Definition fireTimer (id : nat) (now : Z) (h : Helper) : Helper :=
  match findTimer id h with
  | Some (_, cb) => runCallback cb now (clearTimeout id h)
  | None => h
  end.

(** *** processTranscript (the [process-transcript] IPC handler) *)

Definition processTranscript (transcript : string) (now : Z) (h : Helper) : bool * Helper :=
  if String.eqb (trim transcript) EmptyString then (false, h)
  else if String.eqb transcript (lastProcessedText h)
          && (now - lastProcessedTime h <? DEBOUNCE_TIME)%Z
  then (true, h)
  else if negb (isLikelyQuestion transcript) then (true, h)
  else
    let h := set_lastProcessedText transcript h in
    let h := set_lastProcessedTime now h in
    (true, set_emitted (emitted h ++ [transcript])%list h).

(** *** startListening, stopListening *)

(** [deepgramClient.listen.live(..)] may throw; [liveOk] tells whether
    it returns. [isListening] is set by the [Open] event. *)
Definition startListening (liveOk : bool) (h : Helper) : bool * Helper :=
  if isListening h || negb (deepgramClient h) then (false, h)
  else if liveOk then (true, set_liveTcp true h)
  else (false, set_isListening false h).

(** The [start-speech-recognition] IPC handler. *)
Definition startSpeechRecognition (liveOk : bool) (h : Helper) : bool * Helper :=
  startListening liveOk (resetVADState h).

(** [liveTcp.finish()] may throw; [finishOk] tells whether it returns. *)
Definition stopListening (finishOk : bool) (h : Helper) : bool * Helper :=
  if negb (isListening h) || negb (liveTcp h) then (false, h)
  else if finishOk then
    let h := set_isListening false h in
    let h := set_processedTranscriptIds ∅ h in
    (true, resetVADState h)
  else (false, h).

(** *** A listening session

    What can happen between the start of a session and its stop: a
    transcript event, the expiry of a timer, a manual transcript, an
    error or a close of the connection. Every event carries the time
    at which its handler runs. *)
Inductive Event :=
| EvOpen
| EvTranscript (transcript : string) (words : list Word) (isFinal : bool)
| EvTimer (id : nat)
| EvManual (transcript : string)
| EvError (message : option string)
| EvClose.

(** [error.message || 'Unknown error'], the message being absent or a
    string. *)
Definition errorMessage (message : option string) : string :=
  match message with
  | Some m => if String.eqb m EmptyString then "Unknown error" else m
  | None => "Unknown error"
  end.

Definition handle (now : Z) (e : Event) (h : Helper) : Helper :=
  match e with
  | EvOpen => send "speech-recognition-started" EmptyString (set_isListening true h)
  | EvTranscript t ws f => onTranscript t ws f now h
  | EvTimer id => fireTimer id now h
  | EvManual t => snd (processTranscript t now h)
  | EvError m => send "speech-recognition-error" (errorMessage m) (set_isListening false h)
  | EvClose => send "speech-recognition-stopped" EmptyString (set_isListening false h)
  end.

Definition runSession (evs : list (Z * Event)) (h : Helper) : Helper :=
  fold_left (fun h e => handle (fst e) (snd e) h) evs h.

End Speech.

(** ** main.ts: the dispatch coordinator *)

Module Dispatch.
Import Js.

Definition DEBOUNCE_TIME : Z := 5000.

(** The module-level variables, [state.processingHelper] and
    [state.mainWindow] (present or not), and the effects:
    [inFlight] holds the calls of [processTranscriptionWithAI] that are
    awaited and not settled yet, oldest first; [started] logs every such
    call ever made; [resubmissions] holds the transcripts of the pending
    [setTimeout(.., 100)] callbacks of [processNextInQueue], oldest
    first; [sent] logs [webContents.send]. *)
Record Coordinator := mkCoordinator {
  lastProcessedText : string;
  lastProcessedTime : Z;
  isCurrentlyProcessing : bool;
  processingQueue : list string;
  processingHelper : bool;
  mainWindow : bool;
  inFlight : list string;
  started : list string;
  resubmissions : list string;
  sent : list (string * string)
}.

Definition initialCoordinator (helper window : bool) : Coordinator :=
  {| lastProcessedText := EmptyString; lastProcessedTime := 0;
     isCurrentlyProcessing := false; processingQueue := [];
     processingHelper := helper; mainWindow := window;
     inFlight := []; started := []; resubmissions := []; sent := [] |}.

Definition set_isCurrentlyProcessing (v : bool) (c : Coordinator) : Coordinator :=
  {| lastProcessedText := lastProcessedText c;
     lastProcessedTime := lastProcessedTime c;
     isCurrentlyProcessing := v; processingQueue := processingQueue c;
     processingHelper := processingHelper c; mainWindow := mainWindow c;
     inFlight := inFlight c; started := started c;
     resubmissions := resubmissions c; sent := sent c |}.

Definition set_lastProcessed (t : string) (now : Z) (c : Coordinator) : Coordinator :=
  {| lastProcessedText := t; lastProcessedTime := now;
     isCurrentlyProcessing := isCurrentlyProcessing c;
     processingQueue := processingQueue c;
     processingHelper := processingHelper c; mainWindow := mainWindow c;
     inFlight := inFlight c; started := started c;
     resubmissions := resubmissions c; sent := sent c |}.

Definition set_processingQueue (v : list string) (c : Coordinator) : Coordinator :=
  {| lastProcessedText := lastProcessedText c;
     lastProcessedTime := lastProcessedTime c;
     isCurrentlyProcessing := isCurrentlyProcessing c; processingQueue := v;
     processingHelper := processingHelper c; mainWindow := mainWindow c;
     inFlight := inFlight c; started := started c;
     resubmissions := resubmissions c; sent := sent c |}.

Definition set_inFlight (v : list string) (c : Coordinator) : Coordinator :=
  {| lastProcessedText := lastProcessedText c;
     lastProcessedTime := lastProcessedTime c;
     isCurrentlyProcessing := isCurrentlyProcessing c;
     processingQueue := processingQueue c;
     processingHelper := processingHelper c; mainWindow := mainWindow c;
     inFlight := v; started := started c;
     resubmissions := resubmissions c; sent := sent c |}.

Definition set_started (v : list string) (c : Coordinator) : Coordinator :=
  {| lastProcessedText := lastProcessedText c;
     lastProcessedTime := lastProcessedTime c;
     isCurrentlyProcessing := isCurrentlyProcessing c;
     processingQueue := processingQueue c;
     processingHelper := processingHelper c; mainWindow := mainWindow c;
     inFlight := inFlight c; started := v;
     resubmissions := resubmissions c; sent := sent c |}.

Definition set_resubmissions (v : list string) (c : Coordinator) : Coordinator :=
  {| lastProcessedText := lastProcessedText c;
     lastProcessedTime := lastProcessedTime c;
     isCurrentlyProcessing := isCurrentlyProcessing c;
     processingQueue := processingQueue c;
     processingHelper := processingHelper c; mainWindow := mainWindow c;
     inFlight := inFlight c; started := started c;
     resubmissions := v; sent := sent c |}.

Definition set_sent (v : list (string * string)) (c : Coordinator) : Coordinator :=
  {| lastProcessedText := lastProcessedText c;
     lastProcessedTime := lastProcessedTime c;
     isCurrentlyProcessing := isCurrentlyProcessing c;
     processingQueue := processingQueue c;
     processingHelper := processingHelper c; mainWindow := mainWindow c;
     inFlight := inFlight c; started := started c;
     resubmissions := resubmissions c; sent := v |}.

Definition send (channel payload : string) (c : Coordinator) : Coordinator :=
  if mainWindow c then set_sent (sent c ++ [(channel, payload)])%list c else c.

(** *** isValidInterviewQuestion *)

Definition candidateIndicators : list string :=
  [ "i think"; "i believe"; "i would"; "i will"; "i have"; "i am";
    "my approach"; "my solution"; "my experience"; "my understanding";
    "let me"; "so basically"; "essentially"; "fundamentally";
    "the answer is"; "the solution"; "this problem"; "this question" ].

Definition interviewerPatterns : list string :=
  [ "what"; "how"; "why"; "when"; "where"; "which"; "who"; "whose"; "whom";
    "can you"; "could you"; "will you"; "would you"; "please";
    "tell me"; "explain"; "describe"; "elaborate"; "discuss"; "show me";
    "walk through"; "think about"; "consider"; "solve"; "implement";
    "write a function"; "design a system"; "optimize this"; "improve";
    "time complexity"; "space complexity"; "algorithm"; "approach" ].

Definition hasCandidateIndicators (trimmedText : string) : bool :=
  existsb (includes trimmedText) candidateIndicators.

Definition isValidInterviewQuestion (text : string) : bool :=
  if (String.length (trim text) <? 10)%nat then false
  else
    let trimmedText := toLowerCase (trim text) in
    if hasCandidateIndicators trimmedText then false
    else existsb (includes trimmedText) interviewerPatterns
         || endsWith trimmedText "?".

(** *** processNextInQueue *)

Definition processNextInQueue (c : Coordinator) : Coordinator :=
  match processingQueue c with
  | nextTranscript :: rest =>
      if negb (isCurrentlyProcessing c) then
        let c := set_processingQueue rest c in
        if negb (String.eqb nextTranscript EmptyString)
        then set_resubmissions (resubmissions c ++ [nextTranscript])%list c
        else c
      else c
  | [] => c
  end.

(** *** handleSpeechTranscription, up to its [await] *)

Definition dispatch (trimmedTranscript : string) (now : Z) (c : Coordinator) : Coordinator :=
  if negb (isValidInterviewQuestion trimmedTranscript) then c
  else
    let c := set_isCurrentlyProcessing true c in
    let c := set_lastProcessed trimmedTranscript now c in
    if negb (processingHelper c)
    then processNextInQueue (set_isCurrentlyProcessing false c)
    else set_started (started c ++ [trimmedTranscript])%list
           (set_inFlight (inFlight c ++ [trimmedTranscript])%list c).

Definition handleSpeechTranscription (transcript : string) (now : Z)
    (c : Coordinator) : Coordinator :=
  if (String.length (trim transcript) <? 5)%nat then c
  else
    let trimmedTranscript := trim transcript in
    let timeSinceLastProcessed := (now - lastProcessedTime c)%Z in
    let isDuplicate := String.eqb trimmedTranscript (lastProcessedText c)
                       && (timeSinceLastProcessed <? DEBOUNCE_TIME)%Z in
    if isDuplicate then c
    else if isCurrentlyProcessing c then
      if (30000 <? timeSinceLastProcessed)%Z
      then dispatch trimmedTranscript now (set_isCurrentlyProcessing false c)
      else set_processingQueue (processingQueue c ++ [trimmedTranscript])%list c
    else dispatch trimmedTranscript now c.

(** *** handleSpeechTranscription, after its [await]

    The awaited call number [i] of [inFlight] settles: it resolves
    with a response ([inl]) or rejects with an error message ([inr]).
    A number that names no awaited call does nothing. *)

Fixpoint removeAt {A} (i : nat) (l : list A) : list A :=
  match l, i with
  | [], _ => []
  | _ :: r, O => r
  | x :: r, S j => x :: removeAt j r
  end.

Definition settle (i : nat) (result : string + string) (c : Coordinator) : Coordinator :=
  match nth_error (inFlight c) i with
  | None => c
  | Some _ =>
      let c := set_inFlight (removeAt i (inFlight c)) c in
      match result with
      | inl response =>
          let c := send "ai-response" response c in
          processNextInQueue (set_isCurrentlyProcessing false c)
      | inr errorMessage =>
          let c := set_isCurrentlyProcessing false c in
          let c := send "ai-response-error" errorMessage c in
          processNextInQueue c
      end
  end.

(** The oldest pending callback of [processNextInQueue] runs. *)
Definition resubmit (now : Z) (c : Coordinator) : Coordinator :=
  match resubmissions c with
  | nextTranscript :: rest =>
      handleSpeechTranscription nextTranscript now (set_resubmissions rest c)
  | [] => c
  end.

(** *** The reactor *)

Inductive Event :=
| EvTranscription (transcript : string)
| EvSettled (i : nat) (result : string + string)
| EvResubmit.

Definition handle (now : Z) (e : Event) (c : Coordinator) : Coordinator :=
  match e with
  | EvTranscription t => handleSpeechTranscription t now c
  | EvSettled i r => settle i r c
  | EvResubmit => resubmit now c
  end.

Definition run (evs : list (Z * Event)) (c : Coordinator) : Coordinator :=
  fold_left (fun c e => handle (fst e) (snd e) c) evs c.

(** A transcript releases a stuck lock: it passes the length and
    duplicate checks while the lock has been held for more than 30 s. *)
Definition releasesLock (transcript : string) (now : Z) (c : Coordinator) : bool :=
  negb (String.length (trim transcript) <? 5)%nat
  && negb (String.eqb (trim transcript) (lastProcessedText c)
           && (now - lastProcessedTime c <? DEBOUNCE_TIME)%Z)
  && isCurrentlyProcessing c
  && (30000 <? now - lastProcessedTime c)%Z.

Definition eventReleasesLock (now : Z) (e : Event) (c : Coordinator) : bool :=
  match e with
  | EvTranscription t => releasesLock t now c
  | EvSettled _ _ => false
  | EvResubmit => match resubmissions c with
                  | t :: rest => releasesLock t now (set_resubmissions rest c)
                  | [] => false
                  end
  end.

(** No event of the run releases a stuck lock. *)
Fixpoint noRelease (evs : list (Z * Event)) (c : Coordinator) : bool :=
  match evs with
  | [] => true
  | e :: r => negb (eventReleasesLock (fst e) (snd e) c)
              && noRelease r (handle (fst e) (snd e) c)
  end.

End Dispatch.

(** ** ProcessingHelper: the conversation history *)

Module History.

Record Turn := mkTurn { role : string; content : string }.

Definition maxHistoryLength : Z := 10.

(** [Array.prototype.slice(start, end)]: a negative index counts from
    the end, both indices are clamped to the array. *)
Definition relativeIndex {A} (l : list A) (i : Z) : nat :=
  let len := Z.of_nat (length l) in
  Z.to_nat (if (i <? 0)%Z then Z.max (len + i) 0 else Z.min i len).

Definition slice {A} (l : list A) (start : Z) (end_ : option Z) : list A :=
  let k := relativeIndex l start in
  let final := match end_ with
               | Some e => relativeIndex l e
               | None => length l
               end in
  take (final - k) (drop k l).

(** The update of the history on a backend response, the same in
    [processTranscriptionWithOpenAI] and [processTranscriptionWithGemini]. *)
Definition pushExchange (history : list Turn) (transcript assistantResponse : string)
    : list Turn :=
  let history := (history ++ [mkTurn "user" transcript;
                              mkTurn "assistant" assistantResponse])%list in
  if (maxHistoryLength * 2 <? Z.of_nat (length history))%Z
  then (slice history 0 (Some 2%Z)
        ++ slice history (- maxHistoryLength * 2 + 2)%Z None)%list
  else history.

(** *** JSON

    [JSON.stringify(history, null, 2)] and [JSON.parse] of ECMAScript.
    The values are those a history blob is made of: arrays, objects,
    strings and the three literals.  Number literals do not occur in
    such a blob; the parser rejects them.  A [\uXXXX] escape above
    U+00FF is outside the Latin-1 strings of this embedding and is
    rejected too.  The members of an object are listed in the order in
    which their keys were first read, a repeated key keeping its last
    value; the code reads members by key and never enumerates them. *)

Inductive Json :=
| JNull
| JBool (b : bool)
| JString (s : string)
| JArray (elements : list Json)
| JObject (members : list (string * Json)).

(** The JavaScript value of a typed history. *)
Definition turnValue (t : Turn) : Json :=
  JObject [("role", JString (role t)); ("content", JString (content t))].

Definition historyValue (h : list Turn) : Json := JArray (map turnValue h).

(** Reading a value back as a typed history. *)
Definition asTurn (v : Json) : option Turn :=
  match v with
  | JObject [(k1, JString r); (k2, JString c)] =>
      if String.eqb k1 "role" && String.eqb k2 "content"
      then Some (mkTurn r c) else None
  | _ => None
  end.

Fixpoint asTurns (l : list Json) : option (list Turn) :=
  match l with
  | [] => Some []
  | v :: r => match asTurn v, asTurns r with
              | Some t, Some ts => Some (t :: ts)
              | _, _ => None
              end
  end.

Definition asHistory (v : Json) : option (list Turn) :=
  match v with
  | JArray l => asTurns l
  | _ => None
  end.

(** **** Serialisation *)

Definition chr (n : N) : string := String (ascii_of_N n) EmptyString.
Definition lf : string := chr 10.
Definition dquote : string := chr 34.
Definition backslash : string := chr 92.

Definition hexDigit (n : N) : ascii :=
  ascii_of_N (if (n <? 10)%N then 48 + n else 87 + n).

(** QuoteJSONString, one code unit. *)
Definition escapeChar (c : ascii) : string :=
  let n := N_of_ascii c in
  if (n =? 34)%N then backslash ++ dquote
  else if (n =? 92)%N then backslash ++ backslash
  else if (n =? 8)%N then backslash ++ "b"
  else if (n =? 9)%N then backslash ++ "t"
  else if (n =? 10)%N then backslash ++ "n"
  else if (n =? 12)%N then backslash ++ "f"
  else if (n =? 13)%N then backslash ++ "r"
  else if (n <? 32)%N
       then backslash ++ "u00"
            ++ String (hexDigit (n / 16)) (String (hexDigit (n mod 16)) EmptyString)
  else String c EmptyString.

Fixpoint escape (s : string) : string :=
  match s with
  | EmptyString => EmptyString
  | String c r => escapeChar c ++ escape r
  end.

Definition quote (s : string) : string := dquote ++ escape s ++ dquote.

(** An object of the history at indentation ["  "], gap ["  "]. *)
Definition stringifyTurn (t : Turn) : string :=
  "{" ++ lf
  ++ "    " ++ quote "role" ++ ": " ++ quote (role t) ++ "," ++ lf
  ++ "    " ++ quote "content" ++ ": " ++ quote (content t) ++ lf
  ++ "  }".

Definition stringifyHistory (h : list Turn) : string :=
  match h with
  | [] => "[]"
  | _ => "[" ++ lf
         ++ Js.join ("," ++ lf) (map (fun t => "  " ++ stringifyTurn t) h)
         ++ lf ++ "]"
  end.

(** **** Lexical analysis *)

Inductive Token :=
| TLBracket | TRBracket | TLBrace | TRBrace | TColon | TComma
| TString (s : string) | TTrue | TFalse | TNull.

Definition hexValue (c : ascii) : option N :=
  let n := N_of_ascii c in
  if ((48 <=? n) && (n <=? 57))%N then Some (n - 48)%N
  else if ((65 <=? n) && (n <=? 70))%N then Some (n - 55)%N
  else if ((97 <=? n) && (n <=? 102))%N then Some (n - 87)%N
  else None.

Definition unicodeEscape (h1 h2 h3 h4 : ascii) : option ascii :=
  match hexValue h1, hexValue h2, hexValue h3, hexValue h4 with
  | Some a, Some b, Some c, Some d =>
      let n := (((a * 16 + b) * 16 + c) * 16 + d)%N in
      if (n <? 256)%N then Some (ascii_of_N n) else None
  | _, _, _, _ => None
  end.

Definition simpleEscape (e : ascii) : option ascii :=
  let n := N_of_ascii e in
  if (n =? 34)%N || (n =? 92)%N || (n =? 47)%N then Some e
  else if (n =? 98)%N then Some (ascii_of_N 8)
  else if (n =? 102)%N then Some (ascii_of_N 12)
  else if (n =? 110)%N then Some (ascii_of_N 10)
  else if (n =? 114)%N then Some (ascii_of_N 13)
  else if (n =? 116)%N then Some (ascii_of_N 9)
  else None.

(** A character joins the string token that is being read. *)
Definition pushChar (c : ascii) (r : option (list Token)) : option (list Token) :=
  match r with
  | Some (TString s :: toks) => Some (TString (String c s) :: toks)
  | _ => None
  end.

Definition isJsonWhiteSpace (c : ascii) : bool :=
  let n := N_of_ascii c in
  ((n =? 9) || (n =? 10) || (n =? 13) || (n =? 32))%N.

(** [inString] tells whether the input starts inside a string
    literal whose opening quote has been read. *)
Fixpoint lex (inString : bool) (s : string) : option (list Token) :=
  match s with
  | EmptyString => if inString then None else Some []
  | String c r =>
      let n := N_of_ascii c in
      if inString then
        if (n =? 34)%N then cons (TString EmptyString) <$> lex false r
        else if (n =? 92)%N then
          match r with
          | String e r1 =>
              if (N_of_ascii e =? 117)%N then
                match r1 with
                | String h1 (String h2 (String h3 (String h4 r2))) =>
                    match unicodeEscape h1 h2 h3 h4 with
                    | Some u => pushChar u (lex true r2)
                    | None => None
                    end
                | _ => None
                end
              else
                match simpleEscape e with
                | Some u => pushChar u (lex true r1)
                | None => None
                end
          | EmptyString => None
          end
        else if (n <? 32)%N then None
        else pushChar c (lex true r)
      else
        if isJsonWhiteSpace c then lex false r
        else if (n =? 34)%N then lex true r
        else if (n =? 91)%N then cons TLBracket <$> lex false r
        else if (n =? 93)%N then cons TRBracket <$> lex false r
        else if (n =? 123)%N then cons TLBrace <$> lex false r
        else if (n =? 125)%N then cons TRBrace <$> lex false r
        else if (n =? 58)%N then cons TColon <$> lex false r
        else if (n =? 44)%N then cons TComma <$> lex false r
        else
          match s with
          | String "t" (String "r" (String "u" (String "e" r1))) =>
              cons TTrue <$> lex false r1
          | String "f" (String "a" (String "l" (String "s" (String "e" r1)))) =>
              cons TFalse <$> lex false r1
          | String "n" (String "u" (String "l" (String "l" r1))) =>
              cons TNull <$> lex false r1
          | _ => None
          end
  end.

(** **** Syntactic analysis

    A push-down automaton over the tokens. A frame is an array or an
    object under construction, its parts in reverse order; an object
    frame may hold the key whose value is being read. *)

Inductive Frame :=
| FArray (elements : list Json)
| FObject (members : list (string * Json)) (key : option string).

Inductive Expect :=
| XValue            (* a value *)
| XValueOrClose     (* after [: a value or ] *)
| XKeyOrClose       (* after {: a key or } *)
| XKey              (* after a comma in an object: a key *)
| XColon            (* after a key *)
| XCommaOrClose     (* after an element or a member *)
| XEnd (v : Json).  (* the whole value has been read *)

(** A member joins an object: a key that the object already has keeps
    its place and takes the new value. *)
Definition setMember (k : string) (v : Json) (ms : list (string * Json))
    : list (string * Json) :=
  if existsb (fun m => String.eqb (fst m) k) ms
  then map (fun m => if String.eqb (fst m) k then (k, v) else m) ms
  else (k, v) :: ms.

(** A value is complete: it is the result, or it joins the frame on
    top of the stack. *)
Definition complete (v : Json) (stack : list Frame) : option (Expect * list Frame) :=
  match stack with
  | [] => Some (XEnd v, [])
  | FArray els :: st => Some (XCommaOrClose, FArray (v :: els) :: st)
  | FObject ms (Some k) :: st => Some (XCommaOrClose, FObject (setMember k v ms) None :: st)
  | FObject _ None :: _ => None
  end.

Definition startValue (t : Token) (stack : list Frame) : option (Expect * list Frame) :=
  match t with
  | TNull => complete JNull stack
  | TTrue => complete (JBool true) stack
  | TFalse => complete (JBool false) stack
  | TString s => complete (JString s) stack
  | TLBracket => Some (XValueOrClose, FArray [] :: stack)
  | TLBrace => Some (XKeyOrClose, FObject [] None :: stack)
  | _ => None
  end.

Definition closeFrame (t : Token) (stack : list Frame) : option (Expect * list Frame) :=
  match t, stack with
  | TRBracket, FArray els :: st => complete (JArray (rev els)) st
  | TRBrace, FObject ms None :: st => complete (JObject (rev ms)) st
  | _, _ => None
  end.

Definition readKey (t : Token) (stack : list Frame) : option (Expect * list Frame) :=
  match t, stack with
  | TString k, FObject ms None :: st => Some (XColon, FObject ms (Some k) :: st)
  | _, _ => None
  end.

Definition parseStep (x : Expect) (stack : list Frame) (t : Token)
    : option (Expect * list Frame) :=
  match x with
  | XValue => startValue t stack
  | XValueOrClose =>
      match t with
      | TRBracket => closeFrame t stack
      | _ => startValue t stack
      end
  | XKeyOrClose =>
      match t with
      | TRBrace => closeFrame t stack
      | _ => readKey t stack
      end
  | XKey => readKey t stack
  | XColon => match t with TColon => Some (XValue, stack) | _ => None end
  | XCommaOrClose =>
      match t, stack with
      | TComma, FArray _ :: _ => Some (XValue, stack)
      | TComma, FObject _ None :: _ => Some (XKey, stack)
      | _, _ => closeFrame t stack
      end
  | XEnd _ => None
  end.

Fixpoint parseTokens (x : Expect) (stack : list Frame) (toks : list Token) : option Json :=
  match toks with
  | [] => match x with XEnd v => Some v | _ => None end
  | t :: r => match parseStep x stack t with
              | Some (x', stack') => parseTokens x' stack' r
              | None => None
              end
  end.

(** [JSON.parse]; [None] stands for the SyntaxError it throws. *)
Definition JSON_parse (s : string) : option Json :=
  match lex false s with
  | Some toks => parseTokens XValue [] toks
  | None => None
  end.

(** *** saveConversationHistory, loadConversationHistory

    The file [conversation_history.json] of the user-data directory:
    its text if it exists, and whether writing and reading it succeed
    (when they do not, [fs] throws and the [catch] clause runs).  The
    [utf8] encoding of the text on write and its decoding on read are
    not modelled. *)
Record FileSystem := mkFileSystem {
  historyFile : option string;
  writable : bool;
  readable : bool
}.

Definition saveConversationHistory (history : list Turn) (fs : FileSystem) : FileSystem :=
  let historyCopy := stringifyHistory history in
  if writable fs
  then {| historyFile := Some historyCopy; writable := writable fs;
          readable := readable fs |}
  else fs.

(** The value of [this.conversationHistory] after the load. The parsed
    value is assigned and its [length] is read for the log: on [null]
    that read throws, and the [catch] clause leaves the empty history,
    as it does when the file cannot be read or parsed. *)
Definition loadConversationHistory (history : list Turn) (fs : FileSystem) : Json :=
  match historyFile fs with
  | Some historyData =>
      if readable fs then
        match JSON_parse historyData with
        | Some JNull => JArray []
        | Some v => v
        | None => JArray []
        end
      else JArray []
  | None => historyValue history
  end.

End History.


(** ** The helper under requests and events *)

Module Lifecycle.
Import Js Speech.

(** What drives the helper: the [start-speech-recognition] and
    [stop-speech-recognition] IPC requests and, at a given time, the
    events of a session. *)
Inductive Command :=
| CmdStart (liveOk : bool)
| CmdStop (finishOk : bool)
| CmdEvent (now : Z) (e : Event).

Definition execute (h : Helper) (c : Command) : Helper :=
  match c with
  | CmdStart liveOk => snd (startSpeechRecognition liveOk h)
  | CmdStop finishOk => snd (stopListening finishOk h)
  | CmdEvent now e => handle now e h
  end.

Definition runCommands (cs : list Command) (h : Helper) : Helper :=
  fold_left execute cs h.

End Lifecycle.


(** ** Sequences of exchanges *)

Module HistoryMore.
Import History.

(** The two turns of an exchange, and the turns of a list of exchanges
    (question, answer). *)
Definition exchangeTurns (e : string * string) : list Turn :=
  [mkTurn "user" (fst e); mkTurn "assistant" (snd e)].

Definition turnsOf (es : list (string * string)) : list Turn :=
  flat_map exchangeTurns es.

(** The history after the exchanges [es], one backend response after
    the other. *)
Definition pushAll (es : list (string * string)) (history : list Turn) : list Turn :=
  fold_left (fun h e => pushExchange h (fst e) (snd e)) es history.

(** The exchanges that the code keeps: all of them up to ten, then the
    first one and the last nine. *)
Definition kept (es : list (string * string)) : list (string * string) :=
  if (length es <=? 10)%nat then es
  else (take 1 es ++ drop (length es - 9) es)%list.

End HistoryMore.


(** ** ProcessingHelper: answering a transcript *)

Module Assistant.
Import Js History.

(** What a call returns or throws; an error has a name and a message. *)
Inductive Result :=
| Returned (answer : string)
| Thrown (name message : string).

Inductive Provider := OpenAI | Gemini.

(** What a backend does with a request: it rejects with an error (an
    abort of the request is the error named [AbortError]), or it
    responds. *)
Inductive Reply (A : Type) :=
| Rejects (name message : string)
| Responds (body : A).
Arguments Rejects {A} name message.
Arguments Responds {A} body.

(** An OpenAI response is the list of the contents of the messages of its
    choices, a content being null or a string. *)
Definition Completion : Type := list (option string).

(** A Gemini response has a list of candidates or none; a candidate has
    a content or not, a content has parts or not, and a part has a text
    or not. *)
Definition GeminiResponse : Type := option (list (option (option (list (option string))))).

Inductive Request :=
| ChatRequest (messages : list (string * string))
| GenerateRequest (prompt : string).

(** A call of [processTranscriptionWithAI] whose request is awaited:
    what its continuation holds, and the number of its
    [AbortController]. *)
Record Call := mkCall {
  provider : Provider;
  transcript : string;
  controller : nat
}.

(** The fields of the helper that the calls read or write, the history
    file, the requests sent to the backends and the calls that are
    awaited. [geminiApiKey] is null or a string;
    [currentProcessingAbortController] is null or one of the controllers
    created so far, which are numbered. *)
Record Processing := mkProcessing {
  openaiClient : bool;
  geminiApiKey : option string;
  currentProcessingAbortController : option nat;
  conversationHistory : list Turn;
  disk : FileSystem;
  requests : list Request;
  awaited : list Call;
  controllers : nat
}.

Definition set_controller (v : option nat) (p : Processing) : Processing :=
  {| openaiClient := openaiClient p; geminiApiKey := geminiApiKey p;
     currentProcessingAbortController := v;
     conversationHistory := conversationHistory p; disk := disk p;
     requests := requests p; awaited := awaited p; controllers := controllers p |}.

Definition set_history (v : list Turn) (p : Processing) : Processing :=
  {| openaiClient := openaiClient p; geminiApiKey := geminiApiKey p;
     currentProcessingAbortController := currentProcessingAbortController p;
     conversationHistory := v; disk := disk p;
     requests := requests p; awaited := awaited p; controllers := controllers p |}.

Definition set_disk (v : FileSystem) (p : Processing) : Processing :=
  {| openaiClient := openaiClient p; geminiApiKey := geminiApiKey p;
     currentProcessingAbortController := currentProcessingAbortController p;
     conversationHistory := conversationHistory p; disk := v;
     requests := requests p; awaited := awaited p; controllers := controllers p |}.

Definition set_requests (v : list Request) (p : Processing) : Processing :=
  {| openaiClient := openaiClient p; geminiApiKey := geminiApiKey p;
     currentProcessingAbortController := currentProcessingAbortController p;
     conversationHistory := conversationHistory p; disk := disk p;
     requests := v; awaited := awaited p; controllers := controllers p |}.

Definition set_awaited (v : list Call) (p : Processing) : Processing :=
  {| openaiClient := openaiClient p; geminiApiKey := geminiApiKey p;
     currentProcessingAbortController := currentProcessingAbortController p;
     conversationHistory := conversationHistory p; disk := disk p;
     requests := requests p; awaited := v; controllers := controllers p |}.

Definition set_controllers (v : nat) (p : Processing) : Processing :=
  {| openaiClient := openaiClient p; geminiApiKey := geminiApiKey p;
     currentProcessingAbortController := currentProcessingAbortController p;
     conversationHistory := conversationHistory p; disk := disk p;
     requests := requests p; awaited := awaited p; controllers := v |}.

Definition noResponse : string := "No response generated".

(** [value || 'No response generated'] on a value that is null or a
    string. *)
Definition orNoResponse (value : option string) : string :=
  match value with
  | Some s => if String.eqb s EmptyString then noResponse else s
  | None => noResponse
  end.

(** The update of the history and of its file on an answer: the
    exchange joins the history as it is when the response arrives. *)
Definition remember (transcript assistantResponse : string) (p : Processing) : Processing :=
  let p := set_history (pushExchange (conversationHistory p) transcript assistantResponse) p in
  set_disk (saveConversationHistory (conversationHistory p) (disk p)) p.

(** The [catch] clause of both providers. *)
Definition rethrow (name message : string) : Result :=
  if String.eqb name "AbortError" then Thrown "Error" "Request was cancelled"
  else Thrown name message.

(** *** processTranscriptionWithOpenAI, up to its [await]

    The result is what the function throws before it sends anything, or
    [None] when the request is sent and awaited.  The messages of the
    request are built from the history as it is then. *)

Definition chatMessages (systemPrompt : string) (history : list Turn) (transcript : string)
    : list (string * string) :=
  ([("system", systemPrompt)]
   ++ map (fun msg => (role msg, content msg)) history
   ++ [("user", transcript)])%list.

Definition processTranscriptionWithOpenAI (systemPrompt transcript : string)
    (p : Processing) : option Result * Processing :=
  if negb (openaiClient p) then (Some (Thrown "Error" "OpenAI client not initialized"), p)
  else
    (None,
     set_requests
       (requests p ++ [ChatRequest (chatMessages systemPrompt
                                      (conversationHistory p) transcript)])%list p).

(** *** processTranscriptionWithOpenAI, after its [await]

    The request settles with [outcome]; the helper is as the events
    that happened in between left it. *)
Definition afterOpenAI (transcript : string) (outcome : Reply Completion)
    (p : Processing) : Result * Processing :=
  match outcome with
  | Rejects name message => (rethrow name message, p)
  | Responds (content :: _) =>
      let assistantResponse := orNoResponse content in
      (Returned assistantResponse, remember transcript assistantResponse p)
  | Responds [] => (Returned noResponse, p)
  end.

(** *** processTranscriptionWithGemini, up to its [await] *)

Definition lf : string := String (ascii_of_N 10) EmptyString.

Definition promptWithHistory (systemInstruction : string) (history : list Turn)
    (transcript : string) : string :=
  let prompt := systemInstruction ++ lf ++ lf in
  let prompt :=
    if (0 <? length history)%nat then
      fold_left (fun acc message =>
                   acc ++ (if String.eqb (role message) "user"
                           then "Interviewer" else "Candidate")
                       ++ ": " ++ content message ++ lf ++ lf)
                history (prompt ++ "Our conversation so far:" ++ lf ++ lf)
    else prompt in
  prompt ++ "Here is the new transcript: " ++ History.dquote ++ transcript
         ++ History.dquote ++ lf ++ lf
         ++ "Before responding, analyze if this transcript contains a clear interviewer question. Only respond if it's a genuine question. If it seems like the candidate reading back an answer or stating information without a question, DO NOT respond to it.".

Definition keyConfigured (key : option string) : bool :=
  match key with
  | Some k => negb (String.eqb k EmptyString)
  | None => false
  end.

Definition processTranscriptionWithGemini (systemInstruction transcript : string)
    (p : Processing) : option Result * Processing :=
  if negb (keyConfigured (geminiApiKey p))
  then (Some (Thrown "Error" "Gemini API key not configured"), p)
  else
    (None,
     set_requests
       (requests p ++ [GenerateRequest (promptWithHistory systemInstruction
                                          (conversationHistory p) transcript)])%list p).

(** *** processTranscriptionWithGemini, after its [await] *)
Definition afterGemini (transcript : string) (outcome : Reply GeminiResponse)
    (p : Processing) : Result * Processing :=
  match outcome with
  | Rejects name message => (rethrow name message, p)
  | Responds (Some (Some (Some (text :: _)) :: _)) =>
      let assistantResponse := orNoResponse text in
      (Returned assistantResponse, remember transcript assistantResponse p)
  | Responds _ => (Returned noResponse, p)
  end.

(** *** processTranscriptionWithAI, up to its [await]

    [apiProvider] is the configured provider.  The result is what the
    call throws without awaiting a backend, its [catch] clause having
    run, or [None] when the call is left awaiting its request. *)
Definition processTranscriptionWithAI (apiProvider : Provider)
    (systemPrompt systemInstruction transcript : string)
    (p : Processing) : option Result * Processing :=
  if String.eqb (trim transcript) EmptyString
  then (Some (Thrown "Error" "Empty transcript provided"), p)
  else
    let abortController := controllers p in
    let p := set_controllers (S abortController) p in
    let p := set_controller (Some abortController) p in
    let (thrown, p) :=
      match apiProvider with
      | OpenAI => processTranscriptionWithOpenAI systemPrompt transcript p
      | Gemini => processTranscriptionWithGemini systemInstruction transcript p
      end in
    match thrown with
    | Some error => (Some error, set_controller None p)
    | None =>
        (None, set_awaited (awaited p ++ [mkCall apiProvider transcript abortController])%list p)
    end.

(** *** processTranscriptionWithAI, after its [await]

    The request of the awaited call number [i] settles: [openai] and
    [gemini] are what each backend does with a request, the one of the
    call's provider being read.  The continuation of the provider's
    function runs on the helper as it is now, then the call returns or
    throws and [currentProcessingAbortController] is set to null.  A
    number that names no awaited call does nothing. *)

Record Backends := mkBackends {
  openai : Reply Completion;
  gemini : Reply GeminiResponse
}.

Definition settle (i : nat) (outcome : Backends) (p : Processing)
    : option Result * Processing :=
  match nth_error (awaited p) i with
  | None => (None, p)
  | Some call =>
      let p := set_awaited (Dispatch.removeAt i (awaited p)) p in
      let (response, p) :=
        match provider call with
        | OpenAI => afterOpenAI (transcript call) (openai outcome) p
        | Gemini => afterGemini (transcript call) (gemini outcome) p
        end in
      (Some response, set_controller None p)
  end.

(** *** clearConversationHistory *)

Definition clearConversationHistory (p : Processing) : Processing :=
  set_history [] p.

(** *** The [window-all-closed] handler of [main.ts]

    Off macOS the history is saved before the application quits; on
    macOS the handler does nothing. *)
Definition windowAllClosed (darwin : bool) (p : Processing) : Processing :=
  if darwin then p
  else set_disk (saveConversationHistory (conversationHistory p) (disk p)) p.

(** *** waitForInitialization

    [probe k] is what the evaluation number [k] of
    [window.__IS_INITIALIZED__] gives: a rejection ([None]), or a value
    that is truthy or not. *)

Inductive Waited :=
| Initialized (attempts : nat)
| ProbeFailed (attempts : nat)
| TimedOut.

Definition maxAttempts : nat := 50.

Fixpoint waitFrom (probe : nat -> option bool) (remaining attempts : nat) : Waited :=
  match remaining with
  | O => TimedOut
  | S r => match probe attempts with
           | None => ProbeFailed attempts
           | Some true => Initialized attempts
           | Some false => waitFrom probe r (S attempts)
           end
  end.

Definition waitForInitialization (probe : nat -> option bool) : Waited :=
  waitFrom probe maxAttempts 0.

End Assistant.


(** ** From the helper to the backend

    [main.ts] subscribes [handleSpeechTranscription] to the helper's
    [transcription] event and calls it from nowhere else but its own
    queue. [emit] runs the listener at once, up to its [await]. *)

Module Pipeline.
Import Js Speech Lifecycle.

Record App := mkApp {
  speech : Helper;
  coordinator : Dispatch.Coordinator
}.

(** The listener runs on each of the transcripts emitted; [clock k] is
    what [Date.now()] gives it on the emission number [k] of the helper. *)
Fixpoint deliver (clock : nat -> Z) (k : nat) (transcripts : list string)
    (c : Dispatch.Coordinator) : Dispatch.Coordinator :=
  match transcripts with
  | [] => c
  | transcript :: rest =>
      deliver clock (S k) rest
        (Dispatch.handleSpeechTranscription transcript (clock k) c)
  end.

(** What happens to the application: the helper receives a request or an
    event, an awaited backend call settles, or a pending
    [processNextInQueue] callback runs. *)
Inductive Input :=
| Heard (command : Command)
| Settled (i : nat) (result : string + string)
| Resubmitted (now : Z).

Definition step (clock : nat -> Z) (a : App) (i : Input) : App :=
  match i with
  | Heard command =>
      let h := execute (speech a) command in
      let before := length (emitted (speech a)) in
      mkApp h (deliver clock before (drop before (emitted h)) (coordinator a))
  | Settled i result => mkApp (speech a) (Dispatch.settle i result (coordinator a))
  | Resubmitted now => mkApp (speech a) (Dispatch.resubmit now (coordinator a))
  end.

Definition initialApp (client helper window : bool) : App :=
  mkApp (initialHelper client window) (Dispatch.initialCoordinator helper window).

Definition runApp (clock : nat -> Z) (inputs : list Input) (a : App) : App :=
  fold_left (step clock) inputs a.

End Pipeline.


(** ** main.ts: hiding and showing the window *)

Module Windows.

Record Rectangle := mkRectangle { x : Z; y : Z; width : Z; height : Z }.

(** What these functions read and write of a [BrowserWindow]. The
    window keeps the bounds it is given. *)
Record BrowserWindow := mkBrowserWindow {
  isDestroyed : bool;
  getBounds : Rectangle;
  opacity : Z;
  ignoreMouseEvents : bool;
  alwaysOnTop : bool;
  visibleOnAllWorkspaces : bool;
  contentProtection : bool;
  shown : bool
}.

Definition setBounds (b : Rectangle) (w : BrowserWindow) : BrowserWindow :=
  mkBrowserWindow (isDestroyed w) b (opacity w) (ignoreMouseEvents w) (alwaysOnTop w)
    (visibleOnAllWorkspaces w) (contentProtection w) (shown w).

Definition setOpacity (o : Z) (w : BrowserWindow) : BrowserWindow :=
  mkBrowserWindow (isDestroyed w) (getBounds w) o (ignoreMouseEvents w) (alwaysOnTop w)
    (visibleOnAllWorkspaces w) (contentProtection w) (shown w).

Definition setIgnoreMouseEvents (v : bool) (w : BrowserWindow) : BrowserWindow :=
  mkBrowserWindow (isDestroyed w) (getBounds w) (opacity w) v (alwaysOnTop w)
    (visibleOnAllWorkspaces w) (contentProtection w) (shown w).

Definition setAlwaysOnTop (v : bool) (w : BrowserWindow) : BrowserWindow :=
  mkBrowserWindow (isDestroyed w) (getBounds w) (opacity w) (ignoreMouseEvents w) v
    (visibleOnAllWorkspaces w) (contentProtection w) (shown w).

Definition setVisibleOnAllWorkspaces (v : bool) (w : BrowserWindow) : BrowserWindow :=
  mkBrowserWindow (isDestroyed w) (getBounds w) (opacity w) (ignoreMouseEvents w)
    (alwaysOnTop w) v (contentProtection w) (shown w).

Definition setContentProtection (v : bool) (w : BrowserWindow) : BrowserWindow :=
  mkBrowserWindow (isDestroyed w) (getBounds w) (opacity w) (ignoreMouseEvents w)
    (alwaysOnTop w) (visibleOnAllWorkspaces w) v (shown w).

Definition showInactive (w : BrowserWindow) : BrowserWindow :=
  mkBrowserWindow (isDestroyed w) (getBounds w) (opacity w) (ignoreMouseEvents w)
    (alwaysOnTop w) (visibleOnAllWorkspaces w) (contentProtection w) true.

(** The window-management part of [state]. *)
Record State := mkState {
  mainWindow : option BrowserWindow;
  isWindowVisible : bool;
  windowPosition : option (Z * Z);
  windowSize : option (Z * Z);
  currentX : Z;
  currentY : Z
}.

Definition handleWindowMove (s : State) : State :=
  match mainWindow s with
  | None => s
  | Some w =>
      let bounds := getBounds w in
      mkState (mainWindow s) (isWindowVisible s) (Some (x bounds, y bounds))
        (windowSize s) (x bounds) (y bounds)
  end.

Definition handleWindowResize (s : State) : State :=
  match mainWindow s with
  | None => s
  | Some w =>
      let bounds := getBounds w in
      mkState (mainWindow s) (isWindowVisible s) (windowPosition s)
        (Some (width bounds, height bounds)) (currentX s) (currentY s)
  end.

Definition handleWindowClosed (s : State) : State :=
  mkState None false None None (currentX s) (currentY s).

(** [!state.mainWindow?.isDestroyed()] is true of a null window as of a
    live one; the first use of the null window then throws a
    [TypeError], before [state] is written: the result is [None]. *)
Definition hideMainWindow (s : State) : option State :=
  match mainWindow s with
  | None => None
  | Some w =>
      if negb (isDestroyed w) then
        let bounds := getBounds w in
        let w := setIgnoreMouseEvents true w in
        let w := setOpacity 0 w in
        Some (mkState (Some w) false (Some (x bounds, y bounds))
                (Some (width bounds, height bounds)) (currentX s) (currentY s))
      else Some s
  end.

Definition showMainWindow (s : State) : option State :=
  match mainWindow s with
  | None => None
  | Some w =>
      if negb (isDestroyed w) then
        let w :=
          match windowPosition s, windowSize s with
          | Some (px, py), Some (sw, sh) => setBounds (mkRectangle px py sw sh) w
          | _, _ => w
          end in
        let w := setIgnoreMouseEvents false w in
        let w := setAlwaysOnTop true w in
        let w := setVisibleOnAllWorkspaces true w in
        let w := setContentProtection true w in
        let w := setOpacity 0 w in
        let w := showInactive w in
        let w := setOpacity 1 w in
        Some (mkState (Some w) true (windowPosition s) (windowSize s)
                (currentX s) (currentY s))
      else Some s
  end.

Definition toggleMainWindow (s : State) : option State :=
  if isWindowVisible s then hideMainWindow s else showMainWindow s.

End Windows.


(** ** SystemAudioHelper: the source of the system audio *)

Module SystemAudio.
Import Js.

(** [sources] is what [desktopCapturer.getSources] gives: a rejection
    with a message, or the ids of the sources in their order. The result
    is the id returned ([inl]) or the message of the error thrown
    ([inr]). *)
Definition captureSystemAudio (sources : string + list string) : string + string :=
  match sources with
  | inl message => inr message
  | inr ids =>
      match find (fun id => startsWith id "screen") ids with
      | Some screenSource => inl screenSource
      | None => inr "No screen source available for system audio capture"
      end
  end.

End SystemAudio.


(** * Properties *)

(** ** Strings *)

Module JsFacts.
Import Js.

Lemma trimEnd_idempotent (s : string) : trimEnd (trimEnd s) = trimEnd s.
Proof.
  induction s as [|c r IH]; simpl; [reflexivity|].
  destruct (trimEnd r) as [|c' r'] eqn:E.
  - destruct (isWhiteSpace c) eqn:W; simpl; [reflexivity|].
    rewrite W. reflexivity.
  - simpl in *. rewrite IH. reflexivity.
Qed.

(** What [trimStart] returns does not start with white space. *)
Lemma trimStart_head (s : string) :
  match trimStart s with
  | String c _ => isWhiteSpace c = false
  | EmptyString => True
  end.
Proof.
  induction s as [|c r IH]; simpl; [exact I|].
  destruct (isWhiteSpace c) eqn:W; [exact IH | exact W].
Qed.

Lemma trimStart_trimEnd (s : string) :
  match s with
  | String c _ => isWhiteSpace c = false
  | EmptyString => True
  end ->
  trimStart (trimEnd s) = trimEnd s.
Proof.
  destruct s as [|c r]; simpl; [reflexivity|].
  intros W. destruct (trimEnd r); [rewrite W|]; simpl; rewrite W; reflexivity.
Qed.

Lemma trim_idempotent (s : string) : trim (trim s) = trim s.
Proof.
  unfold trim.
  rewrite (trimStart_trimEnd (trimStart s) (trimStart_head s)).
  apply trimEnd_idempotent.
Qed.

End JsFacts.

(** ** The classifiers and the emission gate *)

Module SpeechFacts.
Import Js JsFacts Speech.

Lemma isLikelyQuestion_trim (txt : string) :
  isLikelyQuestion (trim txt) = isLikelyQuestion txt.
Proof. unfold isLikelyQuestion. rewrite trim_idempotent. reflexivity. Qed.

Lemma isLikelyQuestion_length (txt : string) :
  isLikelyQuestion txt = true -> (3 <= String.length (trim txt))%nat.
Proof.
  unfold isLikelyQuestion.
  destruct (String.length (trim txt) <? 3)%nat eqn:E; [discriminate|].
  intros _. apply Nat.ltb_ge in E. exact E.
Qed.

(** The state after an emission of [question] at [now]. *)
Definition recordEmission (question : string) (now : Z) (h : Helper) : Helper :=
  set_emitted (emitted h ++ [question])%list
    (set_lastEmittedTime now (set_lastEmittedTranscript question h)).

Lemma app_one_neq {A} (l : list A) (x : A) : (l ++ [x])%list <> l.
Proof.
  intros E. apply (f_equal (@length A)) in E.
  rewrite length_app in E. simpl in E. lia.
Qed.

(** C3. For a text that passes [isLikelyQuestion], [emitCompleteQuestion]
    suppresses the emission exactly when the trimmed text equals the last
    emitted text and less than [EMIT_DEBOUNCE_TIME] = 8000 ms have passed
    since the last emission; in that case the helper is unchanged.
    Otherwise the trimmed text and the current time become the emission
    record and the trimmed text is emitted; a text that differs from the
    last emitted one is emitted whatever the elapsed time. *)
Theorem emitCompleteQuestion_gate (txt : string) (now : Z) (h : Helper) :
  isLikelyQuestion txt = true ->
  let suppressed := trim txt = lastEmittedTranscript h
                    /\ (now - lastEmittedTime h < 8000)%Z in
  let h' := emitCompleteQuestion txt now h in
  EMIT_DEBOUNCE_TIME = 8000%Z
  /\ (emitted h' = emitted h <-> suppressed)
  /\ (suppressed -> h' = h)
  /\ (~ suppressed -> h' = recordEmission (trim txt) now h)
  /\ (trim txt <> lastEmittedTranscript h ->
      emitted h' = (emitted h ++ [trim txt])%list
      /\ lastEmittedTranscript h' = trim txt
      /\ lastEmittedTime h' = now).
Proof.
  intros L suppressed h'.
  assert (Hlen : (String.length (trim txt) =? 0)%nat = false).
  { apply isLikelyQuestion_length in L. apply Nat.eqb_neq. lia. }
  assert (Hcases : (suppressed /\ h' = h)
                   \/ (~ suppressed /\ h' = recordEmission (trim txt) now h)).
  { subst h' suppressed. unfold emitCompleteQuestion.
    rewrite Hlen, isLikelyQuestion_trim, L. simpl.
    destruct (String.eqb_spec (trim txt) (lastEmittedTranscript h)) as [E|E];
      destruct (Z.ltb_spec (now - lastEmittedTime h) EMIT_DEBOUNCE_TIME) as [T|T];
      unfold EMIT_DEBOUNCE_TIME in T; simpl.
    - left. auto.
    - right. split; [lia | reflexivity].
    - right. split; [tauto | reflexivity].
    - right. split; [tauto | reflexivity]. }
  split; [reflexivity|].
  destruct Hcases as [[S E]|[S E]]; rewrite E.
  - split; [split; auto|].
    split; [auto|].
    split; [intros N; contradiction|].
    intros N. destruct S as [S _]. contradiction.
  - split.
    { split; [|intros N; contradiction].
      simpl. intros C. exfalso. exact (app_one_neq _ _ C). }
    split; [intros N; contradiction|].
    split; [reflexivity|].
    intros _. simpl. repeat split.
Qed.

Lemma emitCompleteQuestion_gate_witness :
  let h := recordEmission "What is a heap?" 1000 (initialHelper true true) in
  emitCompleteQuestion "What is a heap?" 5000 h = h
  /\ emitted (emitCompleteQuestion "Why is it fast?" 5000 h)
     = ["What is a heap?"; "Why is it fast?"]
  /\ emitted (emitCompleteQuestion "What is a heap?" 9000 h)
     = ["What is a heap?"; "What is a heap?"].
Proof.
  intros h.
  pose proof (emitCompleteQuestion_gate "What is a heap?" 5000 h eq_refl) as A.
  pose proof (emitCompleteQuestion_gate "Why is it fast?" 5000 h eq_refl) as B.
  pose proof (emitCompleteQuestion_gate "What is a heap?" 9000 h eq_refl) as C.
  cbv zeta in A, B, C.
  destruct A as (_ & _ & A & _), B as (_ & _ & _ & _ & B), C as (_ & _ & _ & C & _).
  split; [|split].
  - apply A. split; [reflexivity | vm_compute; reflexivity].
  - destruct B as (B & _); [vm_compute; discriminate | exact B].
  - rewrite C; [reflexivity | vm_compute; intros [_ F]; discriminate F].
Defined.

(** C4, as stated, fails: a text of fewer than [MIN_QUESTION_LENGTH]
    characters ends in terminal punctuation and is not complete. *)
Lemma isQuestionComplete_short_counterexample :
  endsWithTerminalPunctuation "Why?" = true
  /\ isQuestionComplete "Why?" = false.
Proof. split; reflexivity. Qed.

(** C4, amended. [isQuestionComplete] returns true exactly when the
    trimmed text has at least [MIN_QUESTION_LENGTH] = 10 characters and
    either ends in ['.'], ['!'] or ['?'], or is longer than 50
    characters, passes [isLikelyQuestion] and matches the subject +
    modal/verb pattern; it returns false otherwise. *)
Theorem isQuestionComplete_spec (txt : string) :
  isQuestionComplete txt
  = (10 <=? String.length (trim txt))%nat
    && (endsWithTerminalPunctuation (trim txt)
        || (50 <? String.length (trim txt))%nat
           && isLikelyQuestion txt
           && hasSubjectVerb (trim txt)).
Proof.
  unfold isQuestionComplete, MIN_QUESTION_LENGTH.
  rewrite isLikelyQuestion_trim.
  rewrite Nat.leb_antisym.
  destruct (String.length (trim txt) <? 10)%nat; simpl; [reflexivity|].
  destruct (endsWithTerminalPunctuation (trim txt)); simpl; [reflexivity|].
  destruct (50 <? String.length (trim txt))%nat; simpl; [|reflexivity].
  destruct (isLikelyQuestion txt); simpl; [|reflexivity].
  destruct (hasSubjectVerb (trim txt)); reflexivity.
Qed.

(** *** The first speaker of a session *)

Lemma firstSpeakerId_send (ch pl : string) (h : Helper) :
  firstSpeakerId (send ch pl h) = firstSpeakerId h.
Proof. unfold send. destruct (mainWindow h); reflexivity. Qed.

Lemma firstSpeakerId_emitCompleteQuestion (txt : string) (now : Z) (h : Helper) :
  firstSpeakerId (emitCompleteQuestion txt now h) = firstSpeakerId h.
Proof.
  unfold emitCompleteQuestion.
  repeat match goal with |- context [if ?b then _ else _] => destruct b end;
    reflexivity.
Qed.

Lemma firstSpeakerId_processQuestionBuffer (now : Z) (h : Helper) :
  firstSpeakerId (processQuestionBuffer now h) = firstSpeakerId h.
Proof.
  unfold processQuestionBuffer.
  destruct (questionBuffer h) as [b|]; [|reflexivity].
  destruct (shouldEmit b now h); [|reflexivity].
  cbv zeta.
  destruct (questionCompletionTimer _); simpl;
    apply firstSpeakerId_emitCompleteQuestion.
Qed.

Lemma firstSpeakerId_handleSpeakerActivity (spk : option Z) (now : Z) (h : Helper) :
  firstSpeakerId (handleSpeakerActivity spk now h) = firstSpeakerId h.
Proof.
  unfold handleSpeakerActivity.
  destruct spk as [sp|]; [|reflexivity].
  cbv zeta. simpl.
  repeat match goal with |- context [if ?b then _ else _] => destruct b end;
    try reflexivity.
  rewrite firstSpeakerId_processQuestionBuffer. reflexivity.
Qed.

Lemma firstSpeakerId_updateQuestionBuffer
    (txt : string) (spk : option Z) (isFinal : bool) (now : Z) (h : Helper) :
  firstSpeakerId (updateQuestionBuffer txt spk isFinal now h) = firstSpeakerId h.
Proof.
  unfold updateQuestionBuffer, armCompletionTimer, setTimeout.
  destruct (questionBuffer h) as [b|].
  - destruct (isNull spk || sameSpeaker spk (speaker b)).
    + destruct (questionCompletionTimer _); destruct isFinal; reflexivity.
    + destruct (isFinal && _); reflexivity.
  - destruct (isLikelyQuestion txt); destruct (isFinal && _); reflexivity.
Qed.

Lemma firstSpeakerId_wordStep (now : Z) (l : Loop) (w : Word) :
  firstSpeakerId (helper (wordStep now l w)) = firstSpeakerId (helper l).
Proof.
  unfold wordStep. simpl.
  destruct (isNull _); [reflexivity|].
  apply firstSpeakerId_handleSpeakerActivity.
Qed.

Lemma firstSpeakerId_words (now : Z) (words : list Word) (l : Loop) :
  firstSpeakerId (helper (fold_left (wordStep now) words l))
  = firstSpeakerId (helper l).
Proof.
  revert l. induction words as [|w r IH]; intros l; simpl; [reflexivity|].
  rewrite IH. apply firstSpeakerId_wordStep.
Qed.

Lemma firstSpeakerId_handleDiarizedTranscript
    (words : list Word) (isFinal : bool) (now : Z) (h : Helper) :
  firstSpeakerId (handleDiarizedTranscript words isFinal now h)
  = firstSpeakerId (identifyFirstSpeaker words h).
Proof.
  unfold handleDiarizedTranscript, segmentWords, setTimeout. simpl.
  destruct (0 <? length _)%nat.
  - rewrite firstSpeakerId_updateQuestionBuffer, firstSpeakerId_send.
    apply firstSpeakerId_words.
  - rewrite firstSpeakerId_send. apply firstSpeakerId_words.
Qed.

Lemma identifyFirstSpeaker_known (words : list Word) (h : Helper) (id : Z) :
  firstSpeakerId h = Some id ->
  firstSpeakerId (identifyFirstSpeaker words h) = Some id.
Proof. unfold identifyFirstSpeaker. intros E. rewrite E. exact E. Qed.

Lemma firstSpeakerId_fireTimer (id : nat) (now : Z) (h : Helper) :
  firstSpeakerId (fireTimer id now h) = firstSpeakerId h.
Proof.
  unfold fireTimer. destruct (findTimer id h) as [[d cb]|]; [|reflexivity].
  destruct cb; simpl; [|reflexivity].
  rewrite firstSpeakerId_processQuestionBuffer. reflexivity.
Qed.

Lemma firstSpeakerId_handle (now : Z) (e : Event) (h : Helper) (id : Z) :
  firstSpeakerId h = Some id -> firstSpeakerId (handle now e h) = Some id.
Proof.
  intros E. destruct e as [|t ws f|tid|t|m|]; simpl.
  - rewrite firstSpeakerId_send. exact E.
  - unfold onTranscript.
    destruct (negb _); [|exact E].
    destruct (_ && _).
    + rewrite firstSpeakerId_handleDiarizedTranscript.
      apply identifyFirstSpeaker_known. exact E.
    + unfold handleNonDiarizedTranscript.
      destruct (negb (processingDiarizedTranscript _)).
      * rewrite firstSpeakerId_updateQuestionBuffer, firstSpeakerId_send. exact E.
      * rewrite firstSpeakerId_send. exact E.
  - rewrite firstSpeakerId_fireTimer. exact E.
  - unfold processTranscript.
    repeat match goal with |- context [if ?b then _ else _] => destruct b end;
      exact E.
  - rewrite firstSpeakerId_send. exact E.
  - rewrite firstSpeakerId_send. exact E.
Qed.

Lemma firstSpeakerId_runSession (evs : list (Z * Event)) (h : Helper) (id : Z) :
  firstSpeakerId h = Some id -> firstSpeakerId (runSession evs h) = Some id.
Proof.
  unfold runSession. revert h.
  induction evs as [|[now e] r IH]; intros h E; simpl; [exact E|].
  apply IH. apply firstSpeakerId_handle. exact E.
Qed.

(** The role that the Interviewer id [id] gives to a word. *)
Definition roleOf (id : Z) (originalSpeaker : option Z) : option Z :=
  match originalSpeaker with
  | Some o => if (o =? id)%Z then Some 0%Z else Some 1%Z
  | None => None
  end.

(** *** The segments of a transcript *)

(** The words of a transcript with the roles that the Interviewer id
    [id] gives them. *)
Definition withRoles (id : Z) (words : list Word) : list (option Z * string) :=
  map (fun w => (roleOf id (wspeaker w), word w)) words.

(** The runs of consecutive words of one role, each word after a space;
    [cur] and [txt] are the role and the text of the run that is open. *)
Fixpoint runsFrom (cur : option Z) (txt : string) (ws : list (option Z * string))
    : list (option Z * string) :=
  match ws with
  | [] => [(cur, txt)]
  | (r, w) :: rest =>
      if sameSpeaker r cur then runsFrom cur (txt ++ " " ++ w) rest
      else (cur, txt) :: runsFrom r (" " ++ w) rest
  end.

(** The runs that are not blank, trimmed. *)
Definition segmentsOfRuns (runs : list (option Z * string)) : list Segment :=
  map (fun run => mkSegment (fst run) (trim (snd run)))
      (List.filter (fun run => negb (String.eqb (trim (snd run)) EmptyString)) runs).

(** The segments of a transcript as the specification has them, with
    no helper involved: its words, each with the role that [id] gives
    it, in runs of one role. *)
Definition segmentsOf (id : Z) (words : list Word) : list Segment :=
  segmentsOfRuns (runsFrom None EmptyString (withRoles id words)).

Lemma sameSpeaker_eq (a b : option Z) : sameSpeaker a b = true -> a = b.
Proof.
  destruct a as [x|], b as [y|]; simpl; try discriminate; [|reflexivity].
  intros E. apply Z.eqb_eq in E. subst. reflexivity.
Qed.

Lemma trimEnd_nonblank (c : ascii) (r : string) :
  isWhiteSpace c = false -> trimEnd (String c r) <> EmptyString.
Proof.
  intros W. simpl. destruct (trimEnd r); [rewrite W|]; discriminate.
Qed.

Lemma trimStart_blank_app (a t : string) :
  trim a = EmptyString -> trimStart (a ++ t) = trimStart t.
Proof.
  induction a as [|c r IH]; intros B; [reflexivity|].
  unfold trim in B. simpl in B. simpl.
  destruct (isWhiteSpace c) eqn:W.
  - apply IH. exact B.
  - destruct (trimEnd_nonblank c r W B).
Qed.

Lemma trim_blank_app (a t : string) :
  trim a = EmptyString -> trim (a ++ t) = trim t.
Proof. intros B. unfold trim. rewrite (trimStart_blank_app a t B). reflexivity. Qed.

Lemma segmentsOfRuns_cons (r : option Z) (t : string) (runs : list (option Z * string)) :
  segmentsOfRuns ((r, t) :: runs)
  = if negb (String.eqb (trim t) EmptyString)
    then mkSegment r (trim t) :: segmentsOfRuns runs
    else segmentsOfRuns runs.
Proof.
  unfold segmentsOfRuns. simpl.
  destruct (String.eqb (trim t) EmptyString); reflexivity.
Qed.

Lemma string_app_assoc (a b c : string) : (a ++ b) ++ c = a ++ b ++ c.
Proof.
  induction a as [|x a IH]; [reflexivity|].
  change (String x ((a ++ b) ++ c) = String x (a ++ b ++ c)).
  f_equal. exact IH.
Qed.

Lemma runsFrom_blank_prefix (a : string) (r : option Z) (t : string)
    (ws : list (option Z * string)) :
  trim a = EmptyString ->
  segmentsOfRuns (runsFrom r (a ++ t) ws) = segmentsOfRuns (runsFrom r t ws).
Proof.
  intros B. revert t. induction ws as [|[r' w] rest IH]; intros t; simpl.
  - rewrite !segmentsOfRuns_cons, (trim_blank_app a t B). reflexivity.
  - destruct (sameSpeaker r' r).
    + rewrite string_app_assoc. apply IH.
    + rewrite !segmentsOfRuns_cons, (trim_blank_app a t B). reflexivity.
Qed.

(** The segments of the word loop once its last run is closed. *)
Definition closedSegments (l : Loop) : list Segment :=
  if negb (String.eqb (trim (currentText l)) EmptyString)
  then (speakerSegments l ++ [mkSegment (currentSpeaker l) (trim (currentText l))])%list
  else speakerSegments l.

Lemma closedSegments_words (id now : Z) (words : list Word) (l : Loop) :
  firstSpeakerId (helper l) = Some id ->
  closedSegments (fold_left (wordStep now) words l)
  = (speakerSegments l
     ++ segmentsOfRuns (runsFrom (currentSpeaker l) (currentText l) (withRoles id words)))%list.
Proof.
  revert l. induction words as [|w r IH]; intros l F; simpl.
  - unfold closedSegments. rewrite segmentsOfRuns_cons.
    destruct (negb _); [reflexivity|]. symmetry. apply app_nil_r.
  - rewrite IH by (rewrite firstSpeakerId_wordStep; exact F).
    assert (M : mapSpeaker (firstSpeakerId (helper l)) (wspeaker w) = roleOf id (wspeaker w)).
    { rewrite F. unfold mapSpeaker, roleOf. destruct (wspeaker w); reflexivity. }
    unfold wordStep. cbn [speakerSegments currentSpeaker currentText]. rewrite M.
    destruct (sameSpeaker (roleOf id (wspeaker w)) (currentSpeaker l)) eqn:S.
    + apply sameSpeaker_eq in S. rewrite S. cbn [negb andb]. reflexivity.
    + cbn [negb andb]. rewrite segmentsOfRuns_cons.
      destruct (String.eqb (trim (currentText l)) EmptyString) eqn:B; cbn [negb].
      * apply String.eqb_eq in B.
        rewrite (runsFrom_blank_prefix (currentText l) _ (" " ++ word w) _ B).
        reflexivity.
      * rewrite <- List.app_assoc. reflexivity.
Qed.

Lemma segmentWords_segmentsOf (id now : Z) (words : list Word) (h : Helper) :
  firstSpeakerId h = Some id ->
  fst (segmentWords words now h) = segmentsOf id words.
Proof.
  intros F. unfold segmentWords. cbv zeta. cbn [fst].
  exact (closedSegments_words id now words (mkLoop [] None EmptyString h) F).
Qed.

(** *** What the renderer is sent *)

Definition sameWindow (h h' : Helper) : Prop :=
  mainWindow h' = mainWindow h /\ sent h' = sent h.

Lemma sameWindow_trans (h1 h2 h3 : Helper) :
  sameWindow h1 h2 -> sameWindow h2 h3 -> sameWindow h1 h3.
Proof. intros [A B] [C D]. split; congruence. Qed.

Lemma sameWindow_emitCompleteQuestion (txt : string) (now : Z) (h : Helper) :
  sameWindow h (emitCompleteQuestion txt now h).
Proof.
  unfold emitCompleteQuestion.
  repeat match goal with |- context [if ?b then _ else _] => destruct b end;
    split; reflexivity.
Qed.

Lemma sameWindow_processQuestionBuffer (now : Z) (h : Helper) :
  sameWindow h (processQuestionBuffer now h).
Proof.
  unfold processQuestionBuffer.
  destruct (questionBuffer h) as [b|]; [|split; reflexivity].
  destruct (shouldEmit b now h); [|split; reflexivity].
  cbv zeta.
  apply (sameWindow_trans _ _ _ (sameWindow_emitCompleteQuestion (text b) now h)).
  destruct (questionCompletionTimer _); split; reflexivity.
Qed.

Lemma sameWindow_handleSpeakerActivity (spk : option Z) (now : Z) (h : Helper) :
  sameWindow h (handleSpeakerActivity spk now h).
Proof.
  unfold handleSpeakerActivity.
  destruct spk as [sp|]; [|split; reflexivity].
  cbv zeta.
  set (h1 := set_lastSpeakerActivity _ h).
  destruct (_ && _ && _); [|split; reflexivity].
  destruct (_ && _); [|split; reflexivity].
  apply (sameWindow_trans h h1); [split; reflexivity|].
  apply (sameWindow_trans h1 (processQuestionBuffer now h1));
    [apply sameWindow_processQuestionBuffer | split; reflexivity].
Qed.

Lemma sameWindow_words (now : Z) (words : list Word) (l : Loop) :
  sameWindow (helper l) (helper (fold_left (wordStep now) words l)).
Proof.
  revert l. induction words as [|w r IH]; intros l; simpl; [split; reflexivity|].
  refine (sameWindow_trans _ _ _ _ (IH _)).
  unfold wordStep. simpl.
  destruct (isNull _); [split; reflexivity|].
  apply sameWindow_handleSpeakerActivity.
Qed.

Lemma sent_updateQuestionBuffer
    (txt : string) (spk : option Z) (isFinal : bool) (now : Z) (h : Helper) :
  sent (updateQuestionBuffer txt spk isFinal now h) = sent h.
Proof.
  unfold updateQuestionBuffer, armCompletionTimer, setTimeout.
  destruct (questionBuffer h) as [b|].
  - destruct (isNull spk || sameSpeaker spk (speaker b)).
    + destruct (questionCompletionTimer _); destruct isFinal; reflexivity.
    + destruct (isFinal && _); reflexivity.
  - destruct (isLikelyQuestion txt); destruct (isFinal && _); reflexivity.
Qed.

(** What the renderer has been sent once the words [ws] are shown with
    the roles that [id] gives them: one more message when there is a
    window. *)
Definition shown (id : Z) (h : Helper) (ws : list Word) : list (string * string) :=
  if mainWindow h
  then (sent h ++ [("speech-transcription",
                    trim (formatSegments (segmentsOf id ws)))])%list
  else sent h.

(** The transcript shown to the renderer is built from the segments of
    the words, with the roles of the session. *)
Lemma handleDiarizedTranscript_sent
    (id : Z) (words : list Word) (isFinal : bool) (now : Z) (h : Helper) :
  firstSpeakerId h = Some id ->
  sent (handleDiarizedTranscript words isFinal now h) = shown id h words.
Proof.
  intros F. unfold shown, handleDiarizedTranscript.
  assert (I : identifyFirstSpeaker words h = h).
  { unfold identifyFirstSpeaker. rewrite F. reflexivity. }
  rewrite I.
  pose proof (segmentWords_segmentsOf id now words h F) as S.
  assert (W : sameWindow h (snd (segmentWords words now h))).
  { unfold segmentWords. cbv zeta. cbn [snd].
    exact (sameWindow_words now words (mkLoop [] None EmptyString h)). }
  destruct (segmentWords words now h) as [segs h2]. cbn [fst snd] in S, W.
  subst segs. destruct W as [W1 W2].
  match goal with
  | |- sent (snd (setTimeout _ _ _ ?X)) = _ => transitivity (sent X); [reflexivity|]
  end.
  assert (E : sent (send "speech-transcription"
                      (trim (formatSegments (segmentsOf id words))) h2)
              = if mainWindow h
                then (sent h ++ [("speech-transcription",
                                  trim (formatSegments (segmentsOf id words)))])%list
                else sent h).
  { unfold send. rewrite W1. destruct (mainWindow h); [|exact W2].
    simpl. rewrite W2. reflexivity. }
  destruct (0 <? length _)%nat; [rewrite sent_updateQuestionBuffer|]; exact E.
Qed.

Lemma identifyFirstSpeaker_window (words : list Word) (h : Helper) :
  sameWindow h (identifyFirstSpeaker words h).
Proof.
  unfold identifyFirstSpeaker. destruct (firstSpeakerId h); [split; reflexivity|].
  destruct (firstDefinedSpeaker words); split; reflexivity.
Qed.

Lemma handleDiarizedTranscript_identified
    (words : list Word) (isFinal : bool) (now : Z) (h : Helper) :
  handleDiarizedTranscript words isFinal now h
  = handleDiarizedTranscript words isFinal now (identifyFirstSpeaker words h).
Proof.
  unfold handleDiarizedTranscript.
  assert (I : identifyFirstSpeaker words (identifyFirstSpeaker words h)
              = identifyFirstSpeaker words h).
  { unfold identifyFirstSpeaker at 2 3.
    destruct (firstSpeakerId h) eqn:F.
    - unfold identifyFirstSpeaker. rewrite F. reflexivity.
    - destruct (firstDefinedSpeaker words) eqn:D.
      + unfold identifyFirstSpeaker. reflexivity.
      + unfold identifyFirstSpeaker. rewrite F, D. reflexivity. }
  rewrite I. reflexivity.
Qed.

Lemma segmentsOf_word (id : Z) (w : Word) :
  trim (word w) <> EmptyString ->
  segmentsOf id [w] = [mkSegment (roleOf id (wspeaker w)) (trim (word w))].
Proof.
  intros N. apply String.eqb_neq in N.
  assert (T : trim (" " ++ word w) = trim (word w))
    by (apply (trim_blank_app " " (word w)); reflexivity).
  unfold segmentsOf, withRoles. cbn [map runsFrom].
  destruct (roleOf id (wspeaker w)) as [r|]; cbn [sameSpeaker].
  - rewrite !segmentsOfRuns_cons. cbn [negb].
    change (trim EmptyString) with EmptyString. cbn [String.eqb negb].
    rewrite T, N. reflexivity.
  - rewrite segmentsOfRuns_cons.
    change (EmptyString ++ " " ++ word w) with (" " ++ word w).
    rewrite T, N. reflexivity.
Qed.

(** C2. In a session that starts with no first speaker, the transcript
    whose words carry the first speaker id [id] fixes it as
    [firstSpeakerId]; it keeps that value through every later event of
    the session (transcripts, timers, manual transcripts, connection
    events).  From that transcript on, the segments that
    [handleDiarizedTranscript] builds from the words of a transcript,
    and shows to the renderer, are the runs of its words under the
    roles that [id] gives them: role 0 for a word that carries [id],
    role 1 for a word that carries another id and a null role for a
    word that carries none.  [resetVADState] alone clears the first
    speaker. *)
Theorem first_speaker_is_interviewer
    (words : list Word) (isFinal : bool) (now : Z) (h : Helper)
    (evs : list (Z * Event)) (id : Z) :
  firstSpeakerId h = None ->
  firstDefinedSpeaker words = Some id ->
  let h1 := handleDiarizedTranscript words isFinal now h in
  let h2 := runSession evs h1 in
  firstSpeakerId h1 = Some id
  /\ firstSpeakerId h2 = Some id
  /\ sent h1 = shown id h words
  /\ (forall (words' : list Word) (isFinal' : bool) (now' : Z),
         let h3 := handleDiarizedTranscript words' isFinal' now' h2 in
         fst (segmentWords words' now' h2) = segmentsOf id words'
         /\ sent h3 = shown id h2 words'
         /\ firstSpeakerId h3 = Some id)
  /\ (forall (now' : Z) (w : Word),
         trim (word w) <> EmptyString ->
         fst (segmentWords [w] now' h2)
         = [mkSegment (roleOf id (wspeaker w)) (trim (word w))])
  /\ (forall (now' : Z) (l : Loop) (w : Word),
         helper l = h2 \/ firstSpeakerId (helper l) = Some id ->
         currentSpeaker (wordStep now' l w) = roleOf id (wspeaker w)
         /\ firstSpeakerId (helper (wordStep now' l w)) = Some id)
  /\ roleOf id (Some id) = Some 0%Z
  /\ (forall o, o <> id -> roleOf id (Some o) = Some 1%Z)
  /\ roleOf id None = None
  /\ firstSpeakerId (resetVADState h2) = None.
Proof.
  intros E0 F h1 h2.
  assert (E1 : firstSpeakerId h1 = Some id).
  { subst h1. rewrite firstSpeakerId_handleDiarizedTranscript.
    unfold identifyFirstSpeaker. rewrite E0, F. reflexivity. }
  assert (E2 : firstSpeakerId h2 = Some id).
  { subst h2. apply firstSpeakerId_runSession. exact E1. }
  split; [exact E1|]. split; [exact E2|].
  split.
  { subst h1. rewrite handleDiarizedTranscript_identified.
    destruct (identifyFirstSpeaker_window words h) as [W1 W2].
    rewrite (handleDiarizedTranscript_sent id).
    - unfold shown. rewrite W1, W2. reflexivity.
    - unfold identifyFirstSpeaker. rewrite E0, F. reflexivity. }
  split.
  { intros words' isFinal' now' h3. split; [|split].
    - apply segmentWords_segmentsOf. exact E2.
    - subst h3. apply handleDiarizedTranscript_sent. exact E2.
    - subst h3. rewrite firstSpeakerId_handleDiarizedTranscript.
      apply identifyFirstSpeaker_known. exact E2. }
  split.
  { intros now' w N. rewrite (segmentWords_segmentsOf id) by exact E2.
    apply segmentsOf_word. exact N. }
  split.
  { intros now' l w Hl.
    assert (El : firstSpeakerId (helper l) = Some id).
    { destruct Hl as [Hl|Hl]; [rewrite Hl; exact E2 | exact Hl]. }
    split.
    - unfold wordStep. simpl. rewrite El. unfold mapSpeaker, roleOf.
      destruct (wspeaker w); reflexivity.
    - rewrite firstSpeakerId_wordStep. exact El. }
  split; [unfold roleOf; rewrite Z.eqb_refl; reflexivity|].
  split.
  { intros o N. unfold roleOf. destruct (Z.eqb_spec o id); [contradiction|reflexivity]. }
  split; [reflexivity|].
  unfold resetVADState. cbv zeta.
  destruct (questionCompletionTimer _); reflexivity.
Qed.

Lemma first_speaker_is_interviewer_witness :
  let words := [mkWord "so" None; mkWord "what" (Some 5%Z); mkWord "ok" (Some 7%Z)] in
  let evs := [(1200%Z, EvTranscript "what is" [mkWord "is" (Some 7%Z)] true);
              (1500%Z, EvTimer 1)] in
  let h2 := runSession evs
              (handleDiarizedTranscript words false 1000 (initialHelper true true)) in
  let later := [mkWord "and" (Some 7%Z); mkWord "why" (Some 5%Z); mkWord "is" (Some 5%Z);
                mkWord "uh" None; mkWord "it" (Some 9%Z)] in
  firstSpeakerId h2 = Some 5%Z
  /\ fst (segmentWords later 2000 h2)
     = [mkSegment (Some 1%Z) "and"; mkSegment (Some 0%Z) "why is";
        mkSegment None "uh"; mkSegment (Some 1%Z) "it"]
  /\ sent (handleDiarizedTranscript words false 1000 (initialHelper true true))
     = [("speech-transcription",
         "You: so" ++ lf ++ "Interviewer: what" ++ lf ++ "You: ok")].
Proof.
  intros words evs h2 later.
  destruct (first_speaker_is_interviewer words false 1000
              (initialHelper true true) evs 5 eq_refl eq_refl)
    as (_ & E2 & S1 & L & _).
  split; [exact E2|]. split.
  - etransitivity; [exact (proj1 (L later false 2000%Z))|]. vm_compute. reflexivity.
  - etransitivity; [exact S1|]. vm_compute. reflexivity.
Defined.

(** *** stopListening *)

(** A helper whose connection is open. *)
Definition listening : Helper :=
  handle 0 EvOpen (snd (startSpeechRecognition true (initialHelper true true))).

Lemma find_filter_out {A} (p : A -> bool) (l : list A) :
  find p (filter (fun x => negb (p x)) l) = None.
Proof.
  induction l as [|x r IH]; [reflexivity|].
  rewrite filter_cons. destruct (decide (negb (p x))) as [T|T].
  - simpl. destruct (p x); [destruct T|exact IH].
  - exact IH.
Qed.

Lemma findTimer_clearTimeout (id : nat) (h : Helper) :
  findTimer id (clearTimeout id h) = None.
Proof.
  unfold findTimer, clearTimeout. simpl.
  rewrite (find_filter_out (fun t => Nat.eqb (fst t) id)). reflexivity.
Qed.

(** C8, as stated, fails: a question is emitted, the session is
    stopped, and the emission record still holds the question and the
    time of its emission. *)
Lemma stopListening_emission_record_counterexample :
  let h := runSession [(1000%Z, EvTranscript "What is a heap?" [] true);
                       (1300%Z, EvTimer 1)] listening in
  emitted h = ["What is a heap?"]
  /\ fst (stopListening true h) = true
  /\ lastEmittedTranscript (snd (stopListening true h)) = "What is a heap?"
  /\ lastEmittedTime (snd (stopListening true h)) = 1300%Z.
Proof. vm_compute. repeat split. Qed.

(** C8, amended. After a successful [stopListening] the helper is not
    listening and the state of [resetVADState] is cleared whatever it
    was: the first speaker id, the question buffer, the active speaker,
    the silence start, the activity of every speaker and the completion
    timer, which is no longer pending.  The emission record (last emitted
    text and its time) is left as it was. *)
Theorem stopListening_resets_session (finishOk : bool) (h h' : Helper) :
  stopListening finishOk h = (true, h') ->
  isListening h' = false
  /\ firstSpeakerId h' = None
  /\ questionBuffer h' = None
  /\ currentActiveSpeaker h' = None
  /\ silenceStartTime h' = None
  /\ lastSpeakerActivity h' = ∅
  /\ questionCompletionTimer h' = None
  /\ (forall id, questionCompletionTimer h = Some id -> findTimer id h' = None)
  /\ lastEmittedTranscript h' = lastEmittedTranscript h
  /\ lastEmittedTime h' = lastEmittedTime h.
Proof.
  destruct h as [cl li tcp mw lpt lpT pd ids let_ leT fs qb qt act cur sil em sn tm nid].
  unfold stopListening. cbn.
  destruct (negb li || negb tcp); [discriminate|].
  destruct finishOk; [|discriminate].
  intros E. injection E as <-.
  unfold resetVADState. cbn.
  destruct qt as [id|]; cbn.
  - do 7 (split; [reflexivity|]). split; [|split; reflexivity].
    intros id' [= <-]. unfold findTimer. cbn.
    rewrite (find_filter_out (fun t => Nat.eqb (fst t) id)). reflexivity.
  - do 7 (split; [reflexivity|]). split; [|split; reflexivity].
    intros id' [=].
Qed.

Lemma stopListening_resets_session_witness :
  let h := runSession [(1000%Z, EvTranscript "What is a heap" [mkWord "What" (Some 3%Z)] false)]
                      listening in
  firstSpeakerId h = Some 3%Z
  /\ firstSpeakerId (snd (stopListening true h)) = None
  /\ questionBuffer (snd (stopListening true h)) = None.
Proof.
  intros h.
  pose proof (stopListening_resets_session true h (snd (stopListening true h)) eq_refl)
    as (_ & A & B & _).
  split; [reflexivity|]. split; [exact A | exact B].
Defined.

(** *** The speaker switch *)

Definition spoken (t : string) (id : Z) : Word := mkWord t (Some id).

(** Every word carries a speaker id other than [f]. *)
Definition allOther (f : Z) (words : list Word) : bool :=
  forallb (fun w => match wspeaker w with
                    | Some o => negb (o =? f)%Z
                    | None => false
                    end) words.

Definition noInterviewerSegment (segs : list Segment) : bool :=
  forallb (fun seg => negb (sameSpeaker (segSpeaker seg) (Some 0%Z))) segs.

Lemma filter_noInterviewerSegment (segs : list Segment) :
  noInterviewerSegment segs = true ->
  filter (fun seg => sameSpeaker (segSpeaker seg) (Some 0%Z)) segs = [].
Proof.
  induction segs as [|x r IH]; [reflexivity|].
  simpl. intros E. apply andb_prop in E as [E1 E2].
  rewrite filter_cons. destruct (decide _) as [T|T].
  - destruct (sameSpeaker (segSpeaker x) (Some 0%Z)); [discriminate E1 | destruct T].
  - apply IH. exact E2.
Qed.

Lemma noInterviewerSegment_snoc (segs : list Segment) (seg : Segment) :
  noInterviewerSegment segs = true ->
  sameSpeaker (segSpeaker seg) (Some 0%Z) = false ->
  noInterviewerSegment (segs ++ [seg]) = true.
Proof.
  unfold noInterviewerSegment. intros A B.
  rewrite forallb_app, A. simpl. rewrite B. reflexivity.
Qed.

(** With no buffer, the activity of a speaker emits nothing and
    creates no buffer. *)
Lemma handleSpeakerActivity_no_buffer (sp : Z) (now : Z) (h : Helper) :
  questionBuffer h = None ->
  let h' := handleSpeakerActivity (Some sp) now h in
  questionBuffer h' = None
  /\ emitted h' = emitted h
  /\ currentActiveSpeaker h' = Some sp.
Proof.
  destruct h as [cl li tcp mw lpt lpT pd ids let_ leT fs qb qt act cur sil em sn tm nid].
  cbn. intros ->. unfold handleSpeakerActivity, isInterviewerBuffer. cbn.
  destruct (negb (isNull cur) && negb (sameSpeaker cur (Some sp))
            && (SPEAKER_SWITCH_THRESHOLD <? now - default 0 (act !! sp))%Z);
    cbn; repeat split.
Qed.

(** The loop over words of the Other role, entered with no buffer. *)
Lemma otherWords_no_buffer (f now : Z) (words : list Word) (l : Loop) :
  allOther f words = true ->
  firstSpeakerId (helper l) = Some f ->
  questionBuffer (helper l) = None ->
  currentActiveSpeaker (helper l) = Some 1%Z ->
  sameSpeaker (currentSpeaker l) (Some 0%Z) = false ->
  noInterviewerSegment (speakerSegments l) = true ->
  let l' := fold_left (wordStep now) words l in
  questionBuffer (helper l') = None
  /\ emitted (helper l') = emitted (helper l)
  /\ currentActiveSpeaker (helper l') = Some 1%Z
  /\ sameSpeaker (currentSpeaker l') (Some 0%Z) = false
  /\ noInterviewerSegment (speakerSegments l') = true.
Proof.
  revert l. induction words as [|w r IH]; intros l A F Q C S N; simpl.
  - repeat split; assumption.
  - simpl in A. apply andb_prop in A as [A1 A2].
    destruct (wspeaker w) as [o|] eqn:W; [|discriminate A1].
    assert (M : mapSpeaker (firstSpeakerId (helper l)) (wspeaker w) = Some 1%Z).
    { rewrite F, W. simpl. destruct (o =? f)%Z; [discriminate A1 | reflexivity]. }
    pose proof (handleSpeakerActivity_no_buffer 1 now (helper l) Q) as (Q' & E' & C').
    specialize (IH (wordStep now l w) A2).
    assert (H1 : helper (wordStep now l w) = handleSpeakerActivity (Some 1%Z) now (helper l)).
    { unfold wordStep. simpl. rewrite M. reflexivity. }
    rewrite H1 in IH. rewrite <- E'.
    apply IH.
    + rewrite firstSpeakerId_handleSpeakerActivity. exact F.
    + exact Q'.
    + exact C'.
    + unfold wordStep. simpl. rewrite M. reflexivity.
    + unfold wordStep. simpl.
      destruct (negb _ && negb _); [|exact N].
      apply noInterviewerSegment_snoc; [exact N | exact S].
Qed.

Lemma shouldEmit_due (b : QuestionBuffer) (now : Z) (h : Helper) :
  isQuestionComplete (text b) = true
  \/ (QUESTION_COMPLETION_PAUSE <= now - lastUpdateTime b)%Z
     /\ isLikelyQuestion (text b) = true ->
  shouldEmit b now h = true.
Proof.
  unfold shouldEmit. intros [D|[D1 D2]].
  - rewrite D. rewrite orb_true_r. reflexivity.
  - rewrite D2. apply Z.leb_le in D1. rewrite D1. reflexivity.
Qed.

(** The first word of the Other role after the Interviewer, when the
    switch is detected and the buffer is due. *)
Lemma handleSpeakerActivity_flush (now c : Z) (b : QuestionBuffer) (h : Helper) :
  questionBuffer h = Some b ->
  speaker b = Some 0%Z ->
  currentActiveSpeaker h = Some c ->
  c <> 1%Z ->
  (SPEAKER_SWITCH_THRESHOLD < now - default 0 (lastSpeakerActivity h !! 1%Z))%Z ->
  isQuestionComplete (text b) = true
  \/ (QUESTION_COMPLETION_PAUSE <= now - lastUpdateTime b)%Z
     /\ isLikelyQuestion (text b) = true ->
  let h' := handleSpeakerActivity (Some 1%Z) now h in
  questionBuffer h' = None
  /\ emitted h' = emitted (emitCompleteQuestion (text b) now h)
  /\ currentActiveSpeaker h' = Some 1%Z.
Proof.
  destruct h as [cl li tcp mw lpt lpT pd ids let_ leT fs qb qt act cur sil em sn tm nid].
  cbn. intros -> B -> N T D.
  unfold handleSpeakerActivity, isInterviewerBuffer. cbn.
  rewrite B. cbn.
  destruct (Z.eqb_spec c 1) as [|_]; [contradiction|]. cbn.
  destruct (Z.ltb_spec SPEAKER_SWITCH_THRESHOLD (now - default 0 (act !! 1%Z))) as [_|T'];
    [|lia].
  unfold processQuestionBuffer. cbn -[shouldEmit emitCompleteQuestion].
  rewrite (shouldEmit_due b now _ D).
  unfold emitCompleteQuestion. cbn.
  repeat match goal with |- context [if ?x then _ else _] => destruct x end;
    cbn; destruct qt; cbn; repeat split.
Qed.

(** The loop over words of the Other role builds no Interviewer
    segment. *)
Lemma otherWords_segments (f now : Z) (words : list Word) (l : Loop) :
  allOther f words = true ->
  firstSpeakerId (helper l) = Some f ->
  sameSpeaker (currentSpeaker l) (Some 0%Z) = false ->
  noInterviewerSegment (speakerSegments l) = true ->
  let l' := fold_left (wordStep now) words l in
  sameSpeaker (currentSpeaker l') (Some 0%Z) = false
  /\ noInterviewerSegment (speakerSegments l') = true.
Proof.
  revert l. induction words as [|w r IH]; intros l A F S N; simpl.
  - split; assumption.
  - simpl in A. apply andb_prop in A as [A1 A2].
    destruct (wspeaker w) as [o|] eqn:W; [|discriminate A1].
    assert (M : mapSpeaker (firstSpeakerId (helper l)) (wspeaker w) = Some 1%Z).
    { rewrite F, W. simpl. destruct (o =? f)%Z; [discriminate A1 | reflexivity]. }
    apply (IH (wordStep now l w) A2).
    + rewrite firstSpeakerId_wordStep. exact F.
    + unfold wordStep. simpl. rewrite M. reflexivity.
    + unfold wordStep. simpl.
      destruct (negb _ && negb _); [|exact N].
      apply noInterviewerSegment_snoc; [exact N | exact S].
Qed.

(** A transcript of the Other role alone leaves the buffer to the word
    loop: [updateQuestionBuffer] is not called. *)
Lemma handleDiarizedTranscript_other
    (f now : Z) (words : list Word) (isFinal : bool) (h : Helper) :
  firstSpeakerId h = Some f ->
  allOther f words = true ->
  handleDiarizedTranscript words isFinal now h
  = snd (setTimeout CbClearProcessingDiarized 500 now
           (send "speech-transcription"
                 (trim (formatSegments (fst (segmentWords words now h))))
                 (snd (segmentWords words now h)))).
Proof.
  intros F A. unfold handleDiarizedTranscript.
  assert (I : identifyFirstSpeaker words h = h).
  { unfold identifyFirstSpeaker. rewrite F. reflexivity. }
  rewrite I.
  destruct (segmentWords words now h) as [segs h2] eqn:SW.
  assert (N : noInterviewerSegment segs = true).
  { unfold segmentWords in SW.
    pose proof (otherWords_segments f now words (mkLoop [] None EmptyString h) A F
                  eq_refl eq_refl) as [S N].
    cbv zeta in S, N. injection SW as <- _.
    destruct (negb _); [|exact N].
    apply noInterviewerSegment_snoc; [exact N | exact S]. }
  rewrite (filter_noInterviewerSegment segs N). reflexivity.
Qed.

(** The guard of [handleSpeakerActivity]: no switch is detected while
    the Other speaker was active less than [SPEAKER_SWITCH_THRESHOLD] =
    1500 ms before. The Interviewer's buffer holds a complete question,
    the words of the next event belong to the Other role, and whether
    the event is final or not nothing is emitted and the buffer stays. *)
Lemma speaker_switch_counterexample :
  let h := runSession
             [(100000%Z, EvTranscript "okay" [spoken "okay" 5] false);
              (100200%Z, EvTranscript "sure" [spoken "sure" 7] false);
              (100500%Z, EvTimer 0);
              (100700%Z, EvTimer 1);
              (101000%Z, EvTranscript "What is a hashmap?"
                           [spoken "What" 5; spoken "is" 5; spoken "a" 5;
                            spoken "hashmap?" 5] false)]
             listening in
  let other := [spoken "I" 7; spoken "would" 7; spoken "use" 7; spoken "a" 7;
                spoken "hashmap" 7] in
  (text <$> questionBuffer h) = Some "What is a hashmap?"
  /\ (speaker <$> questionBuffer h) = Some (Some 0%Z)
  /\ firstSpeakerId h = Some 5%Z
  /\ allOther 5 other = true
  /\ forall isFinal,
       let h' := handle 101400 (EvTranscript "I would use a hashmap" other isFinal) h in
       emitted h' = [] /\ questionBuffer h' = questionBuffer h.
Proof.
  cbv zeta. do 4 (split; [vm_compute; reflexivity|]).
  intros [|]; vm_compute; split; reflexivity.
Qed.

(** What the detected switch does flush. The live buffer belongs to the
    Interviewer (role 0), the active speaker is a role other than the
    Other one, and the words of the next event all belong to the Other
    role, whose last recorded activity is more than
    [SPEAKER_SWITCH_THRESHOLD] = 1500 ms old. If the buffered text is
    due by the first or the second condition of [processQuestionBuffer]
    (it is complete, or a likely question at rest for
    [QUESTION_COMPLETION_PAUSE] = 2000 ms or more), then the text is
    handed to [emitCompleteQuestion] and the buffer is cleared while the
    first word is handled; the Other text is not put in the buffer, and
    the outcome is the same whether the event is final or not. *)
Lemma speaker_switch_flush
    (f now c : Z) (b : QuestionBuffer) (words : list Word) (isFinal : bool)
    (h : Helper) :
  firstSpeakerId h = Some f ->
  questionBuffer h = Some b ->
  speaker b = Some 0%Z ->
  currentActiveSpeaker h = Some c ->
  c <> 1%Z ->
  words <> [] ->
  allOther f words = true ->
  (SPEAKER_SWITCH_THRESHOLD < now - default 0 (lastSpeakerActivity h !! 1%Z))%Z ->
  isQuestionComplete (text b) = true
  \/ (QUESTION_COMPLETION_PAUSE <= now - lastUpdateTime b)%Z
     /\ isLikelyQuestion (text b) = true ->
  let h' := handleDiarizedTranscript words isFinal now h in
  questionBuffer h' = None
  /\ emitted h' = emitted (emitCompleteQuestion (text b) now h)
  /\ currentActiveSpeaker h' = Some 1%Z
  /\ h' = handleDiarizedTranscript words (negb isFinal) now h.
Proof.
  intros F Q B C N W A T D h'.
  assert (E : h' = handleDiarizedTranscript words (negb isFinal) now h).
  { subst h'. rewrite !(handleDiarizedTranscript_other f) by assumption. reflexivity. }
  split; [|split; [|split; [|exact E]]].
  all: subst h'; rewrite (handleDiarizedTranscript_other f) by assumption.
  all: destruct words as [|w r]; [contradiction|].
  all: simpl in A; apply andb_prop in A as [A1 A2].
  all: destruct (wspeaker w) as [o|] eqn:Ws; [|discriminate A1].
  all: assert (M : mapSpeaker (firstSpeakerId h) (wspeaker w) = Some 1%Z)
    by (rewrite F, Ws; simpl; destruct (o =? f)%Z; [discriminate A1 | reflexivity]).
  all: pose proof (handleSpeakerActivity_flush now c b h Q B C N T D) as (Q1 & E1 & C1).
  all: assert (H1 : helper (wordStep now (mkLoop [] None EmptyString h) w)
                    = handleSpeakerActivity (Some 1%Z) now h)
    by (unfold wordStep; simpl; rewrite M; reflexivity).
  all: pose proof (otherWords_no_buffer f now r
                     (wordStep now (mkLoop [] None EmptyString h) w) A2) as L.
  all: rewrite H1 in L.
  all: specialize (L ltac:(rewrite firstSpeakerId_handleSpeakerActivity; exact F)
                     Q1 C1
                     ltac:(unfold wordStep; simpl; rewrite M; reflexivity)
                     ltac:(unfold wordStep; simpl; rewrite M; reflexivity)).
  all: cbv zeta in L; destruct L as (Q2 & E2 & C2 & _).
  all: unfold segmentWords, setTimeout, send; simpl fold_left; cbv zeta.
  all: destruct (mainWindow _); simpl.
  all: first [exact Q2 | exact C2 | rewrite E2; exact E1].
Qed.

Lemma speaker_switch_flush_witness :
  let h := runSession
             [(100000%Z, EvTranscript "What is a hashmap?"
                           [spoken "What" 5; spoken "is" 5; spoken "a" 5;
                            spoken "hashmap?" 5] false);
              (100500%Z, EvTimer 1)]
             listening in
  let other := [spoken "I" 7; spoken "would" 7; spoken "use" 7; spoken "a" 7;
                spoken "hashmap" 7] in
  let h' := handleDiarizedTranscript other true 101700 h in
  questionBuffer h' = None
  /\ emitted h' = ["What is a hashmap?"]
  /\ h' = handleDiarizedTranscript other false 101700 h.
Proof.
  intros h other h'.
  destruct (speaker_switch_flush 5 101700 0
              (newBuffer "What is a hashmap?" (Some 0%Z) 100000)
              other true h) as (A & B & _ & C).
  - vm_compute; reflexivity.
  - vm_compute; reflexivity.
  - reflexivity.
  - vm_compute; reflexivity.
  - discriminate.
  - discriminate.
  - vm_compute; reflexivity.
  - vm_compute; reflexivity.
  - left. vm_compute; reflexivity.
  - split; [exact A|]. split; [|exact C].
    transitivity (emitted (emitCompleteQuestion
                             (text (newBuffer "What is a hashmap?" (Some 0%Z) 100000))
                             101700 h)); [exact B|].
    vm_compute; reflexivity.
Defined.

(** C5. The code does not flush on the speaker switch alone.  The
    buffer holds the Interviewer's text "tell me about your approach",
    the Interviewer is the active speaker and the Other speaker has not
    spoken yet; the words of the next event, 1700 ms later, all belong
    to the Other role.  [handleSpeakerActivity] detects the switch and
    runs [processQuestionBuffer], but before it makes the Other speaker
    the active one: the fourth condition of [processQuestionBuffer]
    (a speaker other than the buffer's is active) is evaluated on the
    old active speaker and is false, where it is true once the active
    speaker is updated.  Whether the event is final or not, nothing is
    emitted and the buffer stays; the text is emitted only when the
    completion timer expires. *)
Theorem speaker_switch_not_flushed :
  let h := runSession
             [(100000%Z, EvTranscript "tell me about your approach"
                           [spoken "tell" 5; spoken "me" 5; spoken "about" 5;
                            spoken "your" 5; spoken "approach" 5] false);
              (100500%Z, EvTimer 1)]
             listening in
  let other := [spoken "I" 7; spoken "would" 7; spoken "use" 7; spoken "a" 7;
                spoken "hashmap" 7] in
  let b := newBuffer "tell me about your approach" (Some 0%Z) 100000 in
  questionBuffer h = Some b
  /\ currentActiveSpeaker h = Some 0%Z
  /\ firstSpeakerId h = Some 5%Z
  /\ allOther 5 other = true
  /\ lastSpeakerActivity h !! 1%Z = None
  /\ shouldEmit b 101700 h = false
  /\ shouldEmit b 101700 (set_currentActiveSpeaker (Some 1%Z) h) = true
  /\ forall isFinal,
       let h' := handle 101700 (EvTranscript "I would use a hashmap" other isFinal) h in
       emitted h' = []
       /\ questionBuffer h' = Some b
       /\ currentActiveSpeaker h' = Some 1%Z
       /\ emitted (handle 102000 (EvTimer 0) h') = ["tell me about your approach"].
Proof.
  cbv zeta. do 7 (split; [vm_compute; reflexivity|]).
  intros [|]; vm_compute; repeat split; reflexivity.
Qed.

End SpeechFacts.

(** ** The dispatch coordinator *)

Module DispatchFacts.
Import Js JsFacts Dispatch.

(** *** Candidate speech *)

Lemma isValidInterviewQuestion_trim (t : string) :
  isValidInterviewQuestion (trim t) = isValidInterviewQuestion t.
Proof. unfold isValidInterviewQuestion. rewrite trim_idempotent. reflexivity. Qed.

Lemma candidate_not_valid (t : string) :
  hasCandidateIndicators (toLowerCase (trim t)) = true ->
  isValidInterviewQuestion t = false.
Proof.
  intros I. unfold isValidInterviewQuestion. rewrite I.
  destruct (String.length (trim t) <? 10)%nat; reflexivity.
Qed.

(** Every call ever started carries a valid interview question. *)
Definition startedValid (c : Coordinator) : Prop :=
  Forall (fun t => isValidInterviewQuestion t = true) (started c).

Lemma processNextInQueue_started (c : Coordinator) :
  started (processNextInQueue c) = started c
  /\ inFlight (processNextInQueue c) = inFlight c
  /\ sent (processNextInQueue c) = sent c
  /\ isCurrentlyProcessing (processNextInQueue c) = isCurrentlyProcessing c.
Proof.
  unfold processNextInQueue.
  destruct (processingQueue c) as [|n r]; [repeat split|].
  destruct (negb (isCurrentlyProcessing c)); [|repeat split].
  cbv zeta. destruct (negb (String.eqb n EmptyString)); repeat split.
Qed.

Lemma dispatch_startedValid (t : string) (now : Z) (c : Coordinator) :
  startedValid c -> startedValid (dispatch t now c).
Proof.
  unfold startedValid, dispatch. intros V.
  destruct (isValidInterviewQuestion t) eqn:I; simpl; [|exact V].
  destruct (processingHelper c); simpl.
  - apply Forall_app. split; [exact V|]. constructor; [exact I | constructor].
  - destruct (processNextInQueue_started
                (set_isCurrentlyProcessing false
                   (set_lastProcessed t now (set_isCurrentlyProcessing true c))))
      as (E & _).
    rewrite E. exact V.
Qed.

Lemma handleSpeechTranscription_startedValid (t : string) (now : Z) (c : Coordinator) :
  startedValid c -> startedValid (handleSpeechTranscription t now c).
Proof.
  intros V. unfold handleSpeechTranscription.
  destruct (String.length (trim t) <? 5)%nat; [exact V|].
  cbv zeta.
  destruct (String.eqb _ _ && _); [exact V|].
  destruct (isCurrentlyProcessing c).
  - destruct (30000 <? _)%Z; [|exact V].
    apply dispatch_startedValid. exact V.
  - apply dispatch_startedValid. exact V.
Qed.

Lemma handle_startedValid (now : Z) (e : Event) (c : Coordinator) :
  startedValid c -> startedValid (handle now e c).
Proof.
  intros V. destruct e as [t|i r|]; simpl.
  - apply handleSpeechTranscription_startedValid. exact V.
  - unfold settle. destruct (nth_error (inFlight c) i); [|exact V].
    unfold startedValid.
    destruct r as [resp|err]; cbv zeta;
      match goal with |- context [processNextInQueue ?x] =>
        destruct (processNextInQueue_started x) as (E & _); rewrite E
      end;
      unfold send; simpl; destruct (mainWindow c); exact V.
  - unfold resubmit. destruct (resubmissions c) as [|n r] eqn:R; [exact V|].
    apply handleSpeechTranscription_startedValid. exact V.
Qed.

Lemma run_startedValid (evs : list (Z * Event)) (c : Coordinator) :
  startedValid c -> startedValid (run evs c).
Proof.
  unfold run. revert c.
  induction evs as [|[now e] r IH]; intros c V; simpl; [exact V|].
  apply IH. apply handle_startedValid. exact V.
Qed.

(** C10. A transcript whose trimmed, lower-cased text contains a phrase
    of [candidateIndicators] is not a valid interview question, whatever
    else it contains; [handleSpeechTranscription] starts no backend call
    for it and sends nothing to the renderer, and in no run of the
    coordinator is a call ever started with its text. *)
Theorem candidate_speech_never_dispatched (t : string) (now : Z) (c : Coordinator) :
  hasCandidateIndicators (toLowerCase (trim t)) = true ->
  let c' := handleSpeechTranscription t now c in
  isValidInterviewQuestion t = false
  /\ started c' = started c
  /\ inFlight c' = inFlight c
  /\ sent c' = sent c
  /\ forall helper window evs,
       ~ In (trim t) (started (run evs (initialCoordinator helper window))).
Proof.
  intros I c'.
  assert (V : isValidInterviewQuestion (trim t) = false).
  { rewrite isValidInterviewQuestion_trim. apply candidate_not_valid. exact I. }
  split; [apply candidate_not_valid; exact I|].
  assert (D : forall x, dispatch (trim t) now x = x).
  { intros x. unfold dispatch. rewrite V. reflexivity. }
  assert (S : started c' = started c /\ inFlight c' = inFlight c /\ sent c' = sent c).
  { subst c'. unfold handleSpeechTranscription.
    destruct (String.length (trim t) <? 5)%nat; [repeat split|].
    cbv zeta.
    destruct (String.eqb _ _ && _); [repeat split|].
    rewrite !D.
    destruct (isCurrentlyProcessing c); [|repeat split].
    destruct (30000 <? _)%Z; repeat split. }
  destruct S as (S1 & S2 & S3).
  do 3 (split; [assumption|]).
  intros helper window evs H.
  assert (F : startedValid (run evs (initialCoordinator helper window))).
  { apply run_startedValid. constructor. }
  unfold startedValid in F. rewrite List.Forall_forall in F.
  specialize (F _ H). rewrite F in V. discriminate V.
Qed.

Lemma candidate_speech_never_dispatched_witness :
  let t := "So I think what we need here is a hashmap, right?" in
  let c := initialCoordinator true true in
  includes (trim t) "?" = true
  /\ started (handleSpeechTranscription t 1000 c) = []
  /\ started (handleSpeechTranscription "What do we need here, a hashmap?" 1000 c)
     = ["What do we need here, a hashmap?"].
Proof.
  intros t c.
  destruct (candidate_speech_never_dispatched t 1000 c) as (_ & A & _).
  - vm_compute; reflexivity.
  - split; [vm_compute; reflexivity|]. split; [exact A|]. vm_compute; reflexivity.
Defined.

(** *** Single flight *)

(** At most one call is awaited, and none when the lock is free. *)
Definition singleFlight (c : Coordinator) : Prop :=
  (length (inFlight c) <= 1)%nat
  /\ (isCurrentlyProcessing c = false -> inFlight c = []).

Lemma singleFlight_dispatch (t : string) (now : Z) (c : Coordinator) :
  isCurrentlyProcessing c = false ->
  singleFlight c -> singleFlight (dispatch t now c).
Proof.
  destruct c as [lt lT lock q ph mw fl st rs sn].
  unfold singleFlight, dispatch. cbn. intros -> [L E].
  rewrite (E eq_refl).
  destruct (isValidInterviewQuestion t); cbn; [|split; [lia|reflexivity]].
  destruct ph; cbn.
  - split; [lia | discriminate].
  - unfold processNextInQueue. cbn.
    destruct q as [|n r]; cbn; [split; [lia|reflexivity]|].
    destruct (negb (String.eqb n EmptyString)); cbn; split; (lia || reflexivity).
Qed.

Lemma singleFlight_handleSpeechTranscription (t : string) (now : Z) (c : Coordinator) :
  releasesLock t now c = false ->
  singleFlight c -> singleFlight (handleSpeechTranscription t now c).
Proof.
  unfold releasesLock, handleSpeechTranscription. intros R S.
  destruct (String.length (trim t) <? 5)%nat; [exact S|].
  cbv zeta.
  destruct (String.eqb _ _ && _); [exact S|].
  destruct (isCurrentlyProcessing c) eqn:L.
  - simpl in R. rewrite R. exact S.
  - apply singleFlight_dispatch; assumption.
Qed.

Lemma singleFlight_settle (i : nat) (r : string + string) (c : Coordinator) :
  singleFlight c -> singleFlight (settle i r c).
Proof.
  destruct c as [lt lT lock q ph mw fl st rs sn].
  unfold singleFlight, settle. cbn. intros [L E].
  destruct fl as [|x [|y fl]]; cbn in L; [ | | lia].
  - destruct i; cbn; split; auto.
  - destruct i as [|i]; cbn; [|destruct i; cbn; split; auto].
    destruct r as [resp|err]; unfold send, processNextInQueue; cbn;
      destruct mw; cbn; destruct q as [|n q']; cbn;
      try destruct (negb (String.eqb n EmptyString)); cbn;
      split; (lia || reflexivity).
Qed.

Lemma singleFlight_handle (now : Z) (e : Event) (c : Coordinator) :
  eventReleasesLock now e c = false ->
  singleFlight c -> singleFlight (handle now e c).
Proof.
  intros R S. destruct e as [t|i r|]; simpl in *.
  - apply singleFlight_handleSpeechTranscription; assumption.
  - apply singleFlight_settle. exact S.
  - unfold resubmit. destruct (resubmissions c) as [|n r]; [exact S|].
    apply singleFlight_handleSpeechTranscription; [exact R|exact S].
Qed.

Lemma singleFlight_run (evs : list (Z * Event)) (c : Coordinator) :
  noRelease evs c = true -> singleFlight c -> singleFlight (run evs c).
Proof.
  unfold run. revert c.
  induction evs as [|[now e] r IH]; intros c N S; simpl in *; [exact S|].
  apply andb_prop in N as [N1 N2].
  apply IH; [exact N2|].
  apply singleFlight_handle; [|exact S].
  destruct (eventReleasesLock now e c); [discriminate N1 | reflexivity].
Qed.

(** A transcript that arrives while the lock is held and does not
    release it joins the back of the queue. *)
Lemma handleSpeechTranscription_queues (t : string) (now : Z) (c : Coordinator) :
  isCurrentlyProcessing c = true ->
  (5 <= String.length (trim t))%nat ->
  ~ (trim t = lastProcessedText c /\ (now - lastProcessedTime c < DEBOUNCE_TIME)%Z) ->
  (now - lastProcessedTime c <= 30000)%Z ->
  handleSpeechTranscription t now c
  = set_processingQueue (processingQueue c ++ [trim t]) c.
Proof.
  intros L Len Dup T. unfold handleSpeechTranscription.
  destruct (Nat.ltb_spec (String.length (trim t)) 5) as [|_]; [lia|].
  cbv zeta.
  destruct (String.eqb_spec (trim t) (lastProcessedText c)) as [E|E];
    destruct (Z.ltb_spec (now - lastProcessedTime c) DEBOUNCE_TIME) as [D|D];
    simpl; try tauto;
    rewrite L;
    (destruct (Z.ltb_spec 30000 (now - lastProcessedTime c)) as [|_]; [lia|]);
    reflexivity.
Qed.

(** When the awaited call settles, the lock is released and the head of
    the queue leaves it for a re-submission. *)
Lemma settle_dequeues (r : string + string) (next : string) (rest : list string)
    (c : Coordinator) :
  singleFlight c ->
  inFlight c <> [] ->
  processingQueue c = next :: rest ->
  next <> EmptyString ->
  let c' := settle 0 r c in
  isCurrentlyProcessing c' = false
  /\ inFlight c' = []
  /\ processingQueue c' = rest
  /\ resubmissions c' = (resubmissions c ++ [next])%list.
Proof.
  destruct c as [lt lT lock q ph mw fl st rs sn].
  unfold singleFlight, settle. cbn. intros [L _] F -> N.
  destruct fl as [|x [|y fl]]; cbn in L; [contradiction | | lia].
  cbn. destruct (String.eqb_spec next EmptyString) as [|_]; [contradiction|].
  destruct r as [resp|err]; unfold send, processNextInQueue; cbn;
    destruct mw; cbn;
    (destruct (String.eqb_spec next EmptyString) as [|_]; [contradiction|]);
    cbn; repeat split.
Qed.

(** C1, as stated, fails: a second transcript that arrives more than
    30 s after the first one was dispatched releases the lock, and two
    calls are awaited at once. *)
Lemma single_flight_counterexample :
  let c := run [(100000%Z, EvTranscription "What is a hashmap?");
                (140000%Z, EvTranscription "How does a heap work?")]
               (initialCoordinator true true) in
  inFlight c = ["What is a hashmap?"; "How does a heap work?"]
  /\ processingQueue c = [].
Proof. vm_compute. split; reflexivity. Qed.

(** C1, amended. In a run in which no transcript releases a stuck lock
    (none is handled more than 30 s after the last dispatch while the
    lock is held), at most one backend call is awaited at any time and
    none while the lock is free. A transcript of five characters or
    more, not a duplicate within [DEBOUNCE_TIME], that arrives while the
    lock is held is appended to [processingQueue]. When the awaited call
    settles, with a response or an error, the lock is released and the
    head of the queue is removed and scheduled for re-submission. *)
Theorem single_flight_without_release
    (helper window : bool) (evs : list (Z * Event)) :
  noRelease evs (initialCoordinator helper window) = true ->
  let c := run evs (initialCoordinator helper window) in
  (length (inFlight c) <= 1)%nat
  /\ (isCurrentlyProcessing c = false -> inFlight c = [])
  /\ (forall t now,
        isCurrentlyProcessing c = true ->
        (5 <= String.length (trim t))%nat ->
        ~ (trim t = lastProcessedText c
           /\ (now - lastProcessedTime c < DEBOUNCE_TIME)%Z) ->
        (now - lastProcessedTime c <= 30000)%Z ->
        handleSpeechTranscription t now c
        = set_processingQueue (processingQueue c ++ [trim t]) c)
  /\ (forall r next rest,
        inFlight c <> [] ->
        processingQueue c = next :: rest ->
        next <> EmptyString ->
        isCurrentlyProcessing (settle 0 r c) = false
        /\ inFlight (settle 0 r c) = []
        /\ processingQueue (settle 0 r c) = rest
        /\ resubmissions (settle 0 r c) = (resubmissions c ++ [next])%list).
Proof.
  intros N c.
  assert (S : singleFlight c).
  { apply singleFlight_run; [exact N|]. split; [simpl; lia | reflexivity]. }
  split; [exact (proj1 S)|]. split; [exact (proj2 S)|].
  split.
  - intros t now. apply handleSpeechTranscription_queues.
  - intros r next rest F Q E. apply (settle_dequeues r next rest c S F Q E).
Qed.

Lemma single_flight_without_release_witness :
  let evs := [(100000%Z, EvTranscription "What is a hashmap?");
              (101000%Z, EvTranscription "How does a heap work?");
              (102000%Z, EvTranscription "Why is quicksort fast?");
              (103000%Z, EvSettled 0 (inl "A hashmap maps keys to values."))] in
  let c := run evs (initialCoordinator true true) in
  inFlight c = []
  /\ processingQueue c = ["Why is quicksort fast?"]
  /\ resubmissions c = ["How does a heap work?"].
Proof.
  intros evs c.
  destruct (single_flight_without_release true true evs) as (_ & A & _).
  - vm_compute; reflexivity.
  - split; [apply A; vm_compute; reflexivity|].
    split; vm_compute; reflexivity.
Defined.

(** A transcript that arrives between the settlement of a call and the
    re-submission of the dequeued transcript finds the lock free and is
    dispatched first; the dequeued transcript then finds the lock held
    and goes to the back of the queue, behind a transcript that was
    submitted after it. *)
Lemma resubmission_overtaken :
  let c := run [(100000%Z, EvTranscription "What is a hashmap?");
                (101000%Z, EvTranscription "How does a heap work?");
                (102000%Z, EvTranscription "Why is quicksort fast?");
                (103000%Z, EvSettled 0 (inl "A hashmap maps keys to values."));
                (103050%Z, EvTranscription "When would you use a trie?");
                (103100%Z, EvResubmit)]
               (initialCoordinator true true) in
  started c = ["What is a hashmap?"; "When would you use a trie?"]
  /\ processingQueue c = ["Why is quicksort fast?"; "How does a heap work?"].
Proof. vm_compute. split; reflexivity. Qed.

(** *** The stuck-call timeout *)

(** C6, as stated, fails: a call has been awaited for 40 s with a
    transcript in the queue; the next transcript releases the lock and
    is dispatched itself, and the queued transcript stays in the queue,
    neither dispatched nor scheduled. *)
Lemma stuck_call_counterexample :
  let c := run [(100000%Z, EvTranscription "What is a hashmap?");
                (101000%Z, EvTranscription "How does a heap work?")]
               (initialCoordinator true true) in
  let c' := handleSpeechTranscription "Why is quicksort fast?" 140000 c in
  isCurrentlyProcessing c = true
  /\ processingQueue c = ["How does a heap work?"]
  /\ started c' = ["What is a hashmap?"; "Why is quicksort fast?"]
  /\ processingQueue c' = ["How does a heap work?"]
  /\ resubmissions c' = [].
Proof. vm_compute. repeat split. Qed.

(** C6, amended. A transcript of five characters or more, not a
    duplicate within [DEBOUNCE_TIME], that arrives while the lock has
    been held for more than 30 s releases the lock and is handled as if
    no call were awaited: if it is a valid interview question and the
    processing helper is there, a call is started for it at once and the
    lock is taken again, the queue being left as it is; if it is not
    valid, the lock stays free and the queue is left as it is. *)
Theorem stuck_call_release (t : string) (now : Z) (c : Coordinator) :
  releasesLock t now c = true ->
  let c' := handleSpeechTranscription t now c in
  c' = handleSpeechTranscription t now (set_isCurrentlyProcessing false c)
  /\ (isValidInterviewQuestion t = true -> processingHelper c = true ->
      isCurrentlyProcessing c' = true
      /\ inFlight c' = (inFlight c ++ [trim t])%list
      /\ lastProcessedTime c' = now
      /\ processingQueue c' = processingQueue c)
  /\ (isValidInterviewQuestion t = false ->
      isCurrentlyProcessing c' = false
      /\ inFlight c' = inFlight c
      /\ processingQueue c' = processingQueue c).
Proof.
  destruct c as [lt lT lock q ph mw fl st rs sn].
  unfold releasesLock, handleSpeechTranscription.
  cbn -[Nat.ltb Z.ltb String.eqb trim dispatch].
  intros R.
  apply andb_prop in R as [R R4]. apply andb_prop in R as [R R3].
  apply andb_prop in R as [R1 R2].
  apply negb_true_iff in R1, R2.
  subst lock. rewrite R1, R2, R4.
  unfold dispatch. cbn -[isValidInterviewQuestion trim].
  rewrite isValidInterviewQuestion_trim.
  split; [reflexivity|].
  split.
  - intros V ->. rewrite V. cbn. repeat split.
  - intros V. rewrite V. cbn. repeat split.
Qed.

Lemma stuck_call_release_witness :
  let c := run [(100000%Z, EvTranscription "What is a hashmap?");
                (101000%Z, EvTranscription "How does a heap work?")]
               (initialCoordinator true true) in
  let c' := handleSpeechTranscription "Why is quicksort fast?" 140000 c in
  isCurrentlyProcessing c' = true
  /\ inFlight c' = ["What is a hashmap?"; "Why is quicksort fast?"]
  /\ processingQueue c' = ["How does a heap work?"].
Proof.
  intros c c'.
  destruct (stuck_call_release "Why is quicksort fast?" 140000 c) as (_ & A & _).
  - vm_compute; reflexivity.
  - destruct A as (A1 & A2 & _ & A4); [vm_compute; reflexivity ..|].
    split; [exact A1|]. split.
    + transitivity (inFlight c ++ [trim "Why is quicksort fast?"])%list; [exact A2|].
      vm_compute; reflexivity.
    + transitivity (processingQueue c); [exact A4|]. vm_compute; reflexivity.
Defined.

End DispatchFacts.

(** ** The conversation history *)

Module HistoryFacts.
Import History.

Lemma slice_first_two {A} (l : list A) :
  (2 <= length l)%nat -> slice l 0 (Some 2%Z) = take 2 l.
Proof.
  intros L. unfold slice, relativeIndex. simpl.
  rewrite Z.min_l by lia. rewrite Z.min_l by lia. reflexivity.
Qed.

Lemma slice_last_eighteen {A} (l : list A) :
  (18 <= length l)%nat ->
  slice l (- maxHistoryLength * 2 + 2)%Z None = drop (length l - 18) l.
Proof.
  intros L. change (- maxHistoryLength * 2 + 2)%Z with (-18)%Z.
  unfold slice, relativeIndex.
  change (-18 <? 0)%Z with true. cbv iota.
  rewrite Z.max_l by lia.
  replace (Z.to_nat (Z.of_nat (length l) + -18)) with (length l - 18)%nat by lia.
  apply take_ge. rewrite length_drop. lia.
Qed.

(** C7. After every append of a user/assistant exchange the history
    holds at most [2 * maxHistoryLength] = 20 turns. When the extended
    history is within that bound it is kept whole. Otherwise it is
    trimmed: its first two turns (the earliest pair) and its last 18
    turns (the most recent pairs, the new exchange among them) are kept
    in order, and what is removed is the non-empty run of turns between
    them. *)
Theorem pushExchange_bounded (history : list Turn) (transcript response : string) :
  let extended := (history ++ [mkTurn "user" transcript;
                               mkTurn "assistant" response])%list in
  let history' := pushExchange history transcript response in
  (Z.of_nat (length history') <= maxHistoryLength * 2)%Z
  /\ (length history' <= 20)%nat
  /\ ((length extended <= 20)%nat -> history' = extended)
  /\ ((20 < length extended)%nat ->
      exists middle,
        extended = (take 2 extended ++ middle
                    ++ drop (length extended - 18) extended)%list
        /\ history' = (take 2 extended ++ drop (length extended - 18) extended)%list
        /\ length (take 2 extended) = 2%nat
        /\ length (drop (length extended - 18) extended) = 18%nat
        /\ middle <> []
        /\ (2 <= length history -> take 2 extended = take 2 history)%nat).
Proof.
  intros extended history'.
  assert (Cases : ((length extended <= 20)%nat /\ history' = extended)
                  \/ ((20 < length extended)%nat
                      /\ history' = (take 2 extended
                                     ++ drop (length extended - 18) extended)%list)).
  { subst history'. unfold pushExchange. fold extended.
    destruct (Z.ltb_spec (maxHistoryLength * 2) (Z.of_nat (length extended)))
      as [L|L]; unfold maxHistoryLength in L.
    - right. split; [lia|].
      rewrite slice_first_two by lia. rewrite slice_last_eighteen by lia.
      reflexivity.
    - left. split; [lia | reflexivity]. }
  assert (Len : (length history' <= 20)%nat).
  { destruct Cases as [[L ->]|[L ->]]; [exact L|].
    rewrite length_app, length_take, length_drop. lia. }
  split; [unfold maxHistoryLength; lia|].
  split; [exact Len|].
  split.
  - intros L. destruct Cases as [[_ E]|[L' _]]; [exact E | lia].
  - intros L. destruct Cases as [[L' _]|[_ E]]; [lia|].
    exists (take (length extended - 20) (drop 2 extended)).
    split; [|split; [exact E|split; [|split; [|split]]]].
    + rewrite <- (take_drop 2 extended) at 1. f_equal.
      rewrite <- (take_drop (length extended - 20) (drop 2 extended)) at 1.
      f_equal. rewrite drop_drop. f_equal. lia.
    + rewrite length_take. lia.
    + rewrite length_drop. lia.
    + intros Z. apply (f_equal (@length Turn)) in Z.
      rewrite length_take, length_drop in Z. simpl in Z. lia.
    + intros L2. subst extended. apply take_app_le. exact L2.
Qed.

Definition exchange (n : string) : list Turn :=
  [mkTurn "user" ("question " ++ n); mkTurn "assistant" ("answer " ++ n)].

Lemma pushExchange_bounded_witness :
  let history := concat (map exchange ["1"; "2"; "3"; "4"; "5"; "6"; "7"; "8";
                                       "9"; "10"]) in
  pushExchange history "question 11" "answer 11"
  = concat (map exchange ["1"; "3"; "4"; "5"; "6"; "7"; "8"; "9"; "10"; "11"]).
Proof.
  intros history.
  destruct (pushExchange_bounded history "question 11" "answer 11")
    as (_ & _ & _ & T).
  destruct T as (middle & _ & E & _); [vm_compute; lia|].
  etransitivity; [exact E|]. vm_compute; reflexivity.
Defined.

(** *** JSON round trip *)

Lemma append_assoc (a b c : string) : ((a ++ b) ++ c = a ++ (b ++ c))%string.
Proof.
  induction a as [|x a IH]; [reflexivity|].
  change (String x ((a ++ b) ++ c) = String x (a ++ (b ++ c)))%string.
  f_equal. exact IH.
Qed.

(** The lexer reads back one escaped code unit. *)
Lemma lex_escapeChar (c : ascii) (rest : string) :
  lex true (escapeChar c ++ rest) = pushChar c (lex true rest).
Proof. destruct c as [[] [] [] [] [] [] [] []]; reflexivity. Qed.

Lemma lex_escape (s rest : string) :
  lex true (escape s ++ dquote ++ rest) = cons (TString s) <$> lex false rest.
Proof.
  induction s as [|c s IH]; simpl escape.
  - reflexivity.
  - rewrite append_assoc, lex_escapeChar, IH.
    destruct (lex false rest); reflexivity.
Qed.

Lemma lex_quote (s rest : string) :
  lex false (quote s ++ rest) = cons (TString s) <$> lex false rest.
Proof.
  unfold quote. rewrite !append_assoc.
  change (lex false (dquote ++ escape s ++ dquote ++ rest))
    with (lex true (escape s ++ dquote ++ rest)).
  apply lex_escape.
Qed.

Definition turnTokens (t : Turn) : list Token :=
  [TLBrace; TString "role"; TColon; TString (role t); TComma;
   TString "content"; TColon; TString (content t); TRBrace].

Lemma lex_turn (t : Turn) (rest : string) :
  lex false (("  " ++ stringifyTurn t) ++ rest)
  = app (turnTokens t) <$> lex false rest.
Proof.
  unfold stringifyTurn. rewrite !append_assoc.
  change (lex false ("  " ++ "{" ++ lf ++ "    " ++ quote "role" ++ ": "
                     ++ quote (role t) ++ "," ++ lf ++ "    " ++ quote "content"
                     ++ ": " ++ quote (content t) ++ lf ++ "  }" ++ rest))
    with (cons TLBrace <$>
          lex false (quote "role" ++ ": " ++ quote (role t) ++ "," ++ lf ++ "    "
                     ++ quote "content" ++ ": " ++ quote (content t) ++ lf
                     ++ "  }" ++ rest)).
  rewrite lex_quote.
  change (lex false (": " ++ quote (role t) ++ "," ++ lf ++ "    "
                     ++ quote "content" ++ ": " ++ quote (content t) ++ lf
                     ++ "  }" ++ rest))
    with (cons TColon <$>
          lex false (quote (role t) ++ "," ++ lf ++ "    " ++ quote "content"
                     ++ ": " ++ quote (content t) ++ lf ++ "  }" ++ rest)).
  rewrite lex_quote.
  change (lex false ("," ++ lf ++ "    " ++ quote "content" ++ ": "
                     ++ quote (content t) ++ lf ++ "  }" ++ rest))
    with (cons TComma <$>
          lex false (quote "content" ++ ": " ++ quote (content t) ++ lf
                     ++ "  }" ++ rest)).
  rewrite lex_quote.
  change (lex false (": " ++ quote (content t) ++ lf ++ "  }" ++ rest))
    with (cons TColon <$> lex false (quote (content t) ++ lf ++ "  }" ++ rest)).
  rewrite lex_quote.
  change (lex false (lf ++ "  }" ++ rest)) with (cons TRBrace <$> lex false rest).
  destruct (lex false rest); reflexivity.
Qed.

(** The tokens of the objects of a non-empty history, separated by
    commas. *)
Fixpoint turnsTokens (t : Turn) (h : list Turn) : list Token :=
  match h with
  | [] => turnTokens t
  | t' :: h' => (turnTokens t ++ TComma :: turnsTokens t' h')%list
  end.

Lemma lex_turns (t : Turn) (h : list Turn) (rest : string) :
  lex false (Js.join ("," ++ lf) (map (fun t => "  " ++ stringifyTurn t) (t :: h))
             ++ rest)
  = app (turnsTokens t h) <$> lex false rest.
Proof.
  revert t. induction h as [|t' h IH]; intros t.
  - simpl Js.join. simpl turnsTokens. apply lex_turn.
  - change (Js.join ("," ++ lf) (map (fun t => "  " ++ stringifyTurn t) (t :: t' :: h)))
      with (("  " ++ stringifyTurn t) ++ ("," ++ lf)
            ++ Js.join ("," ++ lf) (map (fun t => "  " ++ stringifyTurn t) (t' :: h))).
    rewrite append_assoc, lex_turn. rewrite append_assoc.
    change (lex false (("," ++ lf)
              ++ Js.join ("," ++ lf) (map (fun t => "  " ++ stringifyTurn t) (t' :: h))
              ++ rest))
      with (cons TComma <$>
            lex false (Js.join ("," ++ lf)
                         (map (fun t => "  " ++ stringifyTurn t) (t' :: h)) ++ rest)).
    rewrite IH. simpl turnsTokens.
    destruct (lex false rest) as [toks|]; [|reflexivity].
    change (Some (turnTokens t ++ TComma :: turnsTokens t' h ++ toks)%list
            = Some ((turnTokens t ++ TComma :: turnsTokens t' h) ++ toks)%list).
    rewrite <- List.app_assoc. reflexivity.
Qed.

Definition historyTokens (h : list Turn) : list Token :=
  match h with
  | [] => [TLBracket; TRBracket]
  | t :: h' => (TLBracket :: turnsTokens t h' ++ [TRBracket])%list
  end.

Lemma lex_history (h : list Turn) :
  lex false (stringifyHistory h) = Some (historyTokens h).
Proof.
  destruct h as [|t h]; [reflexivity|].
  unfold stringifyHistory.
  change (lex false ("[" ++ lf
            ++ Js.join ("," ++ lf) (map (fun t => "  " ++ stringifyTurn t) (t :: h))
            ++ lf ++ "]"))
    with (cons TLBracket <$>
          lex false (Js.join ("," ++ lf)
                       (map (fun t => "  " ++ stringifyTurn t) (t :: h))
                     ++ lf ++ "]")).
  rewrite lex_turns. reflexivity.
Qed.

Lemma parse_turn (x : Expect) (els : list Json) (t : Turn) (toks : list Token) :
  x = XValue \/ x = XValueOrClose ->
  parseTokens x [FArray els] (turnTokens t ++ toks)
  = parseTokens XCommaOrClose [FArray (turnValue t :: els)] toks.
Proof. intros [-> | ->]; reflexivity. Qed.

Lemma parse_turns (x : Expect) (els : list Json) (t : Turn) (h : list Turn) :
  x = XValue \/ x = XValueOrClose ->
  parseTokens x [FArray els] (turnsTokens t h ++ [TRBracket])
  = Some (JArray (rev els ++ map turnValue (t :: h))).
Proof.
  revert x els t. induction h as [|t' h IH]; intros x els t X.
  - change (turnsTokens t []) with (turnTokens t).
    rewrite (parse_turn x els t [TRBracket] X). reflexivity.
  - change (turnsTokens t (t' :: h) ++ [TRBracket])%list
      with (turnTokens t ++ TComma :: (turnsTokens t' h ++ [TRBracket]))%list.
    rewrite (parse_turn x els t _ X).
    change (parseTokens XCommaOrClose [FArray (turnValue t :: els)]
              (TComma :: (turnsTokens t' h ++ [TRBracket])))
      with (parseTokens XValue [FArray (turnValue t :: els)]
              (turnsTokens t' h ++ [TRBracket])).
    rewrite (IH XValue (turnValue t :: els) t' (or_introl eq_refl)).
    change (rev (turnValue t :: els)) with (rev els ++ [turnValue t])%list.
    rewrite <- List.app_assoc. reflexivity.
Qed.

Lemma JSON_parse_stringify (h : list Turn) :
  JSON_parse (stringifyHistory h) = Some (historyValue h).
Proof.
  unfold JSON_parse. rewrite lex_history.
  destruct h as [|t h]; [reflexivity|].
  unfold historyTokens.
  change (parseTokens XValue [] (TLBracket :: turnsTokens t h ++ [TRBracket]))
    with (parseTokens XValueOrClose [FArray []] (turnsTokens t h ++ [TRBracket])).
  rewrite (parse_turns XValueOrClose [] t h (or_intror eq_refl)). reflexivity.
Qed.

Lemma asHistory_historyValue (h : list Turn) : asHistory (historyValue h) = Some h.
Proof.
  unfold historyValue. simpl.
  induction h as [|[r c] h IH]; [reflexivity|].
  simpl. simpl in IH. rewrite IH. reflexivity.
Qed.

(** C9. When the history file can be written and read, saving a
    history and loading it back gives, whatever the file held before and
    whatever the history in memory at the time of the load, the value of
    the saved history: the same turns, with the same roles and
    contents, in the same order. *)
Theorem save_load_roundtrip (history current : list Turn) (fs : FileSystem) :
  writable fs = true ->
  readable fs = true ->
  let loaded := loadConversationHistory current (saveConversationHistory history fs) in
  loaded = historyValue history
  /\ asHistory loaded = Some history.
Proof.
  intros W R loaded.
  assert (E : loaded = historyValue history).
  { subst loaded. unfold loadConversationHistory, saveConversationHistory.
    rewrite W. simpl. rewrite R, JSON_parse_stringify. reflexivity. }
  split; [exact E|]. rewrite E. apply asHistory_historyValue.
Qed.

Lemma save_load_roundtrip_witness :
  let history := [mkTurn "user" ("What is a " ++ dquote ++ "heap" ++ dquote ++ "?");
                  mkTurn "assistant" ("A tree." ++ lf ++ "Each parent <= its children.")] in
  let fs := mkFileSystem (Some "{not json") true true in
  asHistory (loadConversationHistory [] (saveConversationHistory history fs))
  = Some history.
Proof.
  intros history fs.
  exact (proj2 (save_load_roundtrip history [] fs eq_refl eq_refl)).
Defined.

End HistoryFacts.


(** * Further properties of the code *)

(** ** The life of the helper: sessions started and stopped *)


Module LifecycleFacts.
Import Js JsFacts Speech SpeechFacts Lifecycle.

(** *** What the helper emits *)

Definition emitsQuestions (h : Helper) : Prop :=
  Forall (fun t => isLikelyQuestion t = true) (emitted h).

Lemma emitsQuestions_same (h h' : Helper) :
  emitted h' = emitted h -> emitsQuestions h -> emitsQuestions h'.
Proof. unfold emitsQuestions. intros ->. exact id. Qed.

Lemma emitted_send (ch pl : string) (h : Helper) : emitted (send ch pl h) = emitted h.
Proof. unfold send. destruct (mainWindow h); reflexivity. Qed.

Lemma emitted_resetVADState (h : Helper) : emitted (resetVADState h) = emitted h.
Proof.
  unfold resetVADState. cbv zeta. destruct (questionCompletionTimer _); reflexivity.
Qed.

Lemma emitted_updateQuestionBuffer
    (txt : string) (spk : option Z) (isFinal : bool) (now : Z) (h : Helper) :
  emitted (updateQuestionBuffer txt spk isFinal now h) = emitted h.
Proof.
  unfold updateQuestionBuffer, armCompletionTimer, setTimeout.
  destruct (questionBuffer h) as [b|].
  - destruct (isNull spk || sameSpeaker spk (speaker b)).
    + destruct (questionCompletionTimer _); destruct isFinal; reflexivity.
    + destruct (isFinal && _); reflexivity.
  - destruct (isLikelyQuestion txt); destruct (isFinal && _); reflexivity.
Qed.

Lemma emitsQuestions_emitCompleteQuestion (txt : string) (now : Z) (h : Helper) :
  emitsQuestions h -> emitsQuestions (emitCompleteQuestion txt now h).
Proof.
  unfold emitsQuestions, emitCompleteQuestion. intros E.
  destruct (String.length (trim txt) =? 0)%nat; [exact E|].
  cbv zeta.
  destruct (isLikelyQuestion (trim txt)) eqn:L; simpl; [|exact E].
  destruct (String.eqb _ _ && _); [exact E|].
  simpl. apply Forall_app. split; [exact E|].
  constructor; [exact L | constructor].
Qed.

Lemma emitsQuestions_processQuestionBuffer (now : Z) (h : Helper) :
  emitsQuestions h -> emitsQuestions (processQuestionBuffer now h).
Proof.
  unfold processQuestionBuffer. intros E.
  destruct (questionBuffer h) as [b|]; [|exact E].
  destruct (shouldEmit b now h); [|exact E].
  cbv zeta.
  apply (emitsQuestions_emitCompleteQuestion (text b) now) in E.
  destruct (questionCompletionTimer _); exact E.
Qed.

Lemma emitsQuestions_handleSpeakerActivity (spk : option Z) (now : Z) (h : Helper) :
  emitsQuestions h -> emitsQuestions (handleSpeakerActivity spk now h).
Proof.
  unfold handleSpeakerActivity. intros E.
  destruct spk as [sp|]; [|exact E].
  cbv zeta.
  set (h1 := set_lastSpeakerActivity _ h).
  assert (E1 : emitsQuestions h1) by exact E.
  destruct (_ && _ && _); [|exact E].
  destruct (_ && _); [|exact E].
  apply (emitsQuestions_same (processQuestionBuffer now h1)); [reflexivity|].
  exact (emitsQuestions_processQuestionBuffer now h1 E1).
Qed.

Lemma emitsQuestions_words (now : Z) (words : list Word) (l : Loop) :
  emitsQuestions (helper l) ->
  emitsQuestions (helper (fold_left (wordStep now) words l)).
Proof.
  revert l. induction words as [|w r IH]; intros l E; simpl; [exact E|].
  apply IH. unfold wordStep. simpl.
  destruct (isNull _); [exact E|].
  apply emitsQuestions_handleSpeakerActivity. exact E.
Qed.

Lemma emitsQuestions_handleDiarizedTranscript
    (words : list Word) (isFinal : bool) (now : Z) (h : Helper) :
  emitsQuestions h -> emitsQuestions (handleDiarizedTranscript words isFinal now h).
Proof.
  intros E. unfold handleDiarizedTranscript.
  destruct (segmentWords words now (identifyFirstSpeaker words h)) as [segs h2] eqn:SW.
  assert (E2 : emitsQuestions h2).
  { unfold segmentWords in SW. injection SW as _ <-.
    apply emitsQuestions_words. simpl. revert E. apply emitsQuestions_same.
    unfold identifyFirstSpeaker.
    destruct (firstSpeakerId h); [reflexivity|].
    destruct (firstDefinedSpeaker words); reflexivity. }
  revert E2. apply emitsQuestions_same.
  match goal with
  | |- emitted (snd (setTimeout _ _ _ ?X)) = _ => transitivity (emitted X); [reflexivity|]
  end.
  destruct (0 <? length _)%nat.
  - rewrite emitted_updateQuestionBuffer. apply emitted_send.
  - apply emitted_send.
Qed.

Lemma emitsQuestions_handle (now : Z) (e : Event) (h : Helper) :
  emitsQuestions h -> emitsQuestions (handle now e h).
Proof.
  intros E. destruct e as [|t ws f|tid|t|m|]; simpl.
  - revert E. apply emitsQuestions_same. rewrite emitted_send. reflexivity.
  - unfold onTranscript.
    destruct (negb _); [|exact E].
    destruct (_ && _).
    + apply emitsQuestions_handleDiarizedTranscript. exact E.
    + revert E. apply emitsQuestions_same.
      unfold handleNonDiarizedTranscript.
      destruct (negb (processingDiarizedTranscript _)).
      * rewrite emitted_updateQuestionBuffer. apply emitted_send.
      * apply emitted_send.
  - unfold fireTimer. destruct (findTimer tid h) as [[d cb]|]; [|exact E].
    destruct cb; simpl; [|exact E].
    apply emitsQuestions_processQuestionBuffer. exact E.
  - unfold processTranscript.
    destruct (String.eqb (trim t) EmptyString); [exact E|].
    destruct (String.eqb t _ && _); [exact E|].
    destruct (isLikelyQuestion t) eqn:L; simpl; [|exact E].
    apply Forall_app. split; [exact E|]. constructor; [exact L | constructor].
  - revert E. apply emitsQuestions_same. rewrite emitted_send. reflexivity.
  - revert E. apply emitsQuestions_same. rewrite emitted_send. reflexivity.
Qed.

Lemma emitted_startListening (ok : bool) (h : Helper) :
  emitted (snd (startListening ok h)) = emitted h.
Proof.
  unfold startListening. destruct (isListening h || negb _); [reflexivity|].
  destruct ok; reflexivity.
Qed.

Lemma emitsQuestions_execute (c : Command) (h : Helper) :
  emitsQuestions h -> emitsQuestions (execute h c).
Proof.
  intros E. destruct c as [ok|ok|now e]; simpl.
  - revert E. apply emitsQuestions_same.
    unfold startSpeechRecognition.
    rewrite emitted_startListening. apply emitted_resetVADState.
  - revert E. apply emitsQuestions_same. unfold stopListening.
    destruct (negb _ || negb _); [reflexivity|].
    destruct ok; [|reflexivity].
    change (emitted (resetVADState (set_processedTranscriptIds ∅ (set_isListening false h)))
            = emitted (set_processedTranscriptIds ∅ (set_isListening false h))).
    apply emitted_resetVADState.
  - apply emitsQuestions_handle. exact E.
Qed.

(** X1. Whatever requests and events the helper receives from its
    creation on, every text it emits as a [transcription] passes
    [isLikelyQuestion]; in particular it has at least three characters
    once trimmed. *)
Theorem helper_emits_only_likely_questions
    (client window : bool) (cs : list Command) :
  Forall (fun t => isLikelyQuestion t = true /\ (3 <= String.length (trim t))%nat)
         (emitted (runCommands cs (initialHelper client window))).
Proof.
  assert (E : emitsQuestions (runCommands cs (initialHelper client window))).
  { unfold runCommands.
    generalize (initialHelper client window), (Forall_nil_2 (fun t => isLikelyQuestion t = true)
                                                 : emitsQuestions (initialHelper client window)).
    induction cs as [|c r IH]; intros h E; simpl; [exact E|].
    apply IH. apply emitsQuestions_execute. exact E. }
  unfold emitsQuestions in E.
  eapply Forall_impl; [exact E|].
  intros t L. split; [exact L | apply isLikelyQuestion_length; exact L].
Qed.

(** *** The buffer and its completion timer *)

(** The completion-timer handle is set exactly while a buffer is live,
    and a live buffer belongs to no speaker or to the Interviewer. *)
Definition bufferInv (h : Helper) : Prop :=
  (questionBuffer h = None <-> questionCompletionTimer h = None)
  /\ (forall b, questionBuffer h = Some b ->
                speaker b = None \/ speaker b = Some 0%Z).

Ltac break_helper h :=
  destruct h as [cl li tcp mw lpt lpT pd ids let_ leT fs qb qt act cur sil em sn tm nid].

Ltac frozen_cbn :=
  cbn -[isLikelyQuestion isQuestionComplete shouldEmit trim String.eqb
        Z.ltb Z.leb Nat.ltb Nat.eqb filter lookup insert].

Lemma bufferInv_emitCompleteQuestion (txt : string) (now : Z) (h : Helper) :
  bufferInv h -> bufferInv (emitCompleteQuestion txt now h).
Proof.
  break_helper h. unfold bufferInv, emitCompleteQuestion. frozen_cbn.
  intros I.
  repeat match goal with |- context [if ?x then _ else _] => destruct x end;
    frozen_cbn; exact I.
Qed.

Lemma bufferInv_processQuestionBuffer (now : Z) (h : Helper) :
  bufferInv h -> bufferInv (processQuestionBuffer now h).
Proof.
  intros I. unfold processQuestionBuffer.
  destruct (questionBuffer h) as [b|] eqn:Q; [|exact I].
  destruct (shouldEmit b now h); [|exact I].
  cbv zeta.
  pose proof (bufferInv_emitCompleteQuestion (text b) now h I) as I'.
  revert I'. generalize (emitCompleteQuestion (text b) now h). intros h' _.
  break_helper h'. unfold bufferInv. frozen_cbn.
  destruct qt; frozen_cbn; split; try tauto; intros b0 [=].
Qed.

Lemma bufferInv_handleSpeakerActivity (spk : option Z) (now : Z) (h : Helper) :
  bufferInv h -> bufferInv (handleSpeakerActivity spk now h).
Proof.
  unfold handleSpeakerActivity. intros I.
  destruct spk as [sp|]; [|exact I].
  cbv zeta.
  set (h1 := set_lastSpeakerActivity _ h).
  assert (I1 : bufferInv h1) by exact I.
  destruct (_ && _ && _); [|exact I].
  destruct (_ && _); [|exact I].
  exact (bufferInv_processQuestionBuffer now h1 I1).
Qed.

Lemma bufferInv_words (now : Z) (words : list Word) (l : Loop) :
  bufferInv (helper l) -> bufferInv (helper (fold_left (wordStep now) words l)).
Proof.
  revert l. induction words as [|w r IH]; intros l I; simpl; [exact I|].
  apply IH. unfold wordStep. simpl.
  destruct (isNull _); [exact I|].
  apply bufferInv_handleSpeakerActivity. exact I.
Qed.

Lemma bufferInv_updateQuestionBuffer
    (txt : string) (spk : option Z) (isFinal : bool) (now : Z) (h : Helper) :
  spk = None \/ spk = Some 0%Z ->
  bufferInv h -> bufferInv (updateQuestionBuffer txt spk isFinal now h).
Proof.
  break_helper h.
  unfold bufferInv, updateQuestionBuffer, armCompletionTimer, setTimeout, newBuffer.
  frozen_cbn. intros S [I1 I2].
  destruct qb as [b|]; frozen_cbn.
  - destruct (isNull spk || sameSpeaker spk (speaker b)); frozen_cbn.
    + destruct qt; frozen_cbn; destruct isFinal; frozen_cbn;
        (split; [split; discriminate|]); intros b0 [= <-]; frozen_cbn;
        apply (I2 b eq_refl).
    + destruct isFinal; frozen_cbn; split; assumption.
  - destruct (isLikelyQuestion txt); frozen_cbn.
    + destruct isFinal; frozen_cbn;
        (split; [split; discriminate|]); intros b0 [= <-]; exact S.
    + rewrite andb_false_r. split; assumption.
Qed.

Lemma bufferInv_same (h h' : Helper) :
  questionBuffer h' = questionBuffer h ->
  questionCompletionTimer h' = questionCompletionTimer h ->
  bufferInv h -> bufferInv h'.
Proof. unfold bufferInv. intros -> ->. exact id. Qed.

Lemma bufferInv_send (ch pl : string) (h : Helper) :
  bufferInv h -> bufferInv (send ch pl h).
Proof.
  apply bufferInv_same; unfold send; destruct (mainWindow h); reflexivity.
Qed.

Lemma bufferInv_resetVADState (h : Helper) : bufferInv (resetVADState h).
Proof.
  break_helper h. unfold bufferInv, resetVADState. frozen_cbn.
  destruct qt; frozen_cbn; split; try tauto; intros b [=].
Qed.

Lemma bufferInv_handleDiarizedTranscript
    (words : list Word) (isFinal : bool) (now : Z) (h : Helper) :
  bufferInv h -> bufferInv (handleDiarizedTranscript words isFinal now h).
Proof.
  intros I. unfold handleDiarizedTranscript.
  destruct (segmentWords words now (identifyFirstSpeaker words h)) as [segs h2] eqn:SW.
  assert (I2 : bufferInv h2).
  { unfold segmentWords in SW. injection SW as _ <-.
    apply bufferInv_words. simpl. revert I. apply bufferInv_same;
      unfold identifyFirstSpeaker;
      (destruct (firstSpeakerId h); [reflexivity|]);
      destruct (firstDefinedSpeaker words); reflexivity. }
  match goal with
  | |- bufferInv (snd (setTimeout _ _ _ ?X)) =>
      apply (bufferInv_same X); [reflexivity | reflexivity |]
  end.
  destruct (0 <? length _)%nat.
  - apply bufferInv_updateQuestionBuffer; [right; reflexivity|].
    apply bufferInv_send. exact I2.
  - apply bufferInv_send. exact I2.
Qed.

Lemma bufferInv_handle (now : Z) (e : Event) (h : Helper) :
  bufferInv h -> bufferInv (handle now e h).
Proof.
  intros I. destruct e as [|t ws f|tid|t|m|]; simpl.
  - apply bufferInv_send. exact I.
  - unfold onTranscript.
    destruct (negb _); [|exact I].
    destruct (_ && _).
    + apply bufferInv_handleDiarizedTranscript. exact I.
    + unfold handleNonDiarizedTranscript.
      destruct (negb (processingDiarizedTranscript _)).
      * apply bufferInv_updateQuestionBuffer; [left; reflexivity|].
        apply bufferInv_send. exact I.
      * apply bufferInv_send. exact I.
  - unfold fireTimer. destruct (findTimer tid h) as [[d cb]|]; [|exact I].
    destruct cb; simpl; [|exact I].
    apply bufferInv_processQuestionBuffer. exact I.
  - revert I. apply bufferInv_same; unfold processTranscript;
      repeat match goal with |- context [if ?x then _ else _] => destruct x end;
      reflexivity.
  - apply bufferInv_send. exact I.
  - apply bufferInv_send. exact I.
Qed.

Lemma bufferInv_startListening (ok : bool) (h : Helper) :
  bufferInv h -> bufferInv (snd (startListening ok h)).
Proof.
  unfold startListening. destruct (isListening h || negb _); [exact id|].
  destruct ok; apply bufferInv_same; reflexivity.
Qed.

Lemma bufferInv_execute (c : Command) (h : Helper) :
  bufferInv h -> bufferInv (execute h c).
Proof.
  intros I. destruct c as [ok|ok|now e]; simpl.
  - unfold startSpeechRecognition.
    apply bufferInv_startListening, bufferInv_resetVADState.
  - unfold stopListening.
    destruct (negb _ || negb _); [exact I|].
    destruct ok; [|exact I].
    change (bufferInv (resetVADState
                         (set_processedTranscriptIds ∅ (set_isListening false h)))).
    apply bufferInv_resetVADState.
  - apply bufferInv_handle. exact I.
Qed.

(** X2. Whatever requests and events the helper receives from its
    creation on, the completion-timer handle is set exactly while a
    question buffer is live, and a live buffer belongs to no speaker or to
    the Interviewer (role 0), never to the Other role. *)
Theorem buffer_timer_invariant (client window : bool) (cs : list Command) :
  let h := runCommands cs (initialHelper client window) in
  (questionBuffer h = None <-> questionCompletionTimer h = None)
  /\ (forall b, questionBuffer h = Some b ->
                speaker b = None \/ speaker b = Some 0%Z).
Proof.
  cbv zeta. change (bufferInv (runCommands cs (initialHelper client window))).
  unfold runCommands.
  assert (I : bufferInv (initialHelper client window)).
  { split; [split; reflexivity | intros b [=]]. }
  revert I. generalize (initialHelper client window).
  induction cs as [|c r IH]; intros h I; simpl; [exact I|].
  apply IH. apply bufferInv_execute. exact I.
Qed.

(** *** The role of a buffer *)

Lemma questionBuffer_send (ch pl : string) (h : Helper) :
  questionBuffer (send ch pl h) = questionBuffer h.
Proof. unfold send. destruct (mainWindow h); reflexivity. Qed.

Lemma questionBuffer_processQuestionBuffer (now : Z) (h : Helper) :
  questionBuffer (processQuestionBuffer now h) = questionBuffer h
  \/ questionBuffer (processQuestionBuffer now h) = None.
Proof.
  unfold processQuestionBuffer.
  destruct (questionBuffer h) as [b|] eqn:Q; [|left; exact Q].
  destruct (shouldEmit b now h); [|left; exact Q].
  right. cbv zeta. destruct (questionCompletionTimer _); reflexivity.
Qed.

(** The activity of a speaker leaves the buffer as it is, or flushes the
    buffer of the Interviewer. *)
Lemma questionBuffer_handleSpeakerActivity (spk : option Z) (now : Z) (h : Helper) :
  questionBuffer (handleSpeakerActivity spk now h) = questionBuffer h
  \/ (questionBuffer (handleSpeakerActivity spk now h) = None
      /\ isInterviewerBuffer h = true).
Proof.
  unfold handleSpeakerActivity.
  destruct spk as [sp|]; [|left; reflexivity].
  cbv zeta.
  set (h1 := set_lastSpeakerActivity _ h).
  destruct (_ && _ && _); [|left; reflexivity].
  change (isInterviewerBuffer h1) with (isInterviewerBuffer h).
  destruct (isInterviewerBuffer h) eqn:IB; simpl; [|left; reflexivity].
  destruct (sp =? 1)%Z; [|left; reflexivity].
  destruct (questionBuffer_processQuestionBuffer now h1) as [E|E].
  - left. exact E.
  - right. split; [exact E | reflexivity].
Qed.

Lemma questionBuffer_words (now : Z) (words : list Word) (l : Loop) :
  let h' := helper (fold_left (wordStep now) words l) in
  questionBuffer h' = questionBuffer (helper l)
  \/ (questionBuffer h' = None /\ isInterviewerBuffer (helper l) = true).
Proof.
  revert l. induction words as [|w r IH]; intros l; simpl; [left; reflexivity|].
  specialize (IH (wordStep now l w)). cbv zeta in IH.
  assert (S : questionBuffer (helper (wordStep now l w)) = questionBuffer (helper l)
              \/ (questionBuffer (helper (wordStep now l w)) = None
                  /\ isInterviewerBuffer (helper l) = true)).
  { unfold wordStep. simpl. destruct (isNull _); [left; reflexivity|].
    apply questionBuffer_handleSpeakerActivity. }
  destruct S as [S|[S1 S2]].
  - destruct IH as [IH|[IH1 IH2]].
    + left. rewrite IH. exact S.
    + right. split; [exact IH1|].
      unfold isInterviewerBuffer in *. rewrite <- S. exact IH2.
  - right. split; [|exact S2].
    destruct IH as [IH|[IH1 _]]; [rewrite IH; exact S1 | exact IH1].
Qed.

Lemma updateQuestionBuffer_keeps_role
    (txt : string) (spk : option Z) (isFinal : bool) (now : Z) (h : Helper)
    (b b' : QuestionBuffer) :
  questionBuffer h = Some b ->
  questionBuffer (updateQuestionBuffer txt spk isFinal now h) = Some b' ->
  speaker b' = speaker b.
Proof.
  break_helper h.
  unfold updateQuestionBuffer, armCompletionTimer, setTimeout, newBuffer.
  frozen_cbn. intros ->.
  destruct (isNull spk || sameSpeaker spk (speaker b)); frozen_cbn.
  - destruct qt; frozen_cbn; destruct isFinal; frozen_cbn; intros [= <-]; reflexivity.
  - destruct isFinal; frozen_cbn; intros [= <-]; reflexivity.
Qed.

Lemma updateQuestionBuffer_new_role
    (txt : string) (spk : option Z) (isFinal : bool) (now : Z) (h : Helper)
    (b' : QuestionBuffer) :
  questionBuffer h = None ->
  questionBuffer (updateQuestionBuffer txt spk isFinal now h) = Some b' ->
  speaker b' = spk.
Proof.
  break_helper h.
  unfold updateQuestionBuffer, armCompletionTimer, setTimeout, newBuffer.
  frozen_cbn. intros ->.
  destruct (isLikelyQuestion txt); frozen_cbn.
  - destruct isFinal; frozen_cbn; intros [= <-]; reflexivity.
  - rewrite andb_false_r. discriminate.
Qed.

(** X3. The role of a buffer is fixed when it is created: if a buffer is
    live before an event of the session and a buffer is live after it,
    both belong to the same speaker. A transcript without speakers
    replaces the text of the Interviewer's buffer and leaves its role; a
    buffer without a speaker is not touched by the Interviewer's words. *)
Theorem buffer_role_fixed (now : Z) (e : Event) (h : Helper) (b b' : QuestionBuffer) :
  questionBuffer h = Some b ->
  questionBuffer (handle now e h) = Some b' ->
  speaker b' = speaker b.
Proof.
  intros Q Q'. destruct e as [|t ws f|tid|t|m|]; simpl in Q'.
  - rewrite questionBuffer_send in Q'. simpl in Q'. congruence.
  - unfold onTranscript in Q'.
    destruct (negb _); [|congruence].
    destruct (_ && _).
    + unfold handleDiarizedTranscript in Q'.
      destruct (segmentWords ws now _) as [segs h2] eqn:SW.
      assert (L : questionBuffer h2 = Some b
                  \/ (questionBuffer h2 = None /\ speaker b = Some 0%Z)).
      { unfold segmentWords in SW. injection SW as _ <-.
        destruct (questionBuffer_words now ws
                    (mkLoop [] None EmptyString
                       (identifyFirstSpeaker ws (set_processingDiarizedTranscript true h))))
          as [E|[E1 E2]]; simpl in *.
        - left. rewrite E.
          unfold identifyFirstSpeaker. simpl.
          destruct (firstSpeakerId h); [exact Q|].
          destruct (firstDefinedSpeaker ws); exact Q.
        - right. split; [exact E1|].
          assert (Q2 : questionBuffer
                         (identifyFirstSpeaker ws (set_processingDiarizedTranscript true h))
                       = Some b).
          { unfold identifyFirstSpeaker. simpl.
            destruct (firstSpeakerId h); [exact Q|].
            destruct (firstDefinedSpeaker ws); exact Q. }
          unfold isInterviewerBuffer in E2. rewrite Q2 in E2.
          destruct (speaker b) as [[| |]|]; simpl in E2; try discriminate E2.
          reflexivity. }
      match type of Q' with
      | questionBuffer (snd (setTimeout _ _ _ ?X)) = _ =>
          change (questionBuffer X = Some b') in Q'
      end.
      destruct (0 <? length _)%nat.
      * destruct L as [L|[L1 L2]].
        -- eapply updateQuestionBuffer_keeps_role; [|exact Q'].
           rewrite questionBuffer_send. exact L.
        -- rewrite L2. eapply updateQuestionBuffer_new_role; [|exact Q'].
           rewrite questionBuffer_send. exact L1.
      * rewrite questionBuffer_send in Q'.
        destruct L as [L|[L1 _]]; congruence.
    + unfold handleNonDiarizedTranscript in Q'.
      destruct (negb (processingDiarizedTranscript _)).
      * eapply updateQuestionBuffer_keeps_role; [|exact Q'].
        rewrite questionBuffer_send. exact Q.
      * rewrite questionBuffer_send in Q'. congruence.
  - unfold fireTimer in Q'. destruct (findTimer tid h) as [[d cb]|]; [|congruence].
    destruct cb; simpl in Q'; [|congruence].
    destruct (questionBuffer_processQuestionBuffer now (clearTimeout tid h)) as [E|E];
      rewrite E in Q'; simpl in Q'; congruence.
  - unfold processTranscript in Q'.
    repeat match type of Q' with context [if ?x then _ else _] => destruct x end;
      simpl in Q'; congruence.
  - rewrite questionBuffer_send in Q'. simpl in Q'. congruence.
  - rewrite questionBuffer_send in Q'. simpl in Q'. congruence.
Qed.

Lemma buffer_role_fixed_witness :
  let h := runSession
             [(100000%Z, EvTranscript "What is a hashmap?"
                           [spoken "What" 5; spoken "is" 5; spoken "a" 5;
                            spoken "hashmap?" 5] false);
              (100500%Z, EvTimer 1)]
             listening in
  let h' := handle 100600 (EvTranscript "What is a hashmap? Okay so" [] false) h in
  questionBuffer h'
  = Some (newBuffer "What is a hashmap? Okay so" (Some 0%Z) 100600).
Proof.
  intros h h'.
  pose proof (buffer_role_fixed 100600
                (EvTranscript "What is a hashmap? Okay so" [] false) h
                (newBuffer "What is a hashmap?" (Some 0%Z) 100000)
                (newBuffer "What is a hashmap? Okay so" (Some 0%Z) 100600)) as R.
  assert (Q : questionBuffer h' = Some (newBuffer "What is a hashmap? Okay so"
                                          (Some 0%Z) 100600))
    by (vm_compute; reflexivity).
  specialize (R ltac:(vm_compute; reflexivity) Q).
  exact Q.
Defined.

(** *** Flushing the buffer *)

(** X4. [processQuestionBuffer] on a live buffer either changes nothing
    or clears the buffer together with the completion-timer handle. When
    it clears the buffer it emits at most the trimmed text of the buffer,
    and nothing at all when that text does not pass [isLikelyQuestion].
    The buffer is always cleared once twice the time since its last update
    reaches [MAX_QUESTION_BUFFER_TIME], that is 15 s after the last
    update. *)
Theorem processQuestionBuffer_flush (now : Z) (h : Helper) (b : QuestionBuffer) :
  questionBuffer h = Some b ->
  let h' := processQuestionBuffer now h in
  (h' = h
   \/ questionBuffer h' = None
      /\ questionCompletionTimer h' = None
      /\ (emitted h' = emitted h
          \/ emitted h' = (emitted h ++ [trim (text b)])%list
             /\ isLikelyQuestion (text b) = true))
  /\ ((MAX_QUESTION_BUFFER_TIME <= 2 * (now - lastUpdateTime b))%Z ->
      questionBuffer h' = None)
  /\ MAX_QUESTION_BUFFER_TIME = 30000%Z.
Proof.
  break_helper h. frozen_cbn. intros ->.
  split; [|split; [|reflexivity]].
  - unfold processQuestionBuffer. frozen_cbn.
    destruct (shouldEmit b now _); [|left; reflexivity].
    right. unfold emitCompleteQuestion. frozen_cbn.
    destruct (String.length (trim (text b)) =? 0)%nat;
      [destruct qt; frozen_cbn; repeat split; left; reflexivity|].
    rewrite isLikelyQuestion_trim.
    destruct (isLikelyQuestion (text b)); frozen_cbn;
      [|destruct qt; frozen_cbn; repeat split; left; reflexivity].
    destruct (String.eqb _ _ && _); frozen_cbn;
      destruct qt; frozen_cbn; repeat split;
      first [left; reflexivity | right; split; reflexivity].
  - intros T. unfold processQuestionBuffer. frozen_cbn.
    assert (S : shouldEmit b now
                  (mkHelper cl li tcp mw lpt lpT pd ids let_ leT fs (Some b) qt act cur
                            sil em sn tm nid) = true).
    { unfold shouldEmit.
      replace (now - (lastUpdateTime b - (now - lastUpdateTime b)))%Z
        with (2 * (now - lastUpdateTime b))%Z by lia.
      apply Z.leb_le in T. rewrite T. rewrite !orb_true_r. reflexivity. }
    rewrite S. destruct (questionCompletionTimer _); reflexivity.
Qed.

Lemma processQuestionBuffer_flush_witness :
  let h := runSession
             [(100000%Z, EvTranscript "What is" [] false);
              (100200%Z, EvTranscript "What is it then, hmm" [] false)]
             listening in
  questionBuffer h = Some (newBuffer "What is it then, hmm" None 100200)
  /\ questionBuffer (processQuestionBuffer 101000 h) = questionBuffer h
  /\ questionBuffer (processQuestionBuffer 115200 h) = None.
Proof.
  intros h.
  assert (Q : questionBuffer h = Some (newBuffer "What is it then, hmm" None 100200))
    by (vm_compute; reflexivity).
  destruct (processQuestionBuffer_flush 115200 h _ Q) as (_ & F & _).
  split; [exact Q|]. split; [vm_compute; reflexivity|].
  apply F. vm_compute. discriminate.
Defined.

(** *** Start and stop requests *)

Lemma resetVADState_flags (h : Helper) :
  isListening (resetVADState h) = isListening h
  /\ liveTcp (resetVADState h) = liveTcp h
  /\ deepgramClient (resetVADState h) = deepgramClient h
  /\ firstSpeakerId (resetVADState h) = None.
Proof.
  unfold resetVADState. cbv zeta.
  destruct (questionCompletionTimer _); repeat split.
Qed.

(** X5. A start request that arrives while the helper is listening is
    refused, and yet it resets the session state: the first speaker is
    forgotten, so that the first speaker id of the next diarized
    transcript becomes the Interviewer, whoever held the role before. *)
Theorem start_while_listening_resets (liveOk : bool) (h : Helper) :
  isListening h = true ->
  startSpeechRecognition liveOk h = (false, resetVADState h)
  /\ forall words isFinal now id,
       firstDefinedSpeaker words = Some id ->
       firstSpeakerId
         (handleDiarizedTranscript words isFinal now
            (snd (startSpeechRecognition liveOk h)))
       = Some id.
Proof.
  intros L.
  destruct (resetVADState_flags h) as (R1 & _ & _ & R4).
  assert (E : startSpeechRecognition liveOk h = (false, resetVADState h)).
  { unfold startSpeechRecognition, startListening. rewrite R1, L. reflexivity. }
  split; [exact E|].
  intros words isFinal now id F. rewrite E. simpl snd.
  rewrite firstSpeakerId_handleDiarizedTranscript.
  unfold identifyFirstSpeaker. rewrite R4, F. reflexivity.
Qed.

Lemma start_while_listening_resets_witness :
  let h := runSession
             [(100000%Z, EvTranscript "What is a hashmap?"
                           [spoken "What" 5; spoken "is" 5; spoken "a" 5;
                            spoken "hashmap?" 5] false)]
             listening in
  firstSpeakerId h = Some 5%Z
  /\ firstSpeakerId
       (handleDiarizedTranscript [spoken "I" 7; spoken "think" 7] false 101000
          (snd (startSpeechRecognition true h)))
     = Some 7%Z.
Proof.
  intros h. split; [vm_compute; reflexivity|].
  destruct (start_while_listening_resets true h) as (_ & A);
    [vm_compute; reflexivity|].
  apply A. reflexivity.
Defined.

(** X6. A stop request that is refused (the helper is not listening,
    there is no connection, or closing the connection fails) changes
    nothing. After a stop request that succeeds, a second stop request is
    refused and changes nothing, and a start request succeeds exactly when
    the Deepgram client exists and the connection can be opened. *)
Theorem stop_then_stop_or_start (ok1 ok2 liveOk : bool) (h : Helper) :
  let r := stopListening ok1 h in
  (fst r = false -> snd r = h)
  /\ (fst r = true ->
      stopListening ok2 (snd r) = (false, snd r)
      /\ fst (startSpeechRecognition liveOk (snd r)) = deepgramClient h && liveOk).
Proof.
  cbv zeta. unfold stopListening.
  destruct (negb (isListening h) || negb (liveTcp h)); simpl;
    [split; [reflexivity | discriminate]|].
  destruct ok1; simpl; [|split; [reflexivity | discriminate]].
  split; [discriminate|]. intros _.
  set (h1 := set_processedTranscriptIds ∅ (set_isListening false h)).
  destruct (resetVADState_flags h1) as (R1 & R2 & R3 & _).
  split.
  - rewrite R1. reflexivity.
  - unfold startSpeechRecognition, startListening.
    destruct (resetVADState_flags (resetVADState h1)) as (S1 & _ & S3 & _).
    rewrite S1, S3, R1, R3. simpl.
    destruct (deepgramClient h); simpl; [|reflexivity].
    destruct liveOk; reflexivity.
Qed.

Lemma stop_then_stop_or_start_witness :
  stopListening true (snd (stopListening true listening))
  = (false, snd (stopListening true listening))
  /\ fst (startSpeechRecognition true (snd (stopListening true listening))) = true.
Proof.
  destruct (stop_then_stop_or_start true true true listening) as (_ & A).
  destruct A as (A1 & A2); [vm_compute; reflexivity|].
  split; [exact A1 | exact A2].
Defined.

(** *** Manual transcripts *)


(** X8. The manual path and the segmentation path do not share their
    duplicate filters: a trimmed text that passes [isLikelyQuestion] and
    differs from the last text of either path is emitted by
    [processTranscript] and, at the same instant, again by
    [emitCompleteQuestion]. *)
Theorem duplicate_filters_are_separate (t : string) (now : Z) (h : Helper) :
  isLikelyQuestion t = true ->
  trim t = t ->
  t <> lastProcessedText h ->
  t <> lastEmittedTranscript h ->
  emitted (emitCompleteQuestion t now (snd (processTranscript t now h)))
  = (emitted h ++ [t; t])%list.
Proof.
  break_helper h. frozen_cbn. intros L T P E.
  assert (Len : (3 <= String.length (trim t))%nat) by (apply isLikelyQuestion_length; exact L).
  unfold processTranscript. frozen_cbn.
  destruct (String.eqb_spec (trim t) EmptyString) as [B|_].
  { rewrite B in Len. simpl in Len. lia. }
  destruct (String.eqb_spec t lpt) as [|_]; [contradiction|].
  frozen_cbn. rewrite L. frozen_cbn.
  unfold emitCompleteQuestion. frozen_cbn.
  destruct (Nat.eqb_spec (String.length (trim t)) 0) as [Z|_]; [lia|].
  rewrite T, L. frozen_cbn.
  destruct (String.eqb_spec t let_) as [|_]; [contradiction|].
  frozen_cbn. rewrite <- app_assoc. reflexivity.
Qed.

Lemma duplicate_filters_are_separate_witness :
  emitted (emitCompleteQuestion "What is a heap?" 1000
             (snd (processTranscript "What is a heap?" 1000 listening)))
  = ["What is a heap?"; "What is a heap?"].
Proof.
  apply (duplicate_filters_are_separate "What is a heap?" 1000 listening);
    vm_compute; (reflexivity || discriminate).
Defined.

(** *** Transcripts with and without speakers *)









(** *** The segments of a transcript *)

Definition segmentOk (seg : Segment) : Prop :=
  segText seg <> EmptyString /\ trim (segText seg) = segText seg.

Definition pendingText (l : Loop) : nat :=
  if String.eqb (trim (currentText l)) EmptyString then 0 else 1.

Lemma segments_words (now : Z) (words : list Word) (l : Loop) :
  Forall segmentOk (speakerSegments l) ->
  let l' := fold_left (wordStep now) words l in
  Forall segmentOk (speakerSegments l')
  /\ (length (speakerSegments l') + pendingText l'
      <= length (speakerSegments l) + pendingText l + length words)%nat.
Proof.
  revert l. induction words as [|w r IH]; intros l F; simpl.
  - split; [exact F | lia].
  - assert (S : Forall segmentOk (speakerSegments (wordStep now l w))
                /\ (length (speakerSegments (wordStep now l w))
                    + pendingText (wordStep now l w)
                    <= length (speakerSegments l) + pendingText l + 1)%nat).
    { unfold wordStep, pendingText. simpl.
      destruct (String.eqb_spec (trim (currentText l)) EmptyString) as [B|B]; simpl.
      - rewrite andb_false_r. split; [exact F|].
        destruct (String.eqb _ EmptyString); lia.
      - destruct (negb (sameSpeaker _ _)); simpl.
        + split.
          * apply Forall_app. split; [exact F|].
            constructor; [|constructor].
            split; [exact B | apply trim_idempotent].
          * rewrite length_app. simpl.
            destruct (String.eqb _ EmptyString); lia.
        + split; [exact F|]. destruct (String.eqb _ EmptyString); lia. }
    destruct S as [S1 S2].
    destruct (IH (wordStep now l w) S1) as [I1 I2].
    split; [exact I1 | lia].
Qed.

(** X10. The segments that [handleDiarizedTranscript] builds from the
    words of a transcript never have an empty text, their text is trimmed,
    and there are at most as many segments as words. *)
Theorem segmentWords_segments (words : list Word) (now : Z) (h : Helper) :
  let segs := fst (segmentWords words now h) in
  Forall (fun seg => segText seg <> EmptyString /\ trim (segText seg) = segText seg) segs
  /\ (length segs <= length words)%nat.
Proof.
  cbv zeta. unfold segmentWords.
  destruct (segments_words now words (mkLoop [] None EmptyString h) (Forall_nil_2 _))
    as [F L].
  cbv zeta in F, L. simpl fst.
  set (l' := fold_left (wordStep now) words (mkLoop [] None EmptyString h)) in *.
  change (length (speakerSegments l') + pendingText l' <= 0 + 0 + length words)%nat in L.
  unfold pendingText in L.
  destruct (String.eqb_spec (trim (currentText l')) EmptyString) as [B|B]; simpl.
  - split; [exact F | lia].
  - split.
    + apply Forall_app. split; [exact F|].
      constructor; [|constructor]. split; [exact B | apply trim_idempotent].
    + rewrite length_app. simpl. lia.
Qed.

End LifecycleFacts.

(** ** The classifiers and the case of the letters *)

Module ClassifierFacts.
Import Js JsFacts Speech.

Ltac by_cases_on c := destruct c as [[] [] [] [] [] [] [] []]; reflexivity.

Lemma lowerChar_idempotent (c : ascii) : lowerChar (lowerChar c) = lowerChar c.
Proof. by_cases_on c. Qed.

Lemma isWhiteSpace_lowerChar (c : ascii) : isWhiteSpace (lowerChar c) = isWhiteSpace c.
Proof. by_cases_on c. Qed.

Lemma isWordChar_lowerChar (c : ascii) : isWordChar (lowerChar c) = isWordChar c.
Proof. by_cases_on c. Qed.

Lemma toLowerCase_idempotent (s : string) : toLowerCase (toLowerCase s) = toLowerCase s.
Proof.
  induction s as [|c r IH]; simpl; [reflexivity|].
  rewrite lowerChar_idempotent, IH. reflexivity.
Qed.

(** On Latin-1 [toLowerCase] maps code unit to code unit.  (It does not
    on every string of JavaScript: U+0130 becomes two code units.) *)
Lemma length_toLowerCase (s : string) :
  String.length (toLowerCase s) = String.length s.
Proof. induction s as [|c r IH]; simpl; [reflexivity|]. rewrite IH. reflexivity. Qed.

Lemma trimStart_toLowerCase (s : string) :
  trimStart (toLowerCase s) = toLowerCase (trimStart s).
Proof.
  induction s as [|c r IH]; simpl; [reflexivity|].
  rewrite isWhiteSpace_lowerChar. destruct (isWhiteSpace c); [exact IH | reflexivity].
Qed.

Lemma trimEnd_toLowerCase (s : string) :
  trimEnd (toLowerCase s) = toLowerCase (trimEnd s).
Proof.
  induction s as [|c r IH]; simpl; [reflexivity|].
  rewrite IH, isWhiteSpace_lowerChar.
  destruct (trimEnd r); simpl; [|reflexivity].
  destruct (isWhiteSpace c); reflexivity.
Qed.

Lemma trim_toLowerCase (s : string) : trim (toLowerCase s) = toLowerCase (trim s).
Proof. unfold trim. rewrite trimStart_toLowerCase. apply trimEnd_toLowerCase. Qed.

Lemma startsWith_empty (s : string) : startsWith s EmptyString = true.
Proof. destruct s; reflexivity. Qed.

Lemma includes_question_mark (s : string) :
  includes (toLowerCase s) "?" = includes s "?".
Proof.
  induction s as [|c r IH]; [reflexivity|].
  change (includes (toLowerCase (String c r)) "?")
    with (Ascii.eqb "?" (lowerChar c) && startsWith (toLowerCase r) EmptyString
          || includes (toLowerCase r) "?").
  change (includes (String c r) "?")
    with (Ascii.eqb "?" c && startsWith r EmptyString || includes r "?").
  rewrite IH, !startsWith_empty. f_equal. f_equal. by_cases_on c.
Qed.

Lemma endsWithTerminalPunctuation_toLowerCase (s : string) :
  endsWithTerminalPunctuation (toLowerCase s) = endsWithTerminalPunctuation s.
Proof.
  unfold endsWithTerminalPunctuation.
  assert (L : lastChar (toLowerCase s) = lowerChar <$> lastChar s).
  { induction s as [|c r IH]; [reflexivity|].
    destruct r as [|c' r']; [reflexivity|]. exact IH. }
  rewrite L. destruct (lastChar s) as [c|]; [|reflexivity]. simpl. by_cases_on c.
Qed.

Lemma matchLiteral_toLowerCase (p s : string) :
  matchLiteral p (toLowerCase s) = toLowerCase <$> matchLiteral p s.
Proof.
  revert s. induction p as [|a p IH]; intros s; [reflexivity|].
  destruct s as [|b s]; [reflexivity|]. simpl.
  rewrite lowerChar_idempotent. destruct (Ascii.eqb a (lowerChar b)); [apply IH | reflexivity].
Qed.

Lemma matchVerbAfterSpace_toLowerCase (s : string) :
  matchVerbAfterSpace (toLowerCase s) = matchVerbAfterSpace s.
Proof.
  destruct s as [|c r]; [reflexivity|].
  unfold matchVerbAfterSpace. simpl toLowerCase. cbv iota.
  rewrite isWhiteSpace_lowerChar. f_equal.
  rewrite trimStart_toLowerCase.
  induction verbs as [|v vs IH]; [reflexivity|].
  simpl. rewrite IH, matchLiteral_toLowerCase.
  destruct (matchLiteral v (trimStart r)); reflexivity.
Qed.

Lemma matchSubjectVerbAt_toLowerCase (s : string) :
  matchSubjectVerbAt (toLowerCase s) = matchSubjectVerbAt s.
Proof.
  unfold matchSubjectVerbAt.
  induction subjects as [|v vs IH]; [reflexivity|].
  simpl. rewrite IH, matchLiteral_toLowerCase.
  destruct (matchLiteral v s); simpl; [|reflexivity].
  rewrite matchVerbAfterSpace_toLowerCase. reflexivity.
Qed.

Lemma searchSubjectVerb_toLowerCase (prev : bool) (s : string) :
  searchSubjectVerb prev (toLowerCase s) = searchSubjectVerb prev s.
Proof.
  revert prev. induction s as [|c r IH]; intros prev.
  - reflexivity.
  - change (searchSubjectVerb prev (toLowerCase (String c r)))
      with (negb prev && matchSubjectVerbAt (toLowerCase (String c r))
            || searchSubjectVerb (isWordChar (lowerChar c)) (toLowerCase r)).
    change (searchSubjectVerb prev (String c r))
      with (negb prev && matchSubjectVerbAt (String c r)
            || searchSubjectVerb (isWordChar c) r).
    rewrite matchSubjectVerbAt_toLowerCase, isWordChar_lowerChar, IH. reflexivity.
Qed.

Lemma isLikelyQuestion_toLowerCase (t : string) :
  isLikelyQuestion (toLowerCase t) = isLikelyQuestion t.
Proof.
  unfold isLikelyQuestion.
  rewrite trim_toLowerCase, length_toLowerCase, includes_question_mark,
    toLowerCase_idempotent.
  reflexivity.
Qed.

Lemma isQuestionComplete_toLowerCase (t : string) :
  isQuestionComplete (toLowerCase t) = isQuestionComplete t.
Proof.
  unfold isQuestionComplete.
  rewrite trim_toLowerCase, length_toLowerCase,
    endsWithTerminalPunctuation_toLowerCase, isLikelyQuestion_toLowerCase.
  unfold hasSubjectVerb. rewrite searchSubjectVerb_toLowerCase. reflexivity.
Qed.

Lemma isValidInterviewQuestion_toLowerCase (t : string) :
  Dispatch.isValidInterviewQuestion (toLowerCase t) = Dispatch.isValidInterviewQuestion t.
Proof.
  unfold Dispatch.isValidInterviewQuestion.
  rewrite trim_toLowerCase, length_toLowerCase, toLowerCase_idempotent. reflexivity.
Qed.

(** X11. On texts of Latin-1 characters (U+0000 .. U+00FF), which are
    the strings of this embedding, the classifiers do not look at the
    case of the letters: two such texts with the same lower-case form
    get the same answer from [isLikelyQuestion], from
    [isQuestionComplete] and from [isValidInterviewQuestion].  The
    restriction matters: the length tests of the classifiers read the
    text itself, and outside Latin-1 a text and its lower-case form can
    differ in length. *)
Theorem classifiers_ignore_case (t1 t2 : string) :
  toLowerCase t1 = toLowerCase t2 ->
  isLikelyQuestion t1 = isLikelyQuestion t2
  /\ isQuestionComplete t1 = isQuestionComplete t2
  /\ Dispatch.isValidInterviewQuestion t1 = Dispatch.isValidInterviewQuestion t2.
Proof.
  intros E.
  rewrite <- (isLikelyQuestion_toLowerCase t1), <- (isLikelyQuestion_toLowerCase t2).
  rewrite <- (isQuestionComplete_toLowerCase t1), <- (isQuestionComplete_toLowerCase t2).
  rewrite <- (isValidInterviewQuestion_toLowerCase t1),
    <- (isValidInterviewQuestion_toLowerCase t2).
  rewrite E. repeat split.
Qed.

Lemma classifiers_ignore_case_witness :
  isLikelyQuestion "CAN YOU Explain the Approach" = isLikelyQuestion "can you explain the approach"
  /\ isQuestionComplete "CAN YOU Explain the Approach"
     = isQuestionComplete "can you explain the approach".
Proof.
  destruct (classifiers_ignore_case "CAN YOU Explain the Approach"
              "can you explain the approach" eq_refl) as (A & B & _).
  split; [exact A | exact B].
Defined.

End ClassifierFacts.

(** ** More on the dispatch coordinator *)

Module CoordinatorFacts.
Import Js JsFacts Dispatch DispatchFacts.

Ltac break_coordinator c :=
  destruct c as [lt lT lock q ph mw fl st rs sn].

Ltac frozen_cbn :=
  cbn -[isValidInterviewQuestion trim String.eqb Z.ltb Nat.ltb String.length].

(** An invariant of every handler is an invariant of every run. *)
Lemma run_invariant (P : Coordinator -> Prop) :
  (forall now e c, P c -> P (handle now e c)) ->
  forall evs c, P c -> P (run evs c).
Proof.
  intros Step evs. unfold run.
  induction evs as [|[now e] r IH]; intros c I; simpl; [exact I|].
  apply IH, Step, I.
Qed.

Lemma handle_invariant (P : Coordinator -> Prop) :
  (forall t now c, P c -> P (handleSpeechTranscription t now c)) ->
  (forall i r c, P c -> P (settle i r c)) ->
  (forall c, P c -> forall n rest, resubmissions c = n :: rest ->
                                   P (set_resubmissions rest c)) ->
  forall now e c, P c -> P (handle now e c).
Proof.
  intros H1 H2 H3 now e c I. destruct e as [t|i r|]; simpl.
  - apply H1, I.
  - apply H2, I.
  - unfold resubmit. destruct (resubmissions c) as [|n rest] eqn:R; [exact I|].
    apply H1. exact (H3 c I n rest R).
Qed.

(** *** The lock is held only while a call is awaited *)

Definition lockBacked (c : Coordinator) : Prop :=
  isCurrentlyProcessing c = true -> inFlight c <> [].

Lemma lockBacked_handleSpeechTranscription (t : string) (now : Z) (c : Coordinator) :
  lockBacked c -> lockBacked (handleSpeechTranscription t now c).
Proof.
  break_coordinator c.
  unfold lockBacked, handleSpeechTranscription, dispatch, processNextInQueue.
  frozen_cbn. intros I.
  repeat match goal with
         | |- context [if ?x then _ else _] => destruct x; frozen_cbn
         | |- context [match ?x with [] => _ | _ :: _ => _ end] => destruct x; frozen_cbn
         end;
    try exact I; try discriminate;
    intros _ E; apply app_eq_nil in E as [_ E]; discriminate E.
Qed.

Lemma lockBacked_settle (i : nat) (r : string + string) (c : Coordinator) :
  lockBacked c -> lockBacked (settle i r c).
Proof.
  break_coordinator c. unfold lockBacked, settle, send, processNextInQueue.
  frozen_cbn. intros I.
  destruct (nth_error fl i); [|exact I].
  destruct r; frozen_cbn;
    repeat match goal with
           | |- context [if ?x then _ else _] => destruct x; frozen_cbn
           | |- context [match ?x with [] => _ | _ :: _ => _ end] => destruct x; frozen_cbn
           end;
    discriminate.
Qed.

(** X12. In every run of the coordinator the lock
    [isCurrentlyProcessing] is held only while at least one backend call
    is awaited: the lock is never left behind by a transcript that was
    dropped, queued or refused, so the settlement of the awaited calls
    always frees it. *)
Theorem lock_held_only_while_awaiting
    (helper window : bool) (evs : list (Z * Event)) :
  let c := run evs (initialCoordinator helper window) in
  isCurrentlyProcessing c = true -> inFlight c <> [].
Proof.
  cbv zeta. apply (run_invariant lockBacked).
  - apply handle_invariant.
    + intros t now c. apply lockBacked_handleSpeechTranscription.
    + intros i r c. apply lockBacked_settle.
    + intros c I n rest _. exact I.
  - intros L. discriminate L.
Qed.

Lemma lock_held_only_while_awaiting_witness :
  let c := run [(1000%Z, EvTranscription "What is a binary search tree?")]
               (initialCoordinator true true) in
  isCurrentlyProcessing c = true /\ inFlight c <> [].
Proof.
  intros c. split; [vm_compute; reflexivity|].
  apply (lock_held_only_while_awaiting true true
           [(1000%Z, EvTranscription "What is a binary search tree?")]).
  vm_compute. reflexivity.
Defined.

(** *** What waits in the queue *)

Definition waitingTrimmed (c : Coordinator) : Prop :=
  Forall (fun t => trim t = t /\ (5 <= String.length t)%nat)
         (processingQueue c ++ resubmissions c).

Lemma waitingTrimmed_processNextInQueue (c : Coordinator) :
  waitingTrimmed c -> waitingTrimmed (processNextInQueue c).
Proof.
  break_coordinator c. unfold waitingTrimmed, processNextInQueue. frozen_cbn.
  intros I. destruct q as [|n rest]; frozen_cbn; [exact I|].
  destruct lock; frozen_cbn; [exact I|].
  apply Forall_cons in I as [In Ir]. apply Forall_app in Ir as [Iq Irs].
  destruct (negb (String.eqb n EmptyString)); frozen_cbn.
  - apply Forall_app. split; [exact Iq|].
    apply Forall_app. split; [exact Irs|]. constructor; [exact In | constructor].
  - apply Forall_app. split; assumption.
Qed.

Lemma waitingTrimmed_same (c c' : Coordinator) :
  processingQueue c' = processingQueue c ->
  resubmissions c' = resubmissions c ->
  waitingTrimmed c -> waitingTrimmed c'.
Proof. unfold waitingTrimmed. intros -> ->. exact id. Qed.

Lemma waitingTrimmed_dispatch (t : string) (now : Z) (c : Coordinator) :
  waitingTrimmed c -> waitingTrimmed (dispatch t now c).
Proof.
  intros I. unfold dispatch.
  destruct (negb (isValidInterviewQuestion t)); [exact I|].
  cbv zeta.
  destruct (negb (processingHelper _)).
  - apply waitingTrimmed_processNextInQueue. revert I.
    apply waitingTrimmed_same; reflexivity.
  - revert I. apply waitingTrimmed_same; reflexivity.
Qed.

Lemma waitingTrimmed_handleSpeechTranscription (t : string) (now : Z) (c : Coordinator) :
  waitingTrimmed c -> waitingTrimmed (handleSpeechTranscription t now c).
Proof.
  intros I. unfold handleSpeechTranscription.
  destruct (Nat.ltb_spec (String.length (trim t)) 5) as [|Len]; [exact I|].
  cbv zeta.
  destruct (String.eqb _ _ && _); [exact I|].
  destruct (isCurrentlyProcessing c).
  - destruct (30000 <? _)%Z.
    + apply waitingTrimmed_dispatch. revert I. apply waitingTrimmed_same; reflexivity.
    + unfold waitingTrimmed in *. simpl.
      apply Forall_app in I as [Iq Irs].
      apply Forall_app. split; [|exact Irs].
      apply Forall_app. split; [exact Iq|].
      constructor; [|constructor]. split; [apply trim_idempotent | exact Len].
  - apply waitingTrimmed_dispatch. exact I.
Qed.

Lemma waitingTrimmed_settle (i : nat) (r : string + string) (c : Coordinator) :
  waitingTrimmed c -> waitingTrimmed (settle i r c).
Proof.
  intros I. unfold settle. destruct (nth_error (inFlight c) i); [|exact I].
  cbv zeta. destruct r as [resp|err];
    apply waitingTrimmed_processNextInQueue; revert I;
    apply waitingTrimmed_same; unfold send; simpl; destruct (mainWindow c); reflexivity.
Qed.

(** X13. In every run of the coordinator, every transcript that waits in
    [processingQueue] or for its re-submission is trimmed and has at
    least five characters. So the test of [processNextInQueue] on the
    dequeued transcript never fails: whenever the queue is not empty and
    the lock is free, its head leaves the queue and is scheduled for
    re-submission. *)
Theorem queue_holds_trimmed_transcripts
    (helper window : bool) (evs : list (Z * Event)) :
  let c := run evs (initialCoordinator helper window) in
  Forall (fun t => trim t = t /\ (5 <= String.length t)%nat)
         (processingQueue c ++ resubmissions c)
  /\ forall next rest,
       processingQueue c = next :: rest ->
       isCurrentlyProcessing c = false ->
       processNextInQueue c
       = set_resubmissions (resubmissions c ++ [next]) (set_processingQueue rest c).
Proof.
  cbv zeta.
  assert (I : waitingTrimmed (run evs (initialCoordinator helper window))).
  { apply (run_invariant waitingTrimmed).
    - apply handle_invariant.
      + intros t now c. apply waitingTrimmed_handleSpeechTranscription.
      + intros i r c. apply waitingTrimmed_settle.
      + intros c I n rest R. unfold waitingTrimmed in *. simpl. rewrite R in I.
        apply Forall_app in I as [Iq Irs]. apply Forall_cons in Irs as [_ Irs].
        apply Forall_app. split; assumption.
    - constructor. }
  split; [exact I|].
  intros next rest Q L. unfold processNextInQueue. rewrite Q, L. simpl.
  unfold waitingTrimmed in I. rewrite Q in I. simpl in I.
  apply Forall_cons in I as [[_ Len] _].
  destruct (String.eqb_spec next EmptyString) as [E|_]; [|reflexivity].
  rewrite E in Len. simpl in Len. lia.
Qed.

(** *** Without a processing helper *)

Definition idle (c : Coordinator) : Prop :=
  processingHelper c = false
  /\ isCurrentlyProcessing c = false
  /\ processingQueue c = []
  /\ resubmissions c = []
  /\ inFlight c = []
  /\ started c = []
  /\ sent c = [].

Lemma idle_handleSpeechTranscription (t : string) (now : Z) (c : Coordinator) :
  idle c -> idle (handleSpeechTranscription t now c).
Proof.
  break_coordinator c. unfold idle, handleSpeechTranscription, dispatch, processNextInQueue.
  frozen_cbn. intros (-> & -> & -> & -> & -> & -> & ->).
  repeat match goal with
         | |- context [if ?x then _ else _] => destruct x; frozen_cbn
         end;
    repeat split.
Qed.

(** X14. When [state.processingHelper] is missing, no run of the
    coordinator ever starts a backend call, holds the lock, queues a
    transcript or sends anything to the renderer: every transcript is
    dropped, and the only trace of a valid one is the record of the last
    processed text and time. *)
Theorem no_helper_no_dispatch (window : bool) (evs : list (Z * Event)) :
  let c := run evs (initialCoordinator false window) in
  started c = []
  /\ inFlight c = []
  /\ isCurrentlyProcessing c = false
  /\ processingQueue c = []
  /\ sent c = [].
Proof.
  cbv zeta.
  assert (I : idle (run evs (initialCoordinator false window))).
  { apply (run_invariant idle).
    - apply handle_invariant.
      + intros t now c. apply idle_handleSpeechTranscription.
      + intros i r c I. pose proof I as (_ & _ & _ & _ & F & _).
        unfold settle. rewrite F. destruct i; exact I.
      + intros c (_ & _ & _ & R & _) n rest E. rewrite R in E. discriminate E.
    - repeat split. }
  destruct I as (_ & L & Q & _ & F & S & N). repeat split; assumption.
Qed.

(** *** What is sent to the backend *)

Definition startedTrimmed (c : Coordinator) : Prop :=
  Forall (fun t => trim t = t) (started c).

Lemma startedTrimmed_same (c c' : Coordinator) :
  started c' = started c -> startedTrimmed c -> startedTrimmed c'.
Proof. unfold startedTrimmed. intros ->. exact id. Qed.

Lemma started_processNextInQueue (c : Coordinator) :
  started (processNextInQueue c) = started c.
Proof. exact (proj1 (processNextInQueue_started c)). Qed.

Lemma startedTrimmed_dispatch (t : string) (now : Z) (c : Coordinator) :
  trim t = t -> startedTrimmed c -> startedTrimmed (dispatch t now c).
Proof.
  intros T I. unfold dispatch.
  destruct (negb (isValidInterviewQuestion t)); [exact I|].
  cbv zeta.
  destruct (negb (processingHelper _)).
  - revert I. apply startedTrimmed_same. rewrite started_processNextInQueue. reflexivity.
  - unfold startedTrimmed in *. simpl.
    apply Forall_app. split; [exact I|]. constructor; [exact T | constructor].
Qed.

Lemma startedTrimmed_handleSpeechTranscription (t : string) (now : Z) (c : Coordinator) :
  startedTrimmed c -> startedTrimmed (handleSpeechTranscription t now c).
Proof.
  intros I. unfold handleSpeechTranscription.
  destruct (String.length (trim t) <? 5)%nat; [exact I|].
  cbv zeta.
  destruct (String.eqb _ _ && _); [exact I|].
  destruct (isCurrentlyProcessing c).
  - destruct (30000 <? _)%Z; [|exact I].
    apply startedTrimmed_dispatch; [apply trim_idempotent | exact I].
  - apply startedTrimmed_dispatch; [apply trim_idempotent | exact I].
Qed.

Lemma startedTrimmed_settle (i : nat) (r : string + string) (c : Coordinator) :
  startedTrimmed c -> startedTrimmed (settle i r c).
Proof.
  intros I. unfold settle. destruct (nth_error (inFlight c) i); [|exact I].
  cbv zeta. revert I. apply startedTrimmed_same.
  destruct r as [resp|err]; rewrite started_processNextInQueue;
    unfold send; simpl; destruct (mainWindow c); reflexivity.
Qed.

Lemma valid_length (t : string) :
  isValidInterviewQuestion t = true -> (10 <= String.length (trim t))%nat.
Proof.
  unfold isValidInterviewQuestion.
  destruct (Nat.ltb_spec (String.length (trim t)) 10) as [|L]; [discriminate|].
  intros _. exact L.
Qed.

(** X15. In every run of the coordinator, every text for which a backend
    call was started is trimmed, has at least ten characters, passes
    [isValidInterviewQuestion] and contains no candidate indicator. *)
Theorem started_calls_are_valid
    (helper window : bool) (evs : list (Z * Event)) :
  Forall (fun t => trim t = t
                   /\ (10 <= String.length t)%nat
                   /\ isValidInterviewQuestion t = true
                   /\ hasCandidateIndicators (toLowerCase t) = false)
         (started (run evs (initialCoordinator helper window))).
Proof.
  assert (T : startedTrimmed (run evs (initialCoordinator helper window))).
  { apply (run_invariant startedTrimmed).
    - apply handle_invariant.
      + intros t now c. apply startedTrimmed_handleSpeechTranscription.
      + intros i r c. apply startedTrimmed_settle.
      + intros c I n rest _. exact I.
    - constructor. }
  assert (V : startedValid (run evs (initialCoordinator helper window))).
  { apply run_startedValid. constructor. }
  unfold startedTrimmed, startedValid in *.
  rewrite List.Forall_forall in *. intros t H.
  specialize (T t H). specialize (V t H).
  split; [exact T|].
  split; [rewrite <- T; apply valid_length; exact V|].
  split; [exact V|].
  destruct (hasCandidateIndicators (toLowerCase t)) eqn:C; [|reflexivity].
  rewrite <- T in C. rewrite (candidate_not_valid t C) in V. discriminate V.
Qed.

(** *** Duplicates *)



(** *** Draining the queue *)

(** One call is awaited, the lock is held, [q] waits in the queue and no
    re-submission is pending. *)
Definition awaiting (c : Coordinator) (x : string) (q : list string) : Prop :=
  isCurrentlyProcessing c = true
  /\ inFlight c = [x]
  /\ resubmissions c = []
  /\ processingQueue c = q
  /\ processingHelper c = true.

(** Every transcript of the queue is a trimmed, valid interview question
    and differs from the one before it ([prev] before the first). *)
Fixpoint dispatchable (prev : string) (q : list string) : Prop :=
  match q with
  | [] => True
  | a :: r => a <> prev /\ trim a = a /\ isValidInterviewQuestion a = true
              /\ dispatchable a r
  end.

(** The awaited call settles and, later, the pending re-submission runs;
    no transcript arrives in between. *)
Definition drainEvents (steps : list (Z * (string + string) * Z)) : list (Z * Event) :=
  flat_map (fun s => match s with
                     | (settled, result, resubmitted) =>
                         [(settled, EvSettled 0 result); (resubmitted, EvResubmit)]
                     end) steps.

Lemma drain_step (c : Coordinator) (x a : string) (rest : list string)
    (r : string + string) (now : Z) :
  awaiting c x (a :: rest) ->
  a <> lastProcessedText c ->
  trim a = a ->
  isValidInterviewQuestion a = true ->
  let c' := resubmit now (settle 0 r c) in
  awaiting c' a rest
  /\ started c' = (started c ++ [a])%list
  /\ lastProcessedText c' = a.
Proof.
  break_coordinator c. unfold awaiting. frozen_cbn.
  intros (-> & -> & -> & -> & ->) N T V.
  assert (Len : (10 <= String.length (trim a))%nat) by (apply valid_length; exact V).
  assert (NE : String.eqb a EmptyString = false).
  { destruct (String.eqb_spec a EmptyString) as [E|]; [|reflexivity].
    rewrite E in Len. simpl in Len. lia. }
  unfold settle, send, processNextInQueue, resubmit. frozen_cbn.
  destruct r as [resp|err]; frozen_cbn; destruct mw; frozen_cbn; rewrite NE; frozen_cbn;
    unfold handleSpeechTranscription, dispatch; frozen_cbn;
    (destruct (Nat.ltb_spec (String.length (trim a)) 5) as [|_]; [lia|]);
    rewrite T;
    (destruct (String.eqb_spec a lt) as [|_]; [contradiction|]);
    frozen_cbn; rewrite V; frozen_cbn; repeat split.
Qed.

Lemma last_nonempty {A} (b : A) (l : list A) (d d' y : A) :
  List.last (b :: l) d = List.last (y :: b :: l) d'.
Proof.
  change (List.last (y :: b :: l) d') with (List.last (b :: l) d').
  revert b. induction l as [|z l IH]; intros b; [reflexivity|].
  change (List.last (z :: l) d = List.last (z :: l) d'). apply IH.
Qed.

(** X17. The queue is served first in, first out when nothing arrives
    in between: while one call is awaited and the queued transcripts are
    trimmed valid questions, each different from the one dispatched
    before it, letting every awaited call settle and every re-submission
    run, in turn, starts a call for each queued transcript in the order
    of the queue, one at a time, and empties the queue. *)
Theorem queue_drained_in_order
    (q : list string) (steps : list (Z * (string + string) * Z))
    (c : Coordinator) (x : string) :
  awaiting c x q ->
  dispatchable (lastProcessedText c) q ->
  length steps = length q ->
  let c' := run (drainEvents steps) c in
  started c' = (started c ++ q)%list
  /\ processingQueue c' = []
  /\ resubmissions c' = []
  /\ inFlight c' = [List.last q x].
Proof.
  revert steps c x. induction q as [|a rest IH]; intros steps c x A D L.
  - destruct steps; [|discriminate L]. simpl.
    destruct A as (_ & F & R & Q & _).
    rewrite app_nil_r. repeat split; assumption.
  - destruct steps as [|[[t1 r] t2] steps]; [discriminate L|].
    simpl in D. destruct D as (N & T & V & D).
    destruct (drain_step c x a rest r t2 A N T V) as (A' & S' & P').
    cbv zeta in A', S', P'.
    specialize (IH steps (resubmit t2 (settle 0 r c)) a A').
    rewrite P' in IH. specialize (IH D ltac:(simpl in L; lia)).
    cbv zeta in IH. destruct IH as (I1 & I2 & I3 & I4).
    cbv zeta.
    change (run (drainEvents ((t1, r, t2) :: steps)) c)
      with (run (drainEvents steps) (resubmit t2 (settle 0 r c))).
    rewrite I1, S', <- app_assoc.
    repeat split; try assumption.
    rewrite I4. destruct rest as [|b rest]; [reflexivity|].
    f_equal. apply last_nonempty.
Qed.

Lemma queue_drained_in_order_witness :
  let c := run [(100000%Z, EvTranscription "What is a hashmap?");
                (101000%Z, EvTranscription "How does a heap work?");
                (102000%Z, EvTranscription "Why is quicksort fast?")]
               (initialCoordinator true true) in
  let steps := [(103000%Z, inl "A map from keys to values.", 103100%Z);
                (109000%Z, inr "timeout", 109100%Z)] in
  started (run (drainEvents steps) c)
  = ["What is a hashmap?"; "How does a heap work?"; "Why is quicksort fast?"].
Proof.
  intros c steps.
  destruct (queue_drained_in_order
              ["How does a heap work?"; "Why is quicksort fast?"] steps c
              "What is a hashmap?") as (A & _).
  - vm_compute. repeat split.
  - vm_compute. repeat split; discriminate.
  - reflexivity.
  - etransitivity; [exact A|]. vm_compute. reflexivity.
Defined.

End CoordinatorFacts.

(** ** More on the conversation history *)


Module HistoryMoreFacts.
Import History HistoryFacts HistoryMore.

Lemma pushExchange_cases (history : list Turn) (q a : string) :
  let extended := (history ++ exchangeTurns (q, a))%list in
  ((length extended <= 20)%nat /\ pushExchange history q a = extended)
  \/ ((20 < length extended)%nat
      /\ pushExchange history q a
         = (take 2 extended ++ drop (length extended - 18) extended)%list).
Proof.
  cbv zeta. unfold pushExchange, exchangeTurns. simpl fst. simpl snd.
  set (extended := (history ++ _)%list).
  destruct (Z.ltb_spec (maxHistoryLength * 2) (Z.of_nat (length extended)))
    as [L|L]; unfold maxHistoryLength in L.
  - right. split; [lia|].
    rewrite slice_first_two by lia. rewrite slice_last_eighteen by lia. reflexivity.
  - left. split; [lia | reflexivity].
Qed.

(** X18. Whatever the history, the exchange that was just appended is
    kept: the last two turns after [pushExchange] are the question, with
    role [user], and the answer, with role [assistant]. *)
Theorem pushExchange_keeps_new_exchange (history : list Turn) (q a : string) :
  let history' := pushExchange history q a in
  drop (length history' - 2) history' = [mkTurn "user" q; mkTurn "assistant" a].
Proof.
  cbv zeta.
  destruct (pushExchange_cases history q a) as [[L E]|[L E]]; cbv zeta in L, E;
    rewrite E; unfold exchangeTurns in *; simpl fst in *; simpl snd in *.
  - rewrite length_app. simpl length.
    replace (length history + 2 - 2)%nat with (length history) by lia.
    apply drop_app_length.
  - set (extended := (history ++ _)%list) in *.
    assert (Len : length extended = (length history + 2)%nat)
      by (subst extended; rewrite length_app; reflexivity).
    rewrite length_app, length_take, length_drop.
    rewrite (Nat.min_l 2 (length extended)) by lia.
    replace (2 + (length extended - (length extended - 18)) - 2)%nat with 18%nat by lia.
    rewrite drop_app_ge by (rewrite length_take; lia).
    rewrite length_take, (Nat.min_l 2 (length extended)) by lia.
    rewrite drop_drop.
    replace (length extended - 18 + (18 - 2))%nat with (length history) by lia.
    subst extended. apply drop_app_length.
Qed.

Lemma turnsOf_app (a b : list (string * string)) :
  turnsOf (a ++ b) = (turnsOf a ++ turnsOf b)%list.
Proof. unfold turnsOf. apply flat_map_app. Qed.

Lemma length_turnsOf (es : list (string * string)) :
  length (turnsOf es) = (2 * length es)%nat.
Proof.
  induction es as [|e r IH]; [reflexivity|].
  change (turnsOf (e :: r)) with (exchangeTurns e ++ turnsOf r)%list.
  rewrite length_app, IH. simpl. lia.
Qed.

Lemma take_turnsOf (k : nat) (es : list (string * string)) :
  take (2 * k) (turnsOf es) = turnsOf (take k es).
Proof.
  revert es. induction k as [|k IH]; intros es; [reflexivity|].
  destruct es as [|e r]; [reflexivity|].
  replace (2 * S k)%nat with (S (S (2 * k))) by lia.
  change (turnsOf (e :: r))
    with (mkTurn "user" (fst e) :: mkTurn "assistant" (snd e) :: turnsOf r).
  change (turnsOf (take (S k) (e :: r)))
    with (mkTurn "user" (fst e) :: mkTurn "assistant" (snd e) :: turnsOf (take k r)).
  simpl take. rewrite IH. reflexivity.
Qed.

Lemma drop_turnsOf (k : nat) (es : list (string * string)) :
  drop (2 * k) (turnsOf es) = turnsOf (drop k es).
Proof.
  revert es. induction k as [|k IH]; intros es; [reflexivity|].
  destruct es as [|e r]; [reflexivity|].
  replace (2 * S k)%nat with (S (S (2 * k))) by lia.
  change (turnsOf (e :: r))
    with (mkTurn "user" (fst e) :: mkTurn "assistant" (snd e) :: turnsOf r).
  simpl drop. apply IH.
Qed.

(** One more exchange on a history made of whole exchanges. *)
Lemma pushExchange_turnsOf (es : list (string * string)) (e : string * string) :
  pushExchange (turnsOf es) (fst e) (snd e)
  = if (length es <? 10)%nat then turnsOf (es ++ [e])
    else turnsOf (take 1 (es ++ [e]) ++ drop (length es + 1 - 9) (es ++ [e])).
Proof.
  destruct (pushExchange_cases (turnsOf es) (fst e) (snd e)) as [[L E]|[L E]];
    cbv zeta in L, E; rewrite E;
    change (turnsOf es ++ exchangeTurns (fst e, snd e))%list
      with (turnsOf es ++ turnsOf [e])%list in *;
    rewrite <- turnsOf_app in *; rewrite length_turnsOf, length_app in *;
    simpl length in *.
  - destruct (Nat.ltb_spec (length es) 10) as [_|G]; [reflexivity | lia].
  - destruct (Nat.ltb_spec (length es) 10) as [G|_]; [lia|].
    rewrite (turnsOf_app (take 1 (es ++ [e]))).
    rewrite <- (take_turnsOf 1), <- drop_turnsOf.
    f_equal. f_equal. lia.
Qed.

Lemma pushAll_snoc (es : list (string * string)) (e : string * string)
    (history : list Turn) :
  pushAll (es ++ [e]) history = pushExchange (pushAll es history) (fst e) (snd e).
Proof. unfold pushAll. rewrite fold_left_app. reflexivity. Qed.

Lemma length_kept (es : list (string * string)) :
  length (kept es) = Nat.min (length es) 10.
Proof.
  unfold kept. destruct (Nat.leb_spec (length es) 10) as [L|L]; [lia|].
  rewrite length_app, length_take, length_drop. lia.
Qed.

Lemma kept_snoc (es : list (string * string)) (e : string * string) :
  kept (es ++ [e])
  = if (length (kept es) <? 10)%nat then (kept es ++ [e])%list
    else (take 1 (kept es ++ [e])
          ++ drop (length (kept es) + 1 - 9) (kept es ++ [e]))%list.
Proof.
  rewrite length_kept. unfold kept. rewrite length_app. simpl length.
  destruct (Nat.leb_spec (length es) 10) as [L|L].
  - destruct (Nat.leb_spec (length es + 1) 10) as [L1|L1].
    + destruct (Nat.ltb_spec (length es `min` 10) 10) as [_|G]; [reflexivity | lia].
    + destruct (Nat.ltb_spec (length es `min` 10) 10) as [G|_]; [lia|].
      replace (length es `min` 10 + 1 - 9)%nat with (length es + 1 - 9)%nat by lia.
      reflexivity.
  - destruct (Nat.leb_spec (length es + 1) 10) as [L1|_]; [lia|].
    destruct (Nat.ltb_spec (length es `min` 10) 10) as [G|_]; [lia|].
    replace (length es `min` 10 + 1 - 9)%nat with 2%nat by lia.
    destruct es as [|e0 r]; [simpl in L; lia|].
    simpl length in *.
    replace (S (length r) + 1 - 9)%nat with (S (length r - 8)) by lia.
    replace (S (length r) - 9)%nat with (length r - 8)%nat by lia.
    simpl. f_equal.
    destruct (length r - 8)%nat as [|n] eqn:N; [lia|].
    rewrite (drop_app_le r [e] (S n)) by lia.
    change (drop (S n) (e0 :: r)) with (drop n r).
    rewrite (drop_app_le (drop n r) [e] 1) by (rewrite length_drop; lia).
    rewrite drop_drop. f_equal. f_equal. lia.
Qed.

(** X19. Starting from an empty history, after any number of answered
    questions the history consists of whole exchanges in their order: all
    of them while there are at most ten, and otherwise the first exchange
    followed by the last nine. *)
Theorem history_after_exchanges (es : list (string * string)) :
  pushAll es []
  = turnsOf (if (length es <=? 10)%nat then es
             else (take 1 es ++ drop (length es - 9) es)%list).
Proof.
  change (pushAll es [] = turnsOf (kept es)).
  induction es as [|e es IH] using rev_ind; [reflexivity|].
  rewrite pushAll_snoc, IH, pushExchange_turnsOf, kept_snoc.
  destruct (length (kept es) <? 10)%nat; reflexivity.
Qed.

End HistoryMoreFacts.

(** ** ProcessingHelper: answering a transcript *)


Module AssistantFacts.
Import Js History HistoryFacts Assistant.

Ltac break_processing p :=
  destruct p as [client key ctl hist d rs aw n].

Lemma orNoResponse_nonempty (value : option string) : orNoResponse value <> EmptyString.
Proof.
  destruct value as [s|]; simpl; [|discriminate].
  destruct (String.eqb s EmptyString) eqn:E; [discriminate|].
  intros ->. discriminate.
Qed.

Lemma rethrow_thrown (name message : string) :
  exists name' message', rethrow name message = Thrown name' message'.
Proof.
  unfold rethrow. destruct (String.eqb name "AbortError"); eauto.
Qed.

(** What the continuation of a provider's function does to the helper
    [p] on which it runs: nothing, or the exchange of the transcript and
    the answer is remembered. *)
Definition outcomeOf (transcript : string) (p : Processing) (r : Result) (p' : Processing) : Prop :=
  currentProcessingAbortController p' = currentProcessingAbortController p
  /\ requests p' = requests p
  /\ awaited p' = awaited p
  /\ match r with
     | Thrown _ _ =>
         conversationHistory p' = conversationHistory p /\ disk p' = disk p
     | Returned answer =>
         answer <> EmptyString
         /\ ((answer = noResponse
              /\ conversationHistory p' = conversationHistory p /\ disk p' = disk p)
             \/ (conversationHistory p' = pushExchange (conversationHistory p) transcript answer
                 /\ disk p' = saveConversationHistory (conversationHistory p') (disk p)))
     end.

Lemma outcomeOf_remember (transcript : string) (value : option string) (p : Processing) :
  outcomeOf transcript p (Returned (orNoResponse value))
    (remember transcript (orNoResponse value) p).
Proof.
  break_processing p. unfold outcomeOf. cbn.
  repeat split; eauto using orNoResponse_nonempty.
Qed.

Lemma outcomeOf_silent (transcript : string) (p : Processing) :
  outcomeOf transcript p (Returned noResponse) p.
Proof. unfold outcomeOf. repeat split; eauto; discriminate. Qed.

Lemma outcomeOf_rethrow (transcript name message : string) (p : Processing) :
  outcomeOf transcript p (rethrow name message) p.
Proof.
  destruct (rethrow_thrown name message) as (n & m & ->).
  unfold outcomeOf. repeat split; eauto.
Qed.

Lemma afterOpenAI_outcome (transcript : string) (outcome : Reply Completion)
    (p : Processing) :
  outcomeOf transcript p (fst (afterOpenAI transcript outcome p))
    (snd (afterOpenAI transcript outcome p)).
Proof.
  unfold afterOpenAI.
  destruct outcome as [name message|[|content rest]]; cbn [fst snd].
  - apply outcomeOf_rethrow.
  - apply outcomeOf_silent.
  - apply outcomeOf_remember.
Qed.

Lemma afterGemini_outcome (transcript : string) (outcome : Reply GeminiResponse)
    (p : Processing) :
  outcomeOf transcript p (fst (afterGemini transcript outcome p))
    (snd (afterGemini transcript outcome p)).
Proof.
  unfold afterGemini.
  destruct outcome as [name message|[[|[[[|text rest]|]|] others]|]]; cbn [fst snd];
    first [apply outcomeOf_rethrow | apply outcomeOf_silent | apply outcomeOf_remember].
Qed.

(** X20. When the request of an awaited call of
    [processTranscriptionWithAI] settles, whatever happened to the helper
    while it was awaited, the call ends: it is no longer awaited,
    [currentProcessingAbortController] is null, whoever it belonged to,
    and no request is sent.  A call that throws leaves the history and
    its file as they are then.  A call that returns never returns the
    empty string: either it returns "No response generated" with the
    history and its file untouched, or the history is the history of
    that moment extended by the exchange of the call's transcript and
    the returned answer, and the file has been saved from it. *)
Theorem settled_call_outcome (i : nat) (call : Call) (outcome : Backends)
    (p : Processing) :
  nth_error (awaited p) i = Some call ->
  let done := settle i outcome p in
  exists result,
    fst done = Some result
    /\ awaited (snd done) = Dispatch.removeAt i (awaited p)
    /\ currentProcessingAbortController (snd done) = None
    /\ requests (snd done) = requests p
    /\ match result with
       | Thrown _ _ =>
           conversationHistory (snd done) = conversationHistory p
           /\ disk (snd done) = disk p
       | Returned answer =>
           answer <> EmptyString
           /\ ((answer = noResponse
                /\ conversationHistory (snd done) = conversationHistory p
                /\ disk (snd done) = disk p)
               \/ (conversationHistory (snd done)
                   = pushExchange (conversationHistory p) (transcript call) answer
                   /\ disk (snd done)
                      = saveConversationHistory (conversationHistory (snd done)) (disk p)))
       end.
Proof.
  intros N. cbv zeta. unfold settle. rewrite N.
  set (p1 := set_awaited (Dispatch.removeAt i (awaited p)) p).
  assert (O : exists r p2,
             match provider call with
             | OpenAI => afterOpenAI (transcript call) (openai outcome) p1
             | Gemini => afterGemini (transcript call) (gemini outcome) p1
             end = (r, p2) /\ outcomeOf (transcript call) p1 r p2).
  { destruct (provider call).
    - pose proof (afterOpenAI_outcome (transcript call) (openai outcome) p1) as O.
      destruct (afterOpenAI _ _ _) as [r p2]. eauto.
    - pose proof (afterGemini_outcome (transcript call) (gemini outcome) p1) as O.
      destruct (afterGemini _ _ _) as [r p2]. eauto. }
  destruct O as (r & p2 & -> & _ & Rq & Aw & Out).
  exists r. cbn [fst snd].
  split; [reflexivity|]. split; [exact Aw|]. split; [reflexivity|].
  split; [exact Rq|]. exact Out.
Qed.

(** The backend of the call's provider responds, and its first choice,
    or the first part of its first candidate, is the text [answer]. *)
Definition answers (call : Call) (outcome : Backends) (answer : string) : Prop :=
  match provider call with
  | OpenAI => exists rest, openai outcome = Responds (Some answer :: rest)
  | Gemini =>
      exists rest others,
        gemini outcome = Responds (Some (Some (Some (Some answer :: rest)) :: others))
  end.

Lemma load_saved (history current : list Turn) (fs : FileSystem) :
  writable fs = true -> readable fs = true ->
  asHistory (loadConversationHistory current (saveConversationHistory history fs))
  = Some history.
Proof.
  intros W R. unfold loadConversationHistory, saveConversationHistory.
  rewrite W. simpl. rewrite R, JSON_parse_stringify. apply asHistory_historyValue.
Qed.

Lemma answered_call (i : nat) (call : Call) (outcome : Backends) (answer : string)
    (p : Processing) :
  nth_error (awaited p) i = Some call ->
  answer <> EmptyString ->
  answers call outcome answer ->
  let done := settle i outcome p in
  fst done = Some (Returned answer)
  /\ conversationHistory (snd done)
     = pushExchange (conversationHistory p) (transcript call) answer
  /\ disk (snd done) = saveConversationHistory (conversationHistory (snd done)) (disk p)
  /\ awaited (snd done) = Dispatch.removeAt i (awaited p)
  /\ currentProcessingAbortController (snd done) = None.
Proof.
  intros N A Ans. cbv zeta. unfold settle. rewrite N.
  apply String.eqb_neq in A.
  break_processing p. unfold answers in Ans.
  destruct (provider call).
  - destruct Ans as (rest & ->). unfold afterOpenAI. cbn. rewrite A. cbn.
    repeat split.
  - destruct Ans as (rest & others & ->). unfold afterGemini. cbn. rewrite A. cbn.
    repeat split.
Qed.

(** X21. When the backend of an awaited call answers with a text that is
    not empty, the call returns that text unchanged and the history
    becomes the history of that moment, whatever happened to it while
    the call was awaited, extended by the exchange of the call's
    transcript and the answer (bounded as in [pushExchange]), also when
    the file cannot be written.  When the file can be written and read,
    a load of the file gives back exactly the history in memory. *)
Theorem answer_is_returned_and_persisted (i : nat) (call : Call)
    (outcome : Backends) (answer : string) (p : Processing) (current : list Turn) :
  nth_error (awaited p) i = Some call ->
  answer <> EmptyString ->
  answers call outcome answer ->
  let done := settle i outcome p in
  fst done = Some (Returned answer)
  /\ conversationHistory (snd done)
     = pushExchange (conversationHistory p) (transcript call) answer
  /\ (writable (disk p) = true -> readable (disk p) = true ->
      asHistory (loadConversationHistory current (disk (snd done)))
      = Some (conversationHistory (snd done))).
Proof.
  intros N A Ans. cbv zeta.
  destruct (answered_call i call outcome answer p N A Ans) as (R & H & D & _).
  split; [exact R|]. split; [exact H|].
  intros W Rd. rewrite D. apply load_saved; assumption.
Qed.

(** Two questions asked one after the other while no call is awaited,
    and the helper after each. *)
Definition asked (systemPrompt systemInstruction t1 t2 : string) (apiProvider : Provider)
    (p : Processing) : Processing * Processing :=
  let p1 := snd (processTranscriptionWithAI apiProvider systemPrompt systemInstruction t1 p) in
  (p1, snd (processTranscriptionWithAI apiProvider systemPrompt systemInstruction t2 p1)).

Lemma settled_call_outcome_witness :
  let p := mkProcessing true None None [] (mkFileSystem None true true) [] [] 0 in
  let p2 := snd (asked "system" "instruction" "What is a heap?" "How fast is insertion?"
                   OpenAI p) in
  let outcome := mkBackends (Responds [Some "O(log n)."]) (Rejects "Error" "no key") in
  awaited p2 = [mkCall OpenAI "What is a heap?" 0; mkCall OpenAI "How fast is insertion?" 1]
  /\ awaited (snd (settle 1 outcome p2)) = [mkCall OpenAI "What is a heap?" 0]
  /\ currentProcessingAbortController (snd (settle 1 outcome p2)) = None.
Proof.
  intros p p2 outcome.
  destruct (settled_call_outcome 1 (mkCall OpenAI "How fast is insertion?" 1) outcome p2
              eq_refl) as (result & _ & Aw & C & _).
  split; [reflexivity|]. split; [exact Aw | exact C].
Defined.

Lemma answer_is_returned_and_persisted_witness :
  let p := mkProcessing false (Some "key") None
             [mkTurn "user" "What is a heap?"; mkTurn "assistant" "A tree."]
             (mkFileSystem None true true) [] [] 0 in
  let p1 := snd (processTranscriptionWithAI Gemini "system" "instruction"
                   "How fast is insertion?" p) in
  let outcome := mkBackends (Rejects "Error" "no client")
                   (Responds (Some [Some (Some [Some "O(log n)."])])) in
  let done := settle 0 outcome (clearConversationHistory p1) in
  fst done = Some (Returned "O(log n).")
  /\ conversationHistory (snd done)
     = [mkTurn "user" "How fast is insertion?"; mkTurn "assistant" "O(log n)."]
  /\ asHistory (loadConversationHistory [] (disk (snd done)))
     = Some (conversationHistory (snd done)).
Proof.
  intros p p1 outcome done.
  destruct (answer_is_returned_and_persisted 0
              (mkCall Gemini "How fast is insertion?" 0) outcome "O(log n)."
              (clearConversationHistory p1) [])
    as (R & H & L).
  - reflexivity.
  - discriminate.
  - exists [], []. reflexivity.
  - split; [exact R|]. split; [exact H|]. apply L; reflexivity.
Defined.

Lemma saveConversationHistory_flags (history : list Turn) (fs : FileSystem) :
  writable (saveConversationHistory history fs) = writable fs
  /\ readable (saveConversationHistory history fs) = readable fs.
Proof.
  unfold saveConversationHistory.
  destruct (writable fs) eqn:W; simpl; rewrite ?W; split; reflexivity.
Qed.

(** X22. [clearConversationHistory] empties the history in memory and
    leaves its file alone: the clearing reaches the file with the next
    save only.  When the file holds the history, as it does after an
    answered exchange, a load of the file after the clearing still gives
    the old history; the [window-all-closed] handler saves the cleared
    history off macOS, where a load then gives the empty history, and
    does nothing on macOS, where a load gives the old history back. *)
Theorem cleared_history_reaches_file_on_save (darwin : bool) (fs : FileSystem)
    (p : Processing) :
  writable fs = true ->
  readable fs = true ->
  disk p = saveConversationHistory (conversationHistory p) fs ->
  let cleared := clearConversationHistory p in
  let closed := windowAllClosed darwin cleared in
  conversationHistory cleared = []
  /\ disk cleared = disk p
  /\ asHistory (loadConversationHistory [] (disk cleared)) = Some (conversationHistory p)
  /\ asHistory (loadConversationHistory [] (disk closed))
     = Some (if darwin then conversationHistory p else []).
Proof.
  intros W R D. cbv zeta.
  assert (L : asHistory (loadConversationHistory [] (disk p))
              = Some (conversationHistory p))
    by (rewrite D; apply load_saved; assumption).
  split; [reflexivity|]. split; [reflexivity|]. split; [exact L|].
  unfold windowAllClosed. destruct darwin; [exact L|].
  change (disk (set_disk ?v _)) with v.
  change (conversationHistory (clearConversationHistory p)) with (@nil Turn).
  change (disk (clearConversationHistory p)) with (disk p).
  destruct (saveConversationHistory_flags (conversationHistory p) fs) as [W' R'].
  apply load_saved; rewrite D; congruence.
Qed.

Lemma cleared_history_reaches_file_on_save_witness :
  let p := mkProcessing true None None [] (mkFileSystem None true true) [] [] 0 in
  let p1 := snd (processTranscriptionWithAI OpenAI "system" "instruction"
                   "What is a heap?" p) in
  let outcome := mkBackends (Responds [Some "A tree."]) (Rejects "Error" "no key") in
  let answered := snd (settle 0 outcome p1) in
  let cleared := clearConversationHistory answered in
  conversationHistory cleared = []
  /\ asHistory (loadConversationHistory [] (disk (windowAllClosed true cleared)))
     = Some [mkTurn "user" "What is a heap?"; mkTurn "assistant" "A tree."]
  /\ asHistory (loadConversationHistory [] (disk (windowAllClosed false cleared)))
     = Some [].
Proof.
  intros p p1 outcome answered cleared.
  split; [reflexivity|]. split.
  - destruct (cleared_history_reaches_file_on_save true (mkFileSystem None true true)
                answered eq_refl eq_refl eq_refl) as (_ & _ & _ & L).
    exact L.
  - destruct (cleared_history_reaches_file_on_save false (mkFileSystem None true true)
                answered eq_refl eq_refl eq_refl) as (_ & _ & _ & L).
    exact L.
Defined.

(** The provider's backend can be reached from [p]. *)
Definition configured (apiProvider : Provider) (p : Processing) : Prop :=
  match apiProvider with
  | OpenAI => openaiClient p = true
  | Gemini => keyConfigured (geminiApiKey p) = true
  end.

(** The request that a call sends for a transcript and a history. *)
Definition requestOf (apiProvider : Provider) (systemPrompt systemInstruction : string)
    (history : list Turn) (transcript : string) : Request :=
  match apiProvider with
  | OpenAI => ChatRequest (chatMessages systemPrompt history transcript)
  | Gemini => GenerateRequest (promptWithHistory systemInstruction history transcript)
  end.

(** Both backends answer with the text [answer]. *)
Definition answering (answer : string) : Backends :=
  mkBackends (Responds [Some answer]) (Responds (Some [Some (Some [Some answer])])).

(** X28. Two calls awaited at once.  When a second transcript is
    processed while the call for the first is still awaited, both
    requests are built from the same history: the second does not
    contain the first exchange.  When the second response arrives
    first, [currentProcessingAbortController] becomes null although the
    first call is still awaited, and the history ends with the two
    exchanges in the order in which the responses arrived, not in the
    order of the questions. *)
Theorem overlapping_calls (apiProvider : Provider)
    (systemPrompt systemInstruction t1 t2 a1 a2 : string) (p : Processing) :
  configured apiProvider p ->
  awaited p = [] ->
  trim t1 <> EmptyString ->
  trim t2 <> EmptyString ->
  a1 <> EmptyString ->
  a2 <> EmptyString ->
  let p2 := snd (asked systemPrompt systemInstruction t1 t2 apiProvider p) in
  let p3 := snd (settle 1 (answering a2) p2) in
  let p4 := snd (settle 0 (answering a1) p3) in
  requests p2
  = (requests p
     ++ [requestOf apiProvider systemPrompt systemInstruction (conversationHistory p) t1;
         requestOf apiProvider systemPrompt systemInstruction (conversationHistory p) t2])%list
  /\ awaited p3 = [mkCall apiProvider t1 (controllers p)]
  /\ currentProcessingAbortController p3 = None
  /\ conversationHistory p3 = pushExchange (conversationHistory p) t2 a2
  /\ conversationHistory p4
     = pushExchange (pushExchange (conversationHistory p) t2 a2) t1 a1
  /\ awaited p4 = [].
Proof.
  intros C A T1 T2 A1 A2. cbv zeta. unfold asked.
  apply String.eqb_neq in T1, T2, A1, A2.
  break_processing p. cbn in A. subst aw.
  unfold processTranscriptionWithAI, settle, answering.
  destruct apiProvider; cbn in C.
  - subst client.
    unfold processTranscriptionWithOpenAI, afterOpenAI.
    cbn. rewrite T1. cbn. rewrite T2. cbn. rewrite A2. cbn. rewrite A1. cbn.
    rewrite <- List.app_assoc. repeat split.
  - unfold processTranscriptionWithGemini, afterGemini.
    cbn. rewrite T1. cbn. rewrite C. cbn. rewrite T2. cbn. rewrite C. cbn.
    rewrite A2. cbn. rewrite A1. cbn.
    rewrite <- List.app_assoc. repeat split.
Qed.

Lemma overlapping_calls_witness :
  let p := mkProcessing true None None [] (mkFileSystem None true true) [] [] 0 in
  let p2 := snd (asked "system" "instruction" "What is a heap?" "How fast is insertion?"
                   OpenAI p) in
  let p3 := snd (settle 1 (answering "O(log n).") p2) in
  let p4 := snd (settle 0 (answering "A tree.") p3) in
  currentProcessingAbortController p3 = None
  /\ awaited p3 = [mkCall OpenAI "What is a heap?" 0]
  /\ conversationHistory p4
     = [mkTurn "user" "How fast is insertion?"; mkTurn "assistant" "O(log n).";
        mkTurn "user" "What is a heap?"; mkTurn "assistant" "A tree."].
Proof.
  intros p p2 p3 p4.
  destruct (overlapping_calls OpenAI "system" "instruction"
              "What is a heap?" "How fast is insertion?" "A tree." "O(log n)." p)
    as (_ & Aw & C & _ & H & _).
  - reflexivity.
  - reflexivity.
  - vm_compute. discriminate.
  - vm_compute. discriminate.
  - discriminate.
  - discriminate.
  - split; [exact C|]. split; [exact Aw|].
    etransitivity; [exact H|]. vm_compute. reflexivity.
Defined.


Lemma waitFrom_spec (probe : nat -> option bool) (remaining attempts : nat) :
  (forall k, (k < attempts)%nat -> probe k = Some false) ->
  match waitFrom probe remaining attempts with
  | Initialized n =>
      (attempts <= n < attempts + remaining)%nat /\ probe n = Some true
      /\ forall k, (k < n)%nat -> probe k = Some false
  | ProbeFailed n =>
      (attempts <= n < attempts + remaining)%nat /\ probe n = None
      /\ forall k, (k < n)%nat -> probe k = Some false
  | TimedOut => forall k, (k < attempts + remaining)%nat -> probe k = Some false
  end.
Proof.
  revert attempts. induction remaining as [|r IH]; intros attempts Before; simpl.
  - intros k K. apply Before. lia.
  - destruct (probe attempts) as [[|]|] eqn:P.
    + split; [lia|]. split; assumption.
    + assert (Before' : forall k, (k < S attempts)%nat -> probe k = Some false).
      { intros k K. destruct (Nat.eq_dec k attempts) as [->|N]; [exact P|].
        apply Before. lia. }
      specialize (IH (S attempts) Before').
      destruct (waitFrom probe r (S attempts)) as [n|n|].
      * destruct IH as (B & IH). split; [lia|exact IH].
      * destruct IH as (B & IH). split; [lia|exact IH].
      * intros k K. apply IH. lia.
    + split; [lia|]. split; assumption.
Qed.

(** X23. [waitForInitialization] probes the window at most fifty times
    and stops at the first probe that is truthy or that rejects: it
    returns at attempt [n] exactly when probe [n] is the first truthy one
    among the first fifty and no earlier probe rejected, it fails with
    the probe's own error when a probe rejects first, and it times out
    only after fifty probes that were all falsy. *)
Theorem waitForInitialization_first_truthy_probe (probe : nat -> option bool) :
  match waitForInitialization probe with
  | Initialized n =>
      (n < 50)%nat /\ probe n = Some true
      /\ forall k, (k < n)%nat -> probe k = Some false
  | ProbeFailed n =>
      (n < 50)%nat /\ probe n = None
      /\ forall k, (k < n)%nat -> probe k = Some false
  | TimedOut => forall k, (k < 50)%nat -> probe k = Some false
  end.
Proof.
  pose proof (waitFrom_spec probe maxAttempts 0) as S.
  unfold waitForInitialization.
  destruct (waitFrom probe maxAttempts 0) as [n|n|].
  - destruct S as (B & S); [intros k K; lia|]. split; [exact (proj2 B)|exact S].
  - destruct S as (B & S); [intros k K; lia|]. split; [exact (proj2 B)|exact S].
  - apply S. intros k K. lia.
Qed.

End AssistantFacts.

(** ** From the helper to the backend *)


Module PipelineFacts.
Import Js JsFacts Speech SpeechFacts Lifecycle LifecycleFacts Pipeline.

(** *** The emissions of the helper only grow *)

Definition grows (h h' : Helper) : Prop :=
  exists new, emitted h' = (emitted h ++ new)%list.

Lemma grows_same (h h' : Helper) : emitted h' = emitted h -> grows h h'.
Proof. intros E. exists []. rewrite E. symmetry. apply app_nil_r. Qed.

Lemma grows_trans (h1 h2 h3 : Helper) : grows h1 h2 -> grows h2 h3 -> grows h1 h3.
Proof.
  intros [n1 E1] [n2 E2]. exists (n1 ++ n2)%list.
  rewrite E2, E1. symmetry. apply List.app_assoc.
Qed.

Lemma grows_emitCompleteQuestion (txt : string) (now : Z) (h : Helper) :
  grows h (emitCompleteQuestion txt now h).
Proof.
  unfold emitCompleteQuestion.
  destruct (String.length (trim txt) =? 0)%nat; [apply grows_same; reflexivity|].
  cbv zeta.
  destruct (negb (isLikelyQuestion (trim txt))); [apply grows_same; reflexivity|].
  destruct (String.eqb _ _ && _); [apply grows_same; reflexivity|].
  exists [trim txt]. reflexivity.
Qed.

Lemma grows_processQuestionBuffer (now : Z) (h : Helper) :
  grows h (processQuestionBuffer now h).
Proof.
  unfold processQuestionBuffer.
  destruct (questionBuffer h) as [b|]; [|apply grows_same; reflexivity].
  destruct (shouldEmit b now h); [|apply grows_same; reflexivity].
  cbv zeta.
  apply (grows_trans _ _ _ (grows_emitCompleteQuestion (text b) now h)).
  apply grows_same. destruct (questionCompletionTimer _); reflexivity.
Qed.

Lemma grows_handleSpeakerActivity (spk : option Z) (now : Z) (h : Helper) :
  grows h (handleSpeakerActivity spk now h).
Proof.
  unfold handleSpeakerActivity.
  destruct spk as [sp|]; [|apply grows_same; reflexivity].
  cbv zeta.
  set (h1 := set_lastSpeakerActivity _ h).
  destruct (_ && _ && _); [|apply grows_same; reflexivity].
  destruct (_ && _); [|apply grows_same; reflexivity].
  apply (grows_trans h h1); [apply grows_same; reflexivity|].
  apply (grows_trans h1 (processQuestionBuffer now h1));
    [apply grows_processQuestionBuffer | apply grows_same; reflexivity].
Qed.

Lemma grows_words (now : Z) (words : list Word) (l : Loop) :
  grows (helper l) (helper (fold_left (wordStep now) words l)).
Proof.
  revert l. induction words as [|w r IH]; intros l; simpl;
    [apply grows_same; reflexivity|].
  refine (grows_trans _ _ _ _ (IH _)).
  unfold wordStep. simpl.
  destruct (isNull _); [apply grows_same; reflexivity|].
  apply grows_handleSpeakerActivity.
Qed.

Lemma grows_handleDiarizedTranscript
    (words : list Word) (isFinal : bool) (now : Z) (h : Helper) :
  grows h (handleDiarizedTranscript words isFinal now h).
Proof.
  unfold handleDiarizedTranscript.
  destruct (segmentWords words now (identifyFirstSpeaker words h)) as [segs h2] eqn:SW.
  assert (G2 : grows h h2).
  { unfold segmentWords in SW. injection SW as _ <-.
    refine (grows_trans _ _ _ _ (grows_words now words _)).
    apply grows_same. simpl. unfold identifyFirstSpeaker.
    destruct (firstSpeakerId h); [reflexivity|].
    destruct (firstDefinedSpeaker words); reflexivity. }
  apply (grows_trans _ _ _ G2). apply grows_same.
  match goal with
  | |- emitted (snd (setTimeout _ _ _ ?X)) = _ => transitivity (emitted X); [reflexivity|]
  end.
  destruct (0 <? length _)%nat.
  - rewrite emitted_updateQuestionBuffer. apply emitted_send.
  - apply emitted_send.
Qed.

Lemma grows_handle (now : Z) (e : Event) (h : Helper) : grows h (handle now e h).
Proof.
  destruct e as [|t ws f|tid|t|m|]; simpl.
  - apply grows_same. rewrite emitted_send. reflexivity.
  - unfold onTranscript.
    destruct (negb _); [|apply grows_same; reflexivity].
    destruct (_ && _).
    + refine (grows_trans _ _ _ _ (grows_handleDiarizedTranscript _ _ _ _)).
      apply grows_same. reflexivity.
    + apply grows_same.
      unfold handleNonDiarizedTranscript.
      destruct (negb (processingDiarizedTranscript _)).
      * rewrite emitted_updateQuestionBuffer. apply emitted_send.
      * apply emitted_send.
  - unfold fireTimer.
    destruct (findTimer tid h) as [[d cb]|]; [|apply grows_same; reflexivity].
    destruct cb; simpl; [|apply grows_same; reflexivity].
    refine (grows_trans _ _ _ _ (grows_processQuestionBuffer _ _)).
    apply grows_same. reflexivity.
  - unfold processTranscript.
    destruct (String.eqb (trim t) EmptyString); [apply grows_same; reflexivity|].
    destruct (String.eqb t _ && _); [apply grows_same; reflexivity|].
    destruct (isLikelyQuestion t); simpl; [|apply grows_same; reflexivity].
    exists [t]. reflexivity.
  - apply grows_same. rewrite emitted_send. reflexivity.
  - apply grows_same. rewrite emitted_send. reflexivity.
Qed.

Lemma grows_execute (c : Command) (h : Helper) : grows h (execute h c).
Proof.
  destruct c as [ok|ok|now e]; simpl.
  - apply grows_same. unfold startSpeechRecognition.
    rewrite emitted_startListening. apply emitted_resetVADState.
  - apply grows_same. unfold stopListening.
    destruct (negb _ || negb _); [reflexivity|].
    destruct ok; [|reflexivity].
    change (emitted (resetVADState (set_processedTranscriptIds ∅ (set_isListening false h)))
            = emitted (set_processedTranscriptIds ∅ (set_isListening false h))).
    apply emitted_resetVADState.
  - apply grows_handle.
Qed.

(** *** Where the coordinator's transcripts come from *)

(** Every transcript the coordinator has started a call for, or keeps
    for later, satisfies [S]. *)
Definition drawnFrom (S : string -> Prop) (c : Dispatch.Coordinator) : Prop :=
  Forall S (Dispatch.started c)
  /\ Forall S (Dispatch.processingQueue c ++ Dispatch.resubmissions c).

Lemma drawnFrom_same (S : string -> Prop) (c c' : Dispatch.Coordinator) :
  Dispatch.started c' = Dispatch.started c ->
  Dispatch.processingQueue c' = Dispatch.processingQueue c ->
  Dispatch.resubmissions c' = Dispatch.resubmissions c ->
  drawnFrom S c -> drawnFrom S c'.
Proof. unfold drawnFrom. intros -> -> ->. exact id. Qed.

Lemma drawnFrom_weaken (S S' : string -> Prop) (c : Dispatch.Coordinator) :
  (forall t, S t -> S' t) -> drawnFrom S c -> drawnFrom S' c.
Proof.
  intros W [I1 I2]. split; eapply Forall_impl; eauto.
Qed.

Lemma drawnFrom_processNextInQueue (S : string -> Prop) (c : Dispatch.Coordinator) :
  drawnFrom S c -> drawnFrom S (Dispatch.processNextInQueue c).
Proof.
  CoordinatorFacts.break_coordinator c.
  unfold drawnFrom, Dispatch.processNextInQueue. CoordinatorFacts.frozen_cbn.
  intros [I1 I2]. destruct q as [|n rest]; CoordinatorFacts.frozen_cbn; [tauto|].
  destruct lock; CoordinatorFacts.frozen_cbn; [tauto|].
  apply Forall_cons in I2 as [In Ir]. apply Forall_app in Ir as [Iq Irs].
  destruct (negb (String.eqb n EmptyString)); CoordinatorFacts.frozen_cbn.
  - split; [exact I1|]. apply Forall_app. split; [exact Iq|].
    apply Forall_app. split; [exact Irs|]. constructor; [exact In | constructor].
  - split; [exact I1|]. apply Forall_app. split; assumption.
Qed.

Lemma drawnFrom_dispatch (S : string -> Prop) (t : string) (now : Z)
    (c : Dispatch.Coordinator) :
  S t -> drawnFrom S c -> drawnFrom S (Dispatch.dispatch t now c).
Proof.
  intros St I. unfold Dispatch.dispatch.
  destruct (negb (Dispatch.isValidInterviewQuestion t)); [exact I|].
  cbv zeta.
  destruct (negb (Dispatch.processingHelper _)).
  - apply drawnFrom_processNextInQueue. revert I.
    apply drawnFrom_same; reflexivity.
  - destruct I as [I1 I2]. split; [|exact I2].
    simpl. apply Forall_app. split; [exact I1|]. constructor; [exact St | constructor].
Qed.

Lemma drawnFrom_handleSpeechTranscription (S : string -> Prop) (t : string) (now : Z)
    (c : Dispatch.Coordinator) :
  S (trim t) -> drawnFrom S c -> drawnFrom S (Dispatch.handleSpeechTranscription t now c).
Proof.
  intros St I. unfold Dispatch.handleSpeechTranscription.
  destruct (String.length (trim t) <? 5)%nat; [exact I|].
  cbv zeta.
  destruct (String.eqb _ _ && _); [exact I|].
  destruct (Dispatch.isCurrentlyProcessing c).
  - destruct (30000 <? _)%Z.
    + apply drawnFrom_dispatch; [exact St|]. revert I. apply drawnFrom_same; reflexivity.
    + destruct I as [I1 I2]. split; [exact I1|]. simpl.
      apply Forall_app in I2 as [Iq Irs].
      apply Forall_app. split; [|exact Irs].
      apply Forall_app. split; [exact Iq|]. constructor; [exact St | constructor].
  - apply drawnFrom_dispatch; assumption.
Qed.

Lemma drawnFrom_settle (S : string -> Prop) (i : nat) (r : string + string)
    (c : Dispatch.Coordinator) :
  drawnFrom S c -> drawnFrom S (Dispatch.settle i r c).
Proof.
  intros I. unfold Dispatch.settle.
  destruct (nth_error (Dispatch.inFlight c) i); [|exact I].
  cbv zeta. destruct r as [resp|err];
    apply drawnFrom_processNextInQueue; revert I;
    apply drawnFrom_same; unfold Dispatch.send; simpl;
    destruct (Dispatch.mainWindow c); reflexivity.
Qed.

Lemma drawnFrom_resubmit (S : string -> Prop) (now : Z) (c : Dispatch.Coordinator) :
  (forall t, S t -> S (trim t)) ->
  drawnFrom S c -> drawnFrom S (Dispatch.resubmit now c).
Proof.
  intros Tr I. unfold Dispatch.resubmit.
  destruct (Dispatch.resubmissions c) as [|n rest] eqn:R; [exact I|].
  destruct I as [I1 I2]. rewrite R in I2.
  apply Forall_app in I2 as [Iq Irs]. apply Forall_cons in Irs as [In Ir].
  apply drawnFrom_handleSpeechTranscription; [apply Tr, In|].
  split; [exact I1|]. simpl. apply Forall_app. split; assumption.
Qed.

(** The trimmed form of a text the helper has emitted. *)
Definition emittedBy (h : Helper) (t : string) : Prop :=
  exists e, In e (emitted h) /\ t = trim e.

Lemma emittedBy_trim (h : Helper) (t : string) : emittedBy h t -> emittedBy h (trim t).
Proof.
  intros (e & I & ->). exists e. split; [exact I|]. apply trim_idempotent.
Qed.

Lemma emittedBy_grows (h h' : Helper) (t : string) :
  grows h h' -> emittedBy h t -> emittedBy h' t.
Proof.
  intros [new E] (e & I & ->). exists e. split; [|reflexivity].
  rewrite E. apply in_or_app. left. exact I.
Qed.

Lemma drawnFrom_deliver (S : string -> Prop) (clock : nat -> Z)
    (ts : list string) (k : nat) (c : Dispatch.Coordinator) :
  Forall (fun t => S (trim t)) ts ->
  drawnFrom S c -> drawnFrom S (deliver clock k ts c).
Proof.
  revert k c. induction ts as [|t r IH]; intros k c F I; simpl; [exact I|].
  apply Forall_cons in F as [Ft Fr].
  apply IH; [exact Fr|]. apply drawnFrom_handleSpeechTranscription; assumption.
Qed.

Lemma startedValid_deliver (clock : nat -> Z) (ts : list string) (k : nat)
    (c : Dispatch.Coordinator) :
  DispatchFacts.startedValid c -> DispatchFacts.startedValid (deliver clock k ts c).
Proof.
  revert k c. induction ts as [|t r IH]; intros k c V; simpl; [exact V|].
  apply IH. apply DispatchFacts.handleSpeechTranscription_startedValid. exact V.
Qed.

(** What holds of the application after every input. *)
Definition appInv (a : App) : Prop :=
  emitsQuestions (speech a)
  /\ DispatchFacts.startedValid (coordinator a)
  /\ drawnFrom (emittedBy (speech a)) (coordinator a).

Lemma appInv_step (clock : nat -> Z) (a : App) (i : Input) :
  appInv a -> appInv (step clock a i).
Proof.
  intros (E & V & D). destruct i as [command|i result|now]; simpl.
  - pose proof (grows_execute command (speech a)) as G.
    split; [apply emitsQuestions_execute; exact E|].
    split; [apply startedValid_deliver; exact V|].
    simpl. apply drawnFrom_deliver.
    + apply List.Forall_forall. intros t I.
      exists t. split; [|reflexivity].
      destruct G as [new G]. rewrite G in I |- *.
      rewrite drop_app_length in I. apply in_or_app. right. exact I.
    + revert D. apply drawnFrom_weaken. intros t. apply emittedBy_grows, G.
  - split; [exact E|].
    split; [exact (DispatchFacts.handle_startedValid 0 (Dispatch.EvSettled i result) _ V)|].
    apply drawnFrom_settle. exact D.
  - split; [exact E|].
    split; [exact (DispatchFacts.handle_startedValid now Dispatch.EvResubmit _ V)|].
    apply drawnFrom_resubmit; [|exact D]. intros t. apply emittedBy_trim.
Qed.

(** X24. From the start of the application on, whatever the helper
    hears and however the backend calls settle, every transcript for
    which a backend call is started is the trimmed form of a text that
    the helper emitted, passes [isLikelyQuestion] and passes
    [isValidInterviewQuestion]: the backend is never asked about a text
    that either filter refuses. *)
Theorem backend_asked_only_filtered_questions
    (client helper window : bool) (clock : nat -> Z) (inputs : list Input) :
  let a := runApp clock inputs (initialApp client helper window) in
  Forall (fun t => (exists e, In e (emitted (speech a)) /\ t = trim e)
                   /\ isLikelyQuestion t = true
                   /\ Dispatch.isValidInterviewQuestion t = true)
         (Dispatch.started (coordinator a)).
Proof.
  cbv zeta.
  assert (I : appInv (runApp clock inputs (initialApp client helper window))).
  { unfold runApp.
    assert (I0 : appInv (initialApp client helper window)).
    { split; [constructor|]. split; [constructor|]. split; constructor. }
    revert I0. generalize (initialApp client helper window).
    induction inputs as [|i r IH]; intros a I0; simpl; [exact I0|].
    apply IH, appInv_step, I0. }
  destruct I as (E & V & D1 & _).
  apply List.Forall_forall. intros t T.
  pose proof (proj1 (List.Forall_forall _ _) D1 t T) as (e & Ie & ->).
  split; [exists e; split; [exact Ie | reflexivity]|].
  split.
  - rewrite isLikelyQuestion_trim.
    exact (proj1 (List.Forall_forall _ _) E e Ie).
  - exact (proj1 (List.Forall_forall _ _) V _ T).
Qed.

End PipelineFacts.

(** ** main.ts: hiding and showing the window *)


Module WindowsFacts.
Import Windows.

(** X25. On a live window, hiding makes the window transparent and deaf
    to the mouse without moving it, and showing it again puts it back
    with the bounds it had when it was hidden, whatever position and
    size were remembered before, opaque and listening to the mouse; the
    visibility flag follows. *)
Theorem hide_then_show_restores_window (s : State) (w : BrowserWindow) :
  mainWindow s = Some w ->
  isDestroyed w = false ->
  exists hidden restored wh wr,
    hideMainWindow s = Some hidden
    /\ showMainWindow hidden = Some restored
    /\ mainWindow hidden = Some wh /\ mainWindow restored = Some wr
    /\ isWindowVisible hidden = false /\ isWindowVisible restored = true
    /\ getBounds wh = getBounds w /\ opacity wh = 0 /\ ignoreMouseEvents wh = true
    /\ getBounds wr = getBounds w /\ opacity wr = 1 /\ ignoreMouseEvents wr = false
    /\ shown wr = true.
Proof.
  intros M D. unfold hideMainWindow. rewrite M, D. cbn [negb].
  eexists. eexists. eexists. eexists.
  split; [reflexivity|].
  unfold showMainWindow. cbn. rewrite D. cbn.
  split; [reflexivity|].
  split; [reflexivity|].
  split; [reflexivity|].
  destruct w as [d [bx by_ bw bh] o i a v c sh]. cbn.
  repeat split; reflexivity.
Qed.

Lemma hide_then_show_restores_window_witness :
  let w := mkBrowserWindow false (mkRectangle 120 50 800 600) 1 false true false false true in
  let s := mkState (Some w) true (Some (0, 50)) (Some (750, 550)) 0 50 in
  exists hidden restored wh wr,
    hideMainWindow s = Some hidden
    /\ showMainWindow hidden = Some restored
    /\ mainWindow hidden = Some wh /\ mainWindow restored = Some wr
    /\ isWindowVisible hidden = false /\ isWindowVisible restored = true
    /\ getBounds wh = getBounds w /\ opacity wh = 0 /\ ignoreMouseEvents wh = true
    /\ getBounds wr = getBounds w /\ opacity wr = 1 /\ ignoreMouseEvents wr = false
    /\ shown wr = true.
Proof.
  intros w s. exact (hide_then_show_restores_window s w eq_refl eq_refl).
Defined.

(** X26. Without a window the three visibility functions throw instead
    of doing nothing: so does the toggle after the window was closed,
    whatever the state was before. A window that is destroyed but still
    referenced is left alone. *)
Theorem toggle_without_window_throws (s : State) :
  toggleMainWindow (handleWindowClosed s) = None
  /\ (mainWindow s = None ->
      hideMainWindow s = None /\ showMainWindow s = None /\ toggleMainWindow s = None)
  /\ (forall w, mainWindow s = Some w -> isDestroyed w = true ->
      hideMainWindow s = Some s /\ showMainWindow s = Some s
      /\ toggleMainWindow s = Some s).
Proof.
  split; [reflexivity|]. split.
  - intros M. unfold toggleMainWindow, hideMainWindow, showMainWindow. rewrite M.
    destruct (isWindowVisible s); repeat split; reflexivity.
  - intros w M D. unfold toggleMainWindow, hideMainWindow, showMainWindow.
    rewrite M, D. cbn. destruct (isWindowVisible s); repeat split; reflexivity.
Qed.

End WindowsFacts.


(** ** SystemAudioHelper: the source of the system audio *)


Module SystemAudioFacts.
Import Js SystemAudio.

(** X27. [captureSystemAudio] returns the id of the first source, in the
    order given by the capturer, whose id starts with "screen": every
    source before it is passed over because its id does not start so.
    It throws "No screen source available for system audio capture"
    exactly when no id starts with "screen", and never returns the id of
    another kind of source. *)
Theorem captureSystemAudio_first_screen (ids : list string) :
  match captureSystemAudio (inr ids) with
  | inl id =>
      startsWith id "screen" = true
      /\ exists before after,
           ids = (before ++ id :: after)%list
           /\ Forall (fun i => startsWith i "screen" = false) before
  | inr message =>
      message = "No screen source available for system audio capture"
      /\ Forall (fun i => startsWith i "screen" = false) ids
  end.
Proof.
  unfold captureSystemAudio.
  induction ids as [|i r IH]; simpl.
  - split; [reflexivity | constructor].
  - destruct (startsWith i "screen") eqn:S.
    + split; [exact S|]. exists [], r. split; [reflexivity | constructor].
    + destruct (find _ r) as [id|].
      * destruct IH as (Sid & before & after & -> & F).
        split; [exact Sid|]. exists (i :: before), after.
        split; [reflexivity|]. constructor; assumption.
      * destruct IH as (M & F). split; [exact M|]. constructor; assumption.
Qed.

End SystemAudioFacts.
